(** * Literature manager: data-access layer and title search

    A shallow embedding of [src/models.py], [src/database.py] and the title
    search of [src/utils.py], together with the table definitions of
    [setup_database.py] that the SQL statements of the access layer run
    against.

    Modelling decisions, in one place:
    - Python [str] values are [string]s, the bytes of their UTF-8 encoding;
      the case folding and the whitespace splitting of the title search are
      the ASCII ones.
    - The [identifiers] column is kept as the dict that [json.dumps] wrote;
      [json_extract] reads it the way SQLite does: the member is found by
      the label as written in the JSON text, its text ends at the first
      U+0000, and a malformed path fails the statement.
    - A table is the list of its rows in insertion (rowid) order.
    - [uuid.uuid4()] and [CURRENT_TIMESTAMP] are inputs of the operations
      that consume them ([uuid], [now]).
    - A connection holds the committed database and a working copy; closing
      it without a commit drops the working copy.
    - The access layer is constructed over an initialised database file, so
      the "Database not found" paths are not part of the model. *)

From stdpp Require Import base option list strings gmap.
From Stdlib Require Import ZArith Ascii String Permutation Sorted.

Local Open Scope string_scope.
Local Open Scope Z_scope.

(** ** models.py: the four vocabularies *)

Module Models.

Definition VALID_SOURCE_TYPES : gset string :=
  {[ "paper"; "webpage"; "book"; "video"; "blog" ]}.

Definition VALID_IDENTIFIER_TYPES : gset string :=
  {[ "semantic_scholar"; "arxiv"; "doi"; "isbn"; "url" ]}.

Definition VALID_STATUS_VALUES : gset string :=
  {[ "unread"; "reading"; "completed"; "archived" ]}.

Definition VALID_RELATION_TYPES : gset string :=
  {[ "discusses"; "introduces"; "extends"; "evaluates"; "applies"; "critiques" ]}.

Definition validate_source_type (source_type : string) : bool :=
  bool_decide (source_type ∈ VALID_SOURCE_TYPES).

Definition validate_identifier_type (identifier_type : string) : bool :=
  bool_decide (identifier_type ∈ VALID_IDENTIFIER_TYPES).

Definition validate_status (status : string) : bool :=
  bool_decide (status ∈ VALID_STATUS_VALUES).

Definition validate_relation_type (relation_type : string) : bool :=
  bool_decide (relation_type ∈ VALID_RELATION_TYPES).

End Models.

Export Models.

(** ** The persisted layout (setup_database.py) *)

(** [sources(id, title, type, identifiers, status, created_at)].  The
    [identifiers] column holds [json.dumps] of a text-to-text dict; it is kept
    as the dict it decodes to. *)
Record SourceRow := mkSourceRow {
  src_id : string;
  src_title : string;
  src_type : string;
  src_identifiers : gmap string string;
  src_status : string;
  src_created_at : Z
}.

(** [source_notes(source_id, note_title, content, created_at)]. *)
Record NoteRow := mkNoteRow {
  note_source_id : string;
  note_title : string;
  note_content : string;
  note_created_at : Z
}.

(** [source_entity_links(source_id, entity_name, relation_type, notes,
    created_at)]; [notes] is nullable. *)
Record LinkRow := mkLinkRow {
  link_source_id : string;
  link_entity_name : string;
  link_relation_type : string;
  link_notes : option string;
  link_created_at : Z
}.

Record Store := mkStore {
  sources : list SourceRow;
  source_notes : list NoteRow;
  source_entity_links : list LinkRow
}.

Definition empty_store : Store := mkStore [] [] [].

(** ** Exceptions *)

(** [sqlite3.Error]: the constraint failures the schema can produce
    ([sqlite3.IntegrityError]), named by the column list SQLite reports, and
    the failure of [json_extract] on a malformed path
    ([sqlite3.OperationalError]), with the part of the path it stopped at. *)
Inductive sqlite3_Error :=
  | UNIQUE_constraint_failed (columns : string)
  | CHECK_constraint_failed (column : string)
  | JSON_path_error (near : string).

(** One constructor per [raise DatabaseError(...)] of database.py, carrying
    the value interpolated into its message. *)
Inductive DatabaseError :=
  | Invalid_source_type (source_type : string)
  | Invalid_identifier_type (identifier_type : string)
  | Source_already_exists (existing_id : string)
  | Failed_to_add_source (e : sqlite3_Error)
  | Source_not_found (source_id : string)
  | Note_already_exists (note_title : string)
  | Failed_to_add_note (e : sqlite3_Error)
  | Invalid_status (status : string)
  | Failed_to_update_status (e : sqlite3_Error)
  | Invalid_relation_type (relation_type : string)
  | Link_already_exists (entity_name : string)
  | Failed_to_create_entity_link (e : sqlite3_Error).

(** The [%q] of SQLite's message formatting: every single quote is doubled. *)
Fixpoint percent_q (s : string) : string :=
  match s with
  | EmptyString => EmptyString
  | String c s' =>
      if bool_decide (c = "'"%char) then String c (String c (percent_q s'))
      else String c (percent_q s')
  end.

Definition sqlite3_str (e : sqlite3_Error) : string :=
  match e with
  | UNIQUE_constraint_failed cols => "UNIQUE constraint failed: " ++ cols
  | CHECK_constraint_failed col => "CHECK constraint failed: " ++ col
  | JSON_path_error near => "JSON path error near '" ++ percent_q near ++ "'"
  end.

(** The f-string of each raise site. *)
Definition message (e : DatabaseError) : string :=
  match e with
  | Invalid_source_type t => "Invalid source type: " ++ t
  | Invalid_identifier_type t => "Invalid identifier type: " ++ t
  | Source_already_exists i => "Source already exists with ID: " ++ i
  | Failed_to_add_source e => "Failed to add source: " ++ sqlite3_str e
  | Source_not_found i => "Source not found: " ++ i
  | Note_already_exists t => "Note with title '" ++ t ++ "' already exists"
  | Failed_to_add_note e => "Failed to add note: " ++ sqlite3_str e
  | Invalid_status s => "Invalid status: " ++ s
  | Failed_to_update_status e => "Failed to update status: " ++ sqlite3_str e
  | Invalid_relation_type r => "Invalid relation type: " ++ r
  | Link_already_exists n =>
      "Link already exists between source and entity '" ++ n ++ "'"
  | Failed_to_create_entity_link e =>
      "Failed to create entity link: " ++ sqlite3_str e
  end.

(** The error kinds of the specification; database.py has the single class
    [DatabaseError], the kind is which raise site produced it. *)
Inductive ErrorKind := ValidationError | ConflictError | NotFoundError | StoreError.

Definition error_kind (e : DatabaseError) : ErrorKind :=
  match e with
  | Invalid_source_type _ | Invalid_identifier_type _
  | Invalid_status _ | Invalid_relation_type _ => ValidationError
  | Source_already_exists _ | Note_already_exists _
  | Link_already_exists _ => ConflictError
  | Source_not_found _ => NotFoundError
  | Failed_to_add_source _ | Failed_to_add_note _
  | Failed_to_update_status _ | Failed_to_create_entity_link _ => StoreError
  end.

(** What a Python call can raise here. *)
Inductive exn :=
  | DbError (e : DatabaseError)
  | SqlError (e : sqlite3_Error)
  | OverflowError.

Inductive Result (A : Type) :=
  | Ok (a : A)
  | Raise (e : exn).
Arguments Ok {A} a.
Arguments Raise {A} e.

(** ** A state-and-exception monad *)

Definition M (St A : Type) : Type := St -> Result A * St.

Definition ret {St A} (a : A) : M St A := fun s => (Ok a, s).

Definition bind {St A B} (m : M St A) (k : A -> M St B) : M St B :=
  fun s => match m s with
           | (Ok a, s') => k a s'
           | (Raise e, s') => (Raise e, s')
           end.

Definition raise {St A} (e : exn) : M St A := fun s => (Raise e, s).

(** [try: m except sqlite3.Error as e: h e]; any other exception passes. *)
Definition try_except_sqlite3 {St A} (m : M St A) (h : sqlite3_Error -> M St A)
  : M St A :=
  fun s => match m s with
           | (Raise (SqlError e), s') => h e s'
           | r => r
           end.

Declare Scope db_scope.
Delimit Scope db_scope with db.
Notation "x <- m ;; k" := (bind m (fun x => k))
  (at level 100, m at next level, right associativity) : db_scope.
Notation "m ;;; k" := (bind m (fun _ => k))
  (at level 100, right associativity) : db_scope.
Local Open Scope db_scope.

(** ** The identifiers column: [json.dumps] and [json_extract] *)

(** [add_source] stores [json.dumps({identifier_type: identifier_value})] and
    [find_source_by_identifier] reads it back inside the statement, with
    [json_extract(identifiers, '$.<identifier_type>')].  Two things decide
    what that finds: the text [json.dumps] writes for a string, and the way
    SQLite walks a path and returns a JSON string. *)

Module Json.

Local Open Scope N_scope.

Definition quote : ascii := "034"%char.
Definition backslash : ascii := "092"%char.

(** A C string ends at its first NUL.  SQLite reads a bound path this way,
    and the text it returns for a JSON string stops at the escape for U+0000
    (every other escape of [json.dumps] is undone). *)
Fixpoint cut_at_nul (s : string) : string :=
  match s with
  | EmptyString => EmptyString
  | String c s' =>
      if bool_decide (c = Ascii.zero) then EmptyString
      else String c (cut_at_nul s')
  end.

Definition hex_digit (n : N) : ascii :=
  nth (N.to_nat n) (list_ascii_of_string "0123456789abcdef") "0"%char.

(** The escape with four hexadecimal digits. *)
Definition u_escape (v : N) : string :=
  String backslash
    (String "u"
       (String (hex_digit (v / 4096 mod 16))
          (String (hex_digit (v / 256 mod 16))
             (String (hex_digit (v / 16 mod 16))
                (String (hex_digit (v mod 16)) EmptyString))))).

(** [json.dumps] (with its default [ensure_ascii]) on a character below
    U+0080: the quote, the backslash and the control characters are escaped,
    the printable ones are written as they are. *)
Definition escape_ascii (c : ascii) : string :=
  let n := N_of_ascii c in
  if bool_decide (c = quote) then String backslash (String quote EmptyString)
  else if bool_decide (c = backslash)
  then String backslash (String backslash EmptyString)
  else if n =? 10 then String backslash "n"
  else if n =? 13 then String backslash "r"
  else if n =? 9 then String backslash "t"
  else if n =? 8 then String backslash "b"
  else if n =? 12 then String backslash "f"
  else if (32 <=? n) && (n <=? 126) then String c EmptyString
  else u_escape n.

(** ... and on a character from U+0080 on: one escape, or the two of a
    surrogate pair above U+FFFF. *)
Definition escape_wide (v : N) : string :=
  if v <? 65536 then u_escape v
  else (u_escape (55296 + (v - 65536) / 1024) ++
        u_escape (56320 + (v - 65536) mod 1024))%string.

Definition continuation (c : ascii) : N := N_of_ascii c mod 64.

(** The text [json.dumps] writes between the quotes for a [str], read off
    the UTF-8 bytes of the [str].  (A byte string that is not UTF-8 is no
    [str]; its stray bytes are escaped by their value.) *)
Fixpoint escape (s : string) : string :=
  match s with
  | EmptyString => EmptyString
  | String c1 s1 =>
      let n1 := N_of_ascii c1 in
      if n1 <? 128 then (escape_ascii c1 ++ escape s1)%string
      else if n1 <? 224 then
        match s1 with
        | String c2 s2 =>
            (escape_wide (n1 mod 32 * 64 + continuation c2) ++ escape s2)%string
        | _ => escape_wide n1
        end
      else if n1 <? 240 then
        match s1 with
        | String c2 (String c3 s3) =>
            (escape_wide (n1 mod 16 * 4096 + continuation c2 * 64 +
                          continuation c3) ++ escape s3)%string
        | _ => escape_wide n1
        end
      else
        match s1 with
        | String c2 (String c3 (String c4 s4)) =>
            (escape_wide (n1 mod 8 * 262144 + continuation c2 * 4096 +
                          continuation c3 * 64 + continuation c4) ++
             escape s4)%string
        | _ => escape_wide n1
        end
  end.

(** The characters of [s] before the first one that satisfies [stop], and
    the rest from that character on. *)
Fixpoint span (stop : ascii -> bool) (s : string) : string * string :=
  match s with
  | EmptyString => (EmptyString, EmptyString)
  | String c s' =>
      if stop c then (EmptyString, s)
      else let '(before, rest) := span stop s' in (String c before, rest)
  end.

Definition is_digit (c : ascii) : bool :=
  (48 <=? N_of_ascii c) && (N_of_ascii c <=? 57).

(** What a path can name. *)
Inductive node :=
  | Value (text : string)       (* a member whose value is the string [text] *)
  | NoNode                      (* nothing *)
  | SyntaxError (near : string) (* the path is malformed from [near] on *).

(** The key of the path step [.<zPath>] and the path that follows it: a key
    in double quotes runs to the next double quote, a bare key runs to the
    next [.] or [[] and is not empty. *)
Definition path_key (zPath : string) : string + (string * string) :=
  match zPath with
  | String c z' =>
      if bool_decide (c = quote) then
        match span (fun c => bool_decide (c = quote)) z' with
        | (key, String _ rest) => inr (key, rest)
        | (_, EmptyString) => inl zPath
        end
      else
        let '(key, rest) :=
          span (fun c => bool_decide (c = "."%char) || bool_decide (c = "["%char))
               zPath in
        if bool_decide (key = EmptyString) then inl zPath else inr (key, rest)
  | EmptyString => inl zPath
  end.

(** The rest of a path, at a member whose value is a string: the empty path
    names the string; a further member step or a well-formed array step
    ([[digits]], or anything after [[#]) names nothing, since a string is
    neither object nor array; everything else is malformed. *)
Definition below_string (text rest : string) : node :=
  match rest with
  | EmptyString => Value text
  | String c r =>
      if bool_decide (c = "."%char) then NoNode
      else if bool_decide (c = "["%char) then
        match span (fun c => negb (is_digit c)) r with
        | (String _ _, String c' _) =>
            if bool_decide (c' = "]"%char) then NoNode else SyntaxError rest
        | _ =>
            match r with
            | String c' _ =>
                if bool_decide (c' = "#"%char) then NoNode else SyntaxError rest
            | EmptyString => SyntaxError rest
            end
        end
      else SyntaxError rest
  end.

(** The member of the object under a key of a path: the label is compared
    as [json.dumps] wrote it, escapes included. *)
Definition member (obj : gmap string string) (key : string) : option string :=
  snd <$> head (List.filter (fun kv => bool_decide (escape (fst kv) = key))
                            (map_to_list obj)).

(** The node the path [$.<zPath>] names in the object. *)
Definition lookup (obj : gmap string string) (zPath : string) : node :=
  match path_key (cut_at_nul zPath) with
  | inl near => SyntaxError near
  | inr (key, rest) =>
      match member obj key with
      | Some text => below_string text rest
      | None => NoNode
      end
  end.

End Json.

(** ** The SQL statements, on one database image *)

(** A SELECT without ORDER BY gives its rows in table order here.  SQL
    leaves that order to the engine; the statements proved below that go
    through [fetchone] concern queries with at most one matching row, or hold
    for whichever row comes first. *)

Module Sql.

(** The CHECK constraints of the schema, with the literals of the
    CREATE TABLE statements. *)
Definition CHECK_sources_type (t : string) : bool :=
  bool_decide (t ∈ ["paper"; "webpage"; "book"; "video"; "blog"]).

Definition CHECK_sources_status (s : string) : bool :=
  bool_decide (s ∈ ["unread"; "reading"; "completed"; "archived"]).

Definition CHECK_links_relation_type (r : string) : bool :=
  bool_decide (r ∈ ["discusses"; "introduces"; "extends"; "evaluates";
                    "applies"; "critiques"]).

(** [SELECT ... FROM sources WHERE id = ?] *)
Definition select_sources_by_id (id : string) (db : Store) : list SourceRow :=
  List.filter (fun r => bool_decide (src_id r = id)) (sources db).

(** [json_extract(identifiers, '$.<key>')] on one row: an SQL text, NULL
    ([None]), or the failure of the statement. *)
Definition json_extract (identifiers : gmap string string) (key : string)
    : sqlite3_Error + option string :=
  match Json.lookup identifiers key with
  | Json.Value text => inr (Some (Json.cut_at_nul text))
  | Json.NoNode => inr None
  | Json.SyntaxError near => inl (JSON_path_error near)
  end.

(** [WHERE type = ? AND json_extract(identifiers, '$.<key>') = ?] is true of
    the row: it has the type, and the path names a text equal to [value]. *)
Definition has_identity (source_type key value : string) (r : SourceRow) : bool :=
  bool_decide (src_type r = source_type) &&
  match json_extract (src_identifiers r) key with
  | inr (Some text) => bool_decide (text = value)
  | _ => false
  end.

(** The rows the WHERE clause is true of, in table order: the result of the
    SELECT when no path error ends it. *)
Definition select_sources_by_identifier (source_type key value : string)
    (db : Store) : list SourceRow :=
  List.filter (has_identity source_type key value) (sources db).

(** The SELECT as [cursor.execute] runs it, up to its first result row.  The
    rows of the type are visited in table order (through the index on
    [type]), [json_extract] is evaluated on each of them, and a path error on
    a visited row ends the statement. *)
Fixpoint first_with_identity (source_type key value : string)
    (rows : list SourceRow) : sqlite3_Error + option SourceRow :=
  match rows with
  | [] => inr None
  | r :: rows' =>
      if bool_decide (src_type r = source_type) then
        match json_extract (src_identifiers r) key with
        | inl e => inl e
        | inr (Some text) =>
            if bool_decide (text = value) then inr (Some r)
            else first_with_identity source_type key value rows'
        | inr None => first_with_identity source_type key value rows'
        end
      else first_with_identity source_type key value rows'
  end.

Definition select_first_source_by_identifier (source_type key value : string)
    (db : Store) : sqlite3_Error + option SourceRow :=
  first_with_identity source_type key value (sources db).

(** [SELECT ... FROM source_notes WHERE source_id = ?] *)
Definition select_notes_by_source (id : string) (db : Store) : list NoteRow :=
  List.filter (fun n => bool_decide (note_source_id n = id)) (source_notes db).

(** [SELECT 1 FROM source_notes WHERE source_id = ? AND note_title = ?] *)
Definition select_notes_by_key (id title : string) (db : Store) : list NoteRow :=
  List.filter (fun n => bool_decide (note_source_id n = id) &&
                        bool_decide (note_title n = title)) (source_notes db).

(** [SELECT ... FROM source_entity_links WHERE source_id = ?] *)
Definition select_links_by_source (id : string) (db : Store) : list LinkRow :=
  List.filter (fun l => bool_decide (link_source_id l = id))
              (source_entity_links db).

(** [SELECT 1 FROM source_entity_links WHERE source_id = ? AND entity_name = ?] *)
Definition select_links_by_key (id name : string) (db : Store) : list LinkRow :=
  List.filter (fun l => bool_decide (link_source_id l = id) &&
                        bool_decide (link_entity_name l = name))
              (source_entity_links db).

(** [INSERT INTO sources (id, title, type, identifiers) VALUES (?, ?, ?, ?)]:
    [status] takes its default ['unread'], [created_at] the current time. *)
Definition insert_into_sources (id title type : string)
    (identifiers : gmap string string) (now : Z) (db : Store)
    : sqlite3_Error + Store :=
  if negb (CHECK_sources_type type) then inl (CHECK_constraint_failed "type")
  else match select_sources_by_id id db with
       | _ :: _ => inl (UNIQUE_constraint_failed "sources.id")
       | [] =>
           inr (mkStore
                  (sources db ++ [mkSourceRow id title type identifiers "unread" now])
                  (source_notes db) (source_entity_links db))
       end.

(** [INSERT INTO source_notes (source_id, note_title, content) VALUES (?, ?, ?)].
    The REFERENCES clause is not enforced (foreign keys are off by default). *)
Definition insert_into_source_notes (source_id title content : string) (now : Z)
    (db : Store) : sqlite3_Error + Store :=
  match select_notes_by_key source_id title db with
  | _ :: _ =>
      inl (UNIQUE_constraint_failed "source_notes.source_id, source_notes.note_title")
  | [] =>
      inr (mkStore (sources db)
             (source_notes db ++ [mkNoteRow source_id title content now])
             (source_entity_links db))
  end.

(** [INSERT INTO source_entity_links (source_id, entity_name, relation_type,
    notes) VALUES (?, ?, ?, ?)]. *)
Definition insert_into_source_entity_links (source_id name relation : string)
    (notes : option string) (now : Z) (db : Store) : sqlite3_Error + Store :=
  if negb (CHECK_links_relation_type relation)
  then inl (CHECK_constraint_failed "relation_type")
  else match select_links_by_key source_id name db with
       | _ :: _ =>
           inl (UNIQUE_constraint_failed
                  "source_entity_links.source_id, source_entity_links.entity_name")
       | [] =>
           inr (mkStore (sources db) (source_notes db)
                  (source_entity_links db ++
                     [mkLinkRow source_id name relation notes now]))
       end.

Definition set_status (new_status id : string) (r : SourceRow) : SourceRow :=
  if bool_decide (src_id r = id)
  then mkSourceRow (src_id r) (src_title r) (src_type r) (src_identifiers r)
                   new_status (src_created_at r)
  else r.

(** [UPDATE sources SET status = ? WHERE id = ?], with the number of rows
    it changed ([cursor.rowcount]); the CHECK runs on the rows it writes. *)
Definition update_sources_status (new_status id : string) (db : Store)
    : sqlite3_Error + (nat * Store) :=
  match select_sources_by_id id db with
  | [] => inr (0%nat, db)
  | hit :: hits =>
      if negb (CHECK_sources_status new_status)
      then inl (CHECK_constraint_failed "status")
      else inr (List.length (hit :: hits),
                mkStore (map (set_status new_status id) (sources db))
                        (source_notes db) (source_entity_links db))
  end.

End Sql.

(** ** Connections (get_db_connection) *)

Record Conn := mkConn {
  committed : Store;   (* what the database file holds *)
  working : Store      (* what the statements of this connection see *)
}.

(** [cursor.execute] of a SELECT, then [fetchall]. *)
Definition fetchall {A} (q : Store -> list A) : M Conn (list A) :=
  fun c => (Ok (q (working c)), c).

(** [cursor.execute] of a SELECT, then [fetchone]. *)
Definition fetchone {A} (q : Store -> list A) : M Conn (option A) :=
  fun c => (Ok (head (q (working c))), c).

(** [cursor.execute] of a SELECT that can fail before its first row, then
    [fetchone]. *)
Definition execute_fetchone {A} (q : Store -> sqlite3_Error + option A)
  : M Conn (option A) :=
  fun c => match q (working c) with
           | inl e => (Raise (SqlError e), c)
           | inr row => (Ok row, c)
           end.

(** [cursor.execute] of a [SELECT COUNT( * ) as count], then
    [fetchone()['count']]. *)
Definition fetch_count (q : Store -> nat) : M Conn nat :=
  fun c => (Ok (q (working c)), c).

(** [cursor.execute] of an INSERT. *)
Definition execute (stmt : Store -> sqlite3_Error + Store) : M Conn unit :=
  fun c => match stmt (working c) with
           | inl e => (Raise (SqlError e), c)
           | inr db' => (Ok tt, mkConn (committed c) db')
           end.

(** [cursor.execute] of an UPDATE, giving [cursor.rowcount]. *)
Definition execute_rowcount (stmt : Store -> sqlite3_Error + (nat * Store))
  : M Conn nat :=
  fun c => match stmt (working c) with
           | inl e => (Raise (SqlError e), c)
           | inr (n, db') => (Ok n, mkConn (committed c) db')
           end.

(** [conn.commit()] *)
Definition commit : M Conn unit :=
  fun c => (Ok tt, mkConn (working c) (working c)).

(** [with get_db_connection(self.db_path) as conn: body]: the connection
    starts on the file's content and is closed on every exit path; what was
    not committed is gone. *)
Definition with_connection {A} (body : M Conn A) : M Store A :=
  fun db => let '(r, c) := body (mkConn db db) in (r, committed c).

(** ** ORDER BY ... DESC, LIMIT, GROUP BY *)

Module Order.

(** Place [x] after the elements with a larger key and before the first
    element whose key is not larger. *)
Fixpoint insert_desc {A} (key : A -> Z) (x : A) (l : list A) : list A :=
  match l with
  | [] => [x]
  | y :: l' => if key x <? key y then y :: insert_desc key x l'
               else x :: y :: l'
  end.

(** Sort by decreasing key; elements with equal keys keep their order.
    This is [list.sort(key=..., reverse=True)] of Python (stable), and one
    of the row orders [ORDER BY key DESC] allows (SQL leaves the order of
    equal keys to the engine). *)
Definition sort_desc {A} (key : A -> Z) (l : list A) : list A :=
  foldr (insert_desc key) [] l.

(** [LIMIT n]: a negative [n] means no upper bound. *)
Definition sql_limit {A} (n : Z) (l : list A) : list A :=
  if n <? 0 then l else take (Z.to_nat n) l.

(** [SELECT k, COUNT( * ) FROM ... GROUP BY k]: one row per distinct value,
    with the number of rows that have it. *)
Definition group_count (ks : list string) : list (string * nat) :=
  map (fun k => (k, count_occ string_dec ks k)) (remove_dups ks).

End Order.

(** ** database.py: class LiteratureDatabase *)

(** The dict returned by [find_source_by_identifier]. *)
Record SourceInfo := mkSourceInfo {
  info_id : string;
  info_title : string;
  info_type : string;
  info_identifiers : gmap string string;
  info_status : string
}.

(** The dicts of [get_source_by_id]. *)
Record NoteView := mkNoteView {
  nv_title : string;
  nv_content : string;
  nv_created_at : Z
}.

Record LinkView := mkLinkView {
  lv_entity_name : string;
  lv_relation_type : string;
  lv_notes : option string;
  lv_created_at : Z
}.

Record SourceDetail := mkSourceDetail {
  sd_id : string;
  sd_title : string;
  sd_type : string;
  sd_identifiers : gmap string string;
  sd_status : string;
  sd_created_at : Z;
  sd_notes : list NoteView;
  sd_entity_links : list LinkView
}.

(** The dicts of [list_sources], which the title search consumes. *)
Record SourceSummary := mkSourceSummary {
  sum_id : string;
  sum_title : string;
  sum_type : string;
  sum_status : string;
  sum_created_at : Z
}.

(** The dict of [get_database_stats]. *)
Record Stats := mkStats {
  sources_by_type : gmap string nat;
  sources_by_status : gmap string nat;
  total_sources : nat;
  total_notes : nat;
  total_entity_links : nat
}.

(** A condition of the WHERE clause [list_sources] assembles. *)
Inductive Condition :=
  | Type_eq (v : string)      (* "type = ?" *)
  | Status_eq (v : string).   (* "status = ?" *)

Definition holds (r : SourceRow) (c : Condition) : bool :=
  match c with
  | Type_eq v => bool_decide (src_type r = v)
  | Status_eq v => bool_decide (src_status r = v)
  end.

(** [SELECT ... FROM sources [WHERE c1 AND c2] ORDER BY created_at DESC LIMIT ?] *)
Definition select_sources_where (conditions : list Condition) (limit : Z)
    (db : Store) : list SourceRow :=
  Order.sql_limit limit
    (Order.sort_desc src_created_at
       (List.filter (fun r => forallb (holds r) conditions) (sources db))).

(** Binding a Python [int] as an SQL parameter: it has to fit 64 bits. *)
Definition bind_int {St} (n : Z) : M St Z :=
  if (n <? - 2 ^ 63) || (2 ^ 63 <=? n) then raise OverflowError else ret n.

(** Python truthiness of an [Optional[str]] argument: [None] and [""] are false. *)
Definition truthy (a : option string) : bool :=
  match a with
  | None => false
  | Some s => negb (bool_decide (s = ""))
  end.

Definition DEFAULT_LIMIT : Z := 50.

(** The projection [list_sources] returns for a row. *)
Definition to_summary (row : SourceRow) : SourceSummary :=
  mkSourceSummary (src_id row) (src_title row) (src_type row) (src_status row)
                  (src_created_at row).

Module LiteratureDatabase.

Definition find_source_by_identifier
    (identifier_type identifier_value source_type : string)
    : M Store (option SourceInfo) :=
  with_connection (
    row <- execute_fetchone (Sql.select_first_source_by_identifier
                               source_type identifier_type identifier_value) ;;
    match row with
    | Some row =>
        ret (Some (mkSourceInfo (src_id row) (src_title row) (src_type row)
                                (src_identifiers row) (src_status row)))
    | None => ret None
    end).

Definition add_source (title source_type identifier_type identifier_value : string)
    (uuid : string) (now : Z) : M Store string :=
  if negb (validate_source_type source_type)
  then raise (DbError (Invalid_source_type source_type))
  else if negb (validate_identifier_type identifier_type)
  then raise (DbError (Invalid_identifier_type identifier_type))
  else
    existing <- find_source_by_identifier identifier_type identifier_value
                                          source_type ;;
    match existing with
    | Some existing =>
        raise (DbError (Source_already_exists (info_id existing)))
    | None =>
        let source_id := uuid in
        let identifiers : gmap string string :=
          {[ identifier_type := identifier_value ]} in
        with_connection (
          try_except_sqlite3
            (execute (Sql.insert_into_sources source_id title source_type
                                              identifiers now) ;;;
             commit ;;;
             ret source_id)
            (fun e => raise (DbError (Failed_to_add_source e))))
    end.

Definition get_source_by_id (source_id : string)
    : M Store (option SourceDetail) :=
  with_connection (
    source_row <- fetchone (Sql.select_sources_by_id source_id) ;;
    match source_row with
    | None => ret None
    | Some source_row =>
        notes <- fetchall (fun db =>
                   Order.sort_desc note_created_at
                     (Sql.select_notes_by_source source_id db)) ;;
        links <- fetchall (Sql.select_links_by_source source_id) ;;
        ret (Some (mkSourceDetail
               (src_id source_row) (src_title source_row) (src_type source_row)
               (src_identifiers source_row) (src_status source_row)
               (src_created_at source_row)
               (map (fun row => mkNoteView (note_title row) (note_content row)
                                           (note_created_at row)) notes)
               (map (fun row => mkLinkView (link_entity_name row)
                                           (link_relation_type row)
                                           (link_notes row)
                                           (link_created_at row)) links)))
    end).

Definition add_note (source_id note_title content : string) (now : Z)
    : M Store bool :=
  with_connection (
    found <- fetchone (Sql.select_sources_by_id source_id) ;;
    match found with
    | None => raise (DbError (Source_not_found source_id))
    | Some _ =>
        dup <- fetchone (Sql.select_notes_by_key source_id note_title) ;;
        match dup with
        | Some _ => raise (DbError (Note_already_exists note_title))
        | None =>
            try_except_sqlite3
              (execute (Sql.insert_into_source_notes source_id note_title
                                                     content now) ;;;
               commit ;;;
               ret true)
              (fun e => raise (DbError (Failed_to_add_note e)))
        end
    end).

Definition update_status (source_id new_status : string) : M Store bool :=
  if negb (validate_status new_status)
  then raise (DbError (Invalid_status new_status))
  else
    with_connection (
      try_except_sqlite3
        (rowcount <- execute_rowcount
                       (Sql.update_sources_status new_status source_id) ;;
         if (rowcount =? 0)%nat
         then raise (DbError (Source_not_found source_id))
         else (commit ;;; ret true))
        (fun e => raise (DbError (Failed_to_update_status e)))).

Definition link_to_entity (source_id entity_name relation_type : string)
    (notes : option string) (now : Z) : M Store bool :=
  if negb (validate_relation_type relation_type)
  then raise (DbError (Invalid_relation_type relation_type))
  else
    with_connection (
      found <- fetchone (Sql.select_sources_by_id source_id) ;;
      match found with
      | None => raise (DbError (Source_not_found source_id))
      | Some _ =>
          dup <- fetchone (Sql.select_links_by_key source_id entity_name) ;;
          match dup with
          | Some _ => raise (DbError (Link_already_exists entity_name))
          | None =>
              try_except_sqlite3
                (execute (Sql.insert_into_source_entity_links
                            source_id entity_name relation_type notes now) ;;;
                 commit ;;;
                 ret true)
                (fun e => raise (DbError (Failed_to_create_entity_link e)))
          end
      end).

(** The two [if <filter>:] blocks, each giving the conditions it appends. *)
Definition type_conditions (source_type : option string)
    : M Store (list Condition) :=
  match source_type with
  | Some t =>
      if truthy source_type
      then if negb (validate_source_type t)
           then raise (DbError (Invalid_source_type t))
           else ret [Type_eq t]
      else ret []
  | None => ret []
  end.

Definition status_conditions (status : option string)
    : M Store (list Condition) :=
  match status with
  | Some s =>
      if truthy status
      then if negb (validate_status s)
           then raise (DbError (Invalid_status s))
           else ret [Status_eq s]
      else ret []
  | None => ret []
  end.

Definition list_sources (source_type status : option string) (limit : Z)
    : M Store (list SourceSummary) :=
  c1 <- type_conditions source_type ;;
  c2 <- status_conditions status ;;
  let conditions := (c1 ++ c2)%list in
  with_connection (
    limit <- bind_int limit ;;
    rows <- fetchall (select_sources_where conditions limit) ;;
    ret (map (fun row => mkSourceSummary (src_id row) (src_title row)
                           (src_type row) (src_status row)
                           (src_created_at row)) rows)).

Definition get_database_stats : M Store Stats :=
  with_connection (
    by_type <- fetchall (fun db =>
                 Order.group_count (map src_type (sources db))) ;;
    by_status <- fetchall (fun db =>
                   Order.group_count (map src_status (sources db))) ;;
    n_sources <- fetch_count (fun db => List.length (sources db)) ;;
    n_notes <- fetch_count (fun db => List.length (source_notes db)) ;;
    n_links <- fetch_count (fun db => List.length (source_entity_links db)) ;;
    ret (mkStats (list_to_map by_type) (list_to_map by_status)
                 n_sources n_notes n_links)).

End LiteratureDatabase.

(** ** utils.py: the title search *)

Module Utils.

(** [str.lower], on ASCII. *)
Definition lower_ascii (c : ascii) : ascii :=
  let n := nat_of_ascii c in
  if ((65 <=? n) && (n <=? 90))%nat then ascii_of_nat (n + 32) else c.

Fixpoint lower (s : string) : string :=
  match s with
  | EmptyString => EmptyString
  | String c s' => String (lower_ascii c) (lower s')
  end.

(** The characters [str.split()] splits on, in ASCII: tab, line feed,
    vertical tab, form feed, carriage return, the four separators
    0x1c-0x1f and the space. *)
Definition is_whitespace (c : ascii) : bool :=
  let n := nat_of_ascii c in
  (((9 <=? n) && (n <=? 13)) || ((28 <=? n) && (n <=? 32)))%nat.

(** [cur] is the word being read, reversed. *)
Fixpoint split_from (cur : string) (s : string) : list string :=
  match s with
  | EmptyString =>
      match cur with EmptyString => [] | _ => [String.rev cur] end
  | String c s' =>
      if is_whitespace c
      then match cur with
           | EmptyString => split_from EmptyString s'
           | _ => String.rev cur :: split_from EmptyString s'
           end
      else split_from (String c cur) s'
  end.

(** [s.split()]: the maximal runs of non-whitespace characters. *)
Definition split (s : string) : list string := split_from EmptyString s.

(** [needle in hay] on strings. *)
Fixpoint contains (needle hay : string) : bool :=
  String.prefix needle hay ||
  match hay with
  | EmptyString => false
  | String _ hay' => contains needle hay'
  end.

(** The score the loop body gives a source, [None] when it appends nothing. *)
Definition score (query_lower : string) (source : SourceSummary) : option Z :=
  let title_lower := lower (sum_title source) in
  if bool_decide (query_lower = title_lower) then Some 100
  else if contains query_lower title_lower then Some 50
  else if existsb (fun word => contains word title_lower) (split query_lower)
  then Some 25
  else None.

Fixpoint collect_matches (query_lower : string) (sources : list SourceSummary)
    : list (SourceSummary * Z) :=
  match sources with
  | [] => []
  | source :: rest =>
      match score query_lower source with
      | Some w => (source, w) :: collect_matches query_lower rest
      | None => collect_matches query_lower rest
      end
  end.

Definition search_sources_by_title (sources : list SourceSummary) (query : string)
    : list SourceSummary :=
  let query_lower := lower query in
  let matches := collect_matches query_lower sources in
  let matches := Order.sort_desc snd matches in
  map fst matches.

End Utils.

(** ** Vocabulary of the statements *)

(** A call of one of the four mutating operations, with the identifier and
    the clock reading it draws. *)
Inductive Call :=
  | Add_source (title source_type identifier_type identifier_value uuid : string)
               (now : Z)
  | Add_note (source_id note_title content : string) (now : Z)
  | Update_status (source_id new_status : string)
  | Link_to_entity (source_id entity_name relation_type : string)
                   (notes : option string) (now : Z).

Definition void {St A} (m : M St A) : M St unit := _ <- m ;; ret tt.

Definition run (c : Call) : M Store unit :=
  match c with
  | Add_source title ty it iv uuid now =>
      void (LiteratureDatabase.add_source title ty it iv uuid now)
  | Add_note id title content now =>
      void (LiteratureDatabase.add_note id title content now)
  | Update_status id st => void (LiteratureDatabase.update_status id st)
  | Link_to_entity id name rel notes now =>
      void (LiteratureDatabase.link_to_entity id name rel notes now)
  end.

Definition succeeded {A} (r : Result A) : bool :=
  match r with Ok _ => true | Raise _ => false end.

(** The store after a sequence of calls, whatever each of them answered. *)
Fixpoint replay (cs : list Call) (db : Store) : Store :=
  match cs with
  | [] => db
  | c :: cs' => replay cs' (snd (run c db))
  end.

(** How many calls of a given kind succeeded along the sequence. *)
Fixpoint count_ok (kind : Call -> bool) (cs : list Call) (db : Store) : nat :=
  match cs with
  | [] => 0%nat
  | c :: cs' =>
      ((if kind c && succeeded (fst (run c db)) then 1 else 0)
       + count_ok kind cs' (snd (run c db)))%nat
  end.

Definition is_add_source (c : Call) : bool :=
  match c with Add_source _ _ _ _ _ _ => true | _ => false end.
Definition is_add_note (c : Call) : bool :=
  match c with Add_note _ _ _ _ => true | _ => false end.
Definition is_link_to_entity (c : Call) : bool :=
  match c with Link_to_entity _ _ _ _ _ => true | _ => false end.

Definition reachable (db : Store) : Prop :=
  exists cs, db = replay cs empty_store.

(** A row of [sources] has this id. *)
Definition source_exists (id : string) (db : Store) : bool :=
  existsb (fun r => bool_decide (src_id r = id)) (sources db).

(** Referential integrity: every note and every link belongs to a source of
    the store. *)
Definition store_inv (db : Store) : Prop :=
  forallb (fun n => source_exists (note_source_id n) db) (source_notes db) = true /\
  forallb (fun l => source_exists (link_source_id l) db) (source_entity_links db)
    = true.

(** [sum(d.values())] *)
Definition dict_sum (d : gmap string nat) : nat :=
  sum_list (map snd (map_to_list d)).

(** The filter arguments of [list_sources] as a predicate on rows; an
    argument that is [None] or empty constrains nothing. *)
Definition passes (a : option string) (field : string) : bool :=
  match a with
  | Some v => if truthy a then bool_decide (field = v) else true
  | None => true
  end.

Definition matches_filters (source_type status : option string) (r : SourceRow)
  : bool :=
  passes source_type (src_type r) && passes status (src_status r).

(** The three tiers of the title search, for a lowercased query. *)
Definition exact_match (q : string) (s : SourceSummary) : bool :=
  bool_decide (Utils.lower (sum_title s) = q).

Definition substring_match (q : string) (s : SourceSummary) : bool :=
  Utils.contains q (Utils.lower (sum_title s)).

Definition word_match (q : string) (s : SourceSummary) : bool :=
  existsb (fun word => Utils.contains word (Utils.lower (sum_title s)))
          (Utils.split q).

Definition has_empty_title (s : SourceSummary) : bool :=
  bool_decide (sum_title s = "").

(** Ordering vocabulary: [x] may come before [y] in a decreasing sort, and
    the elements with a given key. *)
Definition key_ge {A} (key : A -> Z) (x y : A) : Prop := key y <= key x.

Definition has_key {A} (key : A -> Z) (k : Z) (x : A) : bool :=
  bool_decide (key x = k).

(** The full effect of each successful mutation. *)
Definition with_source (db : Store) (r : SourceRow) : Store :=
  mkStore (sources db ++ [r]) (source_notes db) (source_entity_links db).

Definition with_note (db : Store) (n : NoteRow) : Store :=
  mkStore (sources db) (source_notes db ++ [n]) (source_entity_links db).

Definition with_link (db : Store) (l : LinkRow) : Store :=
  mkStore (sources db) (source_notes db) (source_entity_links db ++ [l]).

Definition with_status (db : Store) (id new_status : string) : Store :=
  mkStore (map (Sql.set_status new_status id) (sources db))
          (source_notes db) (source_entity_links db).

(** The store a call leaves when it succeeds. *)
Definition effect (c : Call) (db : Store) : Store :=
  match c with
  | Add_source title ty it iv uuid now =>
      with_source db (mkSourceRow uuid title ty {[ it := iv ]} "unread" now)
  | Add_note id title content now =>
      with_note db (mkNoteRow id title content now)
  | Update_status id st => with_status db id st
  | Link_to_entity id name rel notes now =>
      with_link db (mkLinkRow id name rel notes now)
  end.

(** The dict [get_source_by_id] builds for a row it found. *)
Definition detail_of (row : SourceRow) (db : Store) : SourceDetail :=
  mkSourceDetail (src_id row) (src_title row) (src_type row)
    (src_identifiers row) (src_status row) (src_created_at row)
    (map (fun n => mkNoteView (note_title n) (note_content n) (note_created_at n))
       (Order.sort_desc note_created_at (Sql.select_notes_by_source (src_id row) db)))
    (map (fun l => mkLinkView (link_entity_name l) (link_relation_type l)
                     (link_notes l) (link_created_at l))
       (Sql.select_links_by_source (src_id row) db)).

(** The ids of a listing, [None] when the call raised. *)
Definition listed_ids (r : Result (list SourceSummary) * Store) : option (list string) :=
  match fst r with
  | Ok l => Some (map sum_id l)
  | Raise _ => None
  end.

(** Stores used by the examples. *)
Definition example_store : Store :=
  replay [ Add_source "Attention Is All You Need" "paper" "arxiv" "1706.03762"
                      "id-1" 10;
           Add_source "Deep Learning" "book" "isbn" "978-0262035613" "id-2" 20;
           Add_note "id-1" "Summary" "Transformers" 30;
           Link_to_entity "id-1" "transformer architecture" "introduces" None 40;
           Update_status "id-2" "completed" ]
         empty_store.

(** ** Vocabulary of the further statements *)

(** The primary keys of the two dependent tables. *)
(** A character [json.dumps] writes as it is: printable ASCII other than the
    double quote and the backslash. *)
Definition plain_char (c : ascii) : bool :=
  (32 <=? N_of_ascii c)%N && (N_of_ascii c <=? 126)%N &&
  negb (bool_decide (c = Json.quote)) && negb (bool_decide (c = Json.backslash)).

Fixpoint plain (s : string) : bool :=
  match s with
  | EmptyString => true
  | String c s' => plain_char c && plain s'
  end.

(** No character of the text is U+0000. *)
Definition nul_free (s : string) : Prop := Json.cut_at_nul s = s.

(** No identifier value of the row contains U+0000. *)
Definition nul_free_row (r : SourceRow) : bool :=
  bool_decide (map_Forall (fun _ v => nul_free v) (src_identifiers r)).

(** An identifier value with U+0000 inside. *)
Definition value_with_nul : string := "a" ++ String Ascii.zero "b".

Definition note_key (n : NoteRow) : string * string :=
  (note_source_id n, note_title n).

Definition link_key (l : LinkRow) : string * string :=
  (link_source_id l, link_entity_name l).

(** A source row with values of the vocabularies and one identifier. *)
Definition source_row_ok (r : SourceRow) : Prop :=
  validate_source_type (src_type r) = true /\
  validate_status (src_status r) = true /\
  exists it iv, validate_identifier_type it = true /\
                src_identifiers r = {[ it := iv ]}.

(** The columns of a source that no statement of the access layer updates. *)
Definition fixed_columns (r : SourceRow)
  : string * string * string * gmap string string * Z :=
  (src_id r, src_title r, src_type r, src_identifiers r, src_created_at r).

(** The dict [find_source_by_identifier] builds for a row it found. *)
Definition info_of (row : SourceRow) : SourceInfo :=
  mkSourceInfo (src_id row) (src_title row) (src_type row) (src_identifiers row)
               (src_status row).

(** ** utils.py: the remaining helpers *)

Module Helpers.

(** [str.upper], on ASCII. *)
Definition upper_ascii (c : ascii) : ascii :=
  let n := nat_of_ascii c in
  if ((97 <=? n) && (n <=? 122))%nat then ascii_of_nat (n - 32) else c.

Fixpoint upper (s : string) : string :=
  match s with
  | EmptyString => EmptyString
  | String c s' => String (upper_ascii c) (upper s')
  end.

(** [\d], on ASCII. *)
Definition is_digit (c : ascii) : bool :=
  let n := nat_of_ascii c in ((48 <=? n) && (n <=? 57))%nat.

(** The characters [re.sub(r'[^\dX]', '', ...)] keeps. *)
Definition isbn_char (c : ascii) : bool :=
  is_digit c || bool_decide (c = "X"%char).

Fixpoint keep (p : ascii -> bool) (s : string) : string :=
  match s with
  | EmptyString => EmptyString
  | String c s' => if p c then String c (keep p s') else keep p s'
  end.

Definition extract_isbn (text : string) : option string :=
  let cleaned := keep isbn_char (upper text) in
  if (String.length cleaned =? 13)%nat &&
     (String.prefix "978" cleaned || String.prefix "979" cleaned)
  then Some cleaned
  else if (String.length cleaned =? 10)%nat then Some cleaned
  else None.

(** The dict of [guess_source_type]. *)
Definition identifier_mapping : gmap string string :=
  <[ "arxiv" := "paper" ]>
  (<[ "doi" := "paper" ]>
  (<[ "semantic_scholar" := "paper" ]>
  (<[ "isbn" := "book" ]>
  (<[ "url" := "webpage" ]> ∅)))).

(** [any(word in title_lower for word in words)] *)
Definition any_in (words : list string) (title_lower : string) : bool :=
  existsb (fun word => Utils.contains word title_lower) words.

Definition guess_source_type (title identifier_type identifier_value : string)
  : string :=
  match identifier_mapping !! identifier_type with
  | Some source_type => source_type
  | None =>
      let title_lower := Utils.lower title in
      if any_in ["paper"; "article"; "journal"; "conference"] title_lower
      then "paper"
      else if any_in ["book"; "textbook"; "handbook"] title_lower then "book"
      else if any_in ["video"; "lecture"; "tutorial"] title_lower then "video"
      else if any_in ["blog"; "post"] title_lower then "blog"
      else "webpage"
  end.

End Helpers.

(** ** Regular expressions, for validate_url *)

(** [re.compile(p).match(s) is not None] for a pattern closed by [$] asks
    whether [s], or [s] without a final line feed, belongs to the language of
    the pattern; the order in which Python tries the alternatives does not
    matter for that.  The language is decided with derivatives. *)

Module Regex.

Inductive re :=
  | Void                         (* matches nothing *)
  | Eps                          (* the empty string *)
  | Sym (p : ascii -> bool)      (* one character of a class *)
  | Seq (r1 r2 : re)             (* r1 r2 *)
  | Alt (r1 r2 : re)             (* r1|r2 *)
  | Star (r : re).               (* r* *)

Inductive lang : re -> list ascii -> Prop :=
  | lang_eps : lang Eps []
  | lang_sym p c : p c = true -> lang (Sym p) [c]
  | lang_seq r1 r2 s1 s2 :
      lang r1 s1 -> lang r2 s2 -> lang (Seq r1 r2) (s1 ++ s2)
  | lang_alt_l r1 r2 s : lang r1 s -> lang (Alt r1 r2) s
  | lang_alt_r r1 r2 s : lang r2 s -> lang (Alt r1 r2) s
  | lang_star_nil r : lang (Star r) []
  | lang_star_cons r s1 s2 :
      lang r s1 -> lang (Star r) s2 -> lang (Star r) (s1 ++ s2).

Fixpoint nullable (r : re) : bool :=
  match r with
  | Void => false
  | Eps => true
  | Sym _ => false
  | Seq r1 r2 => nullable r1 && nullable r2
  | Alt r1 r2 => nullable r1 || nullable r2
  | Star _ => true
  end.

(** Sequence and choice that drop what cannot match. *)
Definition seq (r1 r2 : re) : re :=
  match r1 with
  | Void => Void
  | _ => Seq r1 r2
  end.

Definition alt (r1 r2 : re) : re :=
  match r1, r2 with
  | Void, _ => r2
  | _, Void => r1
  | _, _ => Alt r1 r2
  end.

Fixpoint deriv (c : ascii) (r : re) : re :=
  match r with
  | Void => Void
  | Eps => Void
  | Sym p => if p c then Eps else Void
  | Seq r1 r2 =>
      alt (seq (deriv c r1) r2) (if nullable r1 then deriv c r2 else Void)
  | Alt r1 r2 => alt (deriv c r1) (deriv c r2)
  | Star r1 => seq (deriv c r1) (Star r1)
  end.

Fixpoint matches (r : re) (s : list ascii) : bool :=
  match s with
  | [] => nullable r
  | c :: s' => matches (deriv c r) s'
  end.

(** [r?], [r+], [r{0,n}], [r{n}], [r{m,n}] *)
Definition opt (r : re) : re := Alt r Eps.
Definition plus (r : re) : re := Seq r (Star r).

Fixpoint upto (n : nat) (r : re) : re :=
  match n with
  | O => Eps
  | S n' => opt (Seq r (upto n' r))
  end.

Fixpoint times (n : nat) (r : re) : re :=
  match n with
  | O => Eps
  | S n' => Seq r (times n' r)
  end.

Definition between (m n : nat) (r : re) : re := Seq (times m r) (upto (n - m) r).

(** One literal character, and a literal string, under [re.IGNORECASE]. *)
Definition chr_ci (x : ascii) : re :=
  Sym (fun c => bool_decide (Utils.lower_ascii c = Utils.lower_ascii x)).

Fixpoint lit_ci (w : string) : re :=
  match w with
  | EmptyString => Eps
  | String x w' => Seq (chr_ci x) (lit_ci w')
  end.

(** Every class of the expression satisfies [q], checked on all characters. *)
Definition all_ascii (f : ascii -> bool) : bool :=
  forallb (fun n => f (ascii_of_nat n)) (List.seq 0 256).

Fixpoint classes_within (q : ascii -> bool) (r : re) : bool :=
  match r with
  | Void | Eps => true
  | Sym p => all_ascii (fun c => implb (p c) (q c))
  | Seq r1 r2 | Alt r1 r2 => classes_within q r1 && classes_within q r2
  | Star r1 => classes_within q r1
  end.

End Regex.

Module Url.
Import Regex.

(** [[A-Z]], [[A-Z0-9]], [[A-Z0-9-]] under [re.IGNORECASE]; [\d]; [\S]. *)
Definition is_alpha (c : ascii) : bool :=
  let n := nat_of_ascii (Utils.lower_ascii c) in ((97 <=? n) && (n <=? 122))%nat.

Definition is_alnum (c : ascii) : bool := is_alpha c || Helpers.is_digit c.

Definition is_alnum_hyphen (c : ascii) : bool :=
  is_alnum c || bool_decide (c = "-"%char).

Definition non_space (c : ascii) : bool := negb (Utils.is_whitespace c).

Definition alpha := Sym is_alpha.
Definition alnum := Sym is_alnum.
Definition digit := Sym Helpers.is_digit.
Definition dot := chr_ci ".".

(** [https?://] *)
Definition scheme : re :=
  Seq (lit_ci "http") (Seq (opt (chr_ci "s")) (lit_ci "://")).

(** [[A-Z0-9](?:[A-Z0-9-]{0,61}[A-Z0-9])?] *)
Definition label : re :=
  Seq alnum (opt (Seq (upto 61 (Sym is_alnum_hyphen)) alnum)).

(** [(?:label\.)+[A-Z]{2,6}\.?] *)
Definition domain : re :=
  Seq (plus (Seq label dot)) (Seq (between 2 6 alpha) (opt dot)).

(** [\d{1,3}\.\d{1,3}\.\d{1,3}\.\d{1,3}] *)
Definition octet : re := between 1 3 digit.
Definition ip : re :=
  Seq octet (Seq dot (Seq octet (Seq dot (Seq octet (Seq dot octet))))).

Definition host : re := Alt domain (Alt (lit_ci "localhost") ip).

(** [(?::\d+)?] *)
Definition port : re := opt (Seq (chr_ci ":") (plus digit)).

(** [(?:/?|[/?]\S+)] *)
Definition tail : re :=
  Alt (opt (chr_ci "/"))
      (Seq (Sym (fun c => bool_decide (c = "/"%char) || bool_decide (c = "?"%char)))
           (plus (Sym non_space))).

Definition url_pattern : re := Seq scheme (Seq host (Seq port tail)).

(** The string without its final line feed, if it ends with one. *)
Definition chop_newline (s : list ascii) : option (list ascii) :=
  match rev s with
  | c :: r => if bool_decide (c = ascii_of_nat 10) then Some (rev r) else None
  | [] => None
  end.

(** [url_pattern.match(url) is not None]: the final [$] also matches just
    before a line feed that ends the string. *)
Definition validate_url (url : string) : bool :=
  let s := list_ascii_of_string url in
  matches url_pattern s ||
  match chop_newline s with
  | Some s' => matches url_pattern s'
  | None => false
  end.

End Url.

(** ** utils.py: validate_input_data, on a field bag with text values *)

Module Validation.

Definition required_fields : list string :=
  ["title"; "source_type"; "identifier_type"; "identifier_value"].

(** [field not in data or not data[field]] *)
Definition missing (data : gmap string string) (field : string) : bool :=
  match data !! field with
  | Some v => bool_decide (v = "")
  | None => true
  end.

Definition validate_input_data (data : gmap string string) : list string :=
  let errors :=
    flat_map (fun field =>
                if missing data field
                then ["Missing required field: " ++ field]
                else [])
             required_fields in
  let errors :=
    (errors ++
     match data !! "source_type" with
     | Some v => if bool_decide (v ∈ VALID_SOURCE_TYPES) then []
                 else [("Invalid source type: " ++ v)%string]
     | None => []
     end)%list in
  let errors :=
    (errors ++
     match data !! "identifier_type" with
     | Some v => if bool_decide (v ∈ VALID_IDENTIFIER_TYPES) then []
                 else [("Invalid identifier type: " ++ v)%string]
     | None => []
     end)%list in
  let errors :=
    (errors ++
     if bool_decide (data !! "identifier_type" = Some "url") &&
        negb (missing data "identifier_value") &&
        negb (Url.validate_url (default "" (data !! "identifier_value")))
     then ["Invalid URL format"]
     else [])%list in
  errors.

(** The dict tools.add_source passes to [validate_input_data]. *)
Definition input_data (title source_type identifier_type identifier_value : string)
  : gmap string string :=
  <[ "title" := title ]>
  (<[ "source_type" := source_type ]>
  (<[ "identifier_type" := identifier_type ]>
  (<[ "identifier_value" := identifier_value ]> ∅))).

End Validation.

(** ** utils.py: clean_title *)

Module Title.

(** [str.strip()] *)
Fixpoint lstrip (s : string) : string :=
  match s with
  | EmptyString => EmptyString
  | String c s' => if Utils.is_whitespace c then lstrip s' else s
  end.

Fixpoint rstrip (s : string) : string :=
  match s with
  | EmptyString => EmptyString
  | String c s' =>
      match rstrip s' with
      | EmptyString =>
          if Utils.is_whitespace c then EmptyString else String c EmptyString
      | r => String c r
      end
  end.

Definition strip (s : string) : string := rstrip (lstrip s).

(** [re.sub(r'\s+', ' ', s)]: every maximal run of whitespace becomes one
    space; [in_run] says that the previous character was whitespace. *)
Fixpoint collapse (in_run : bool) (s : string) : string :=
  match s with
  | EmptyString => EmptyString
  | String c s' =>
      if Utils.is_whitespace c
      then if in_run then collapse true s' else String " " (collapse true s')
      else String c (collapse false s')
  end.

Definition sub_whitespace (s : string) : string := collapse false s.

(** What follows [w] at the start of [s], compared without case. *)
Fixpoint after_prefix_ci (w s : string) : option string :=
  match w, s with
  | EmptyString, _ => Some s
  | String x w', String c s' =>
      if bool_decide (Utils.lower_ascii c = Utils.lower_ascii x)
      then after_prefix_ci w' s' else None
  | String _ _, EmptyString => None
  end.

(** What follows a match of [w\s+] at the start of [s]. *)
Definition after_word (w s : string) : option string :=
  match after_prefix_ci w s with
  | Some (String c rest) =>
      if Utils.is_whitespace c then Some (lstrip rest) else None
  | _ => None
  end.

(** [re.sub(r'^(A|An|The)\s+', '', s, flags=re.IGNORECASE)]: the
    alternatives are tried in their order. *)
Definition sub_leading_article (s : string) : string :=
  match after_word "A" s with
  | Some rest => rest
  | None =>
      match after_word "An" s with
      | Some rest => rest
      | None =>
          match after_word "The" s with
          | Some rest => rest
          | None => s
          end
      end
  end.

Definition clean_title (title : string) : string :=
  let title := sub_whitespace (strip title) in
  let title := sub_leading_article title in
  title.

End Title.

(** The string starts with a whitespace character; it has none at all. *)
Definition leading_whitespace (s : string) : bool :=
  match s with
  | EmptyString => false
  | String c _ => Utils.is_whitespace c
  end.

Fixpoint no_whitespace (s : string) : bool :=
  match s with
  | EmptyString => true
  | String c s' => negb (Utils.is_whitespace c) && no_whitespace s'
  end.

(** ** cli.py: the search of the command line *)

Module Cli.

(** The list [matches] that [cmd_search_sources] builds from the listing
    before printing it. *)
Definition search_matches (all_sources : list SourceSummary) (query : string)
  : list SourceSummary :=
  let query_lower := Utils.lower query in
  List.filter (fun source =>
                 Utils.contains query_lower (Utils.lower (sum_title source)))
              all_sources.

End Cli.


(** * Proofs *)

Import LiteratureDatabase.

(** ** The operations, with the monad unfolded *)

Ltac unfold_db :=
  unfold with_connection, try_except_sqlite3, bind, ret, raise, fetchone,
    execute_fetchone, fetchall, fetch_count, execute, execute_rowcount, commit,
    void; simpl.

(** ** The identifiers column *)

Lemma cut_at_nul_idemp s : Json.cut_at_nul (Json.cut_at_nul s) = Json.cut_at_nul s.
Proof.
  induction s as [|c s IH]; simpl; [reflexivity|].
  case_bool_decide as E; simpl; [reflexivity|].
  rewrite bool_decide_eq_false_2 by exact E. rewrite IH. reflexivity.
Qed.

Lemma escape_ascii_cases c :
  (N_of_ascii c <? 128)%N = true ->
  if plain_char c then Json.escape_ascii c = String c EmptyString
  else exists t, Json.escape_ascii c = String Json.backslash t.
Proof.
  destruct c as [[] [] [] [] [] [] [] []]; intros H; vm_compute in H;
    try discriminate H; vm_compute; first [reflexivity | eexists; reflexivity].
Qed.

Lemma plain_char_ascii c : plain_char c = true -> (N_of_ascii c <? 128)%N = true.
Proof.
  destruct c as [[] [] [] [] [] [] [] []]; vm_compute; intros H;
    first [reflexivity | discriminate H].
Qed.

Lemma escape_wide_backslash v : exists t, Json.escape_wide v = String Json.backslash t.
Proof.
  unfold Json.escape_wide, Json.u_escape.
  destruct (v <? 65536)%N; simpl; eexists; reflexivity.
Qed.

(** What [json.dumps] writes for a non-empty text starts with its first
    character, when that is a plain one, and with a backslash otherwise. *)
Lemma escape_head c k :
  (plain_char c = true /\
   Json.escape (String c k) = String c (Json.escape k)) \/
  (plain_char c = false /\
   exists t, Json.escape (String c k) = String Json.backslash t).
Proof.
  cbn [Json.escape].
  destruct (N_of_ascii c <? 128)%N eqn:Hascii.
  - pose proof (escape_ascii_cases c Hascii) as H.
    destruct (plain_char c).
    + left. rewrite H. split; reflexivity.
    + right. destruct H as [t ->]. split; [reflexivity|]. simpl. eexists. reflexivity.
  - right. split.
    { destruct (plain_char c) eqn:E; [|reflexivity].
      apply plain_char_ascii in E. congruence. }
    destruct (N_of_ascii c <? 224)%N.
    { destruct k as [|c2 k2].
      - apply escape_wide_backslash.
      - destruct (escape_wide_backslash
                    (N_of_ascii c mod 32 * 64 + Json.continuation c2)) as [t ->].
        simpl. eexists. reflexivity. }
    destruct (N_of_ascii c <? 240)%N.
    { destruct k as [|c2 [|c3 k3]]; try apply escape_wide_backslash.
      destruct (escape_wide_backslash
                  (N_of_ascii c mod 16 * 4096 + Json.continuation c2 * 64 +
                   Json.continuation c3)) as [t ->].
      simpl. eexists. reflexivity. }
    destruct k as [|c2 [|c3 [|c4 k4]]]; try apply escape_wide_backslash.
    destruct (escape_wide_backslash
                (N_of_ascii c mod 8 * 262144 + Json.continuation c2 * 4096 +
                 Json.continuation c3 * 64 + Json.continuation c4)) as [t ->].
    simpl. eexists. reflexivity.
Qed.

Lemma plain_no_backslash t : plain (String Json.backslash t) = false.
Proof. reflexivity. Qed.

(** A plain text is written as it is, and only by itself. *)
Lemma escape_plain s : plain s = true -> Json.escape s = s.
Proof.
  induction s as [|c s IH]; [reflexivity|].
  cbn [plain]. intros [Hc Hs]%andb_true_iff.
  destruct (escape_head c s) as [[_ ->]|[Hn _]]; [|congruence].
  rewrite IH by exact Hs. reflexivity.
Qed.

Lemma escape_eq_plain k s : plain s = true -> Json.escape k = s -> k = s.
Proof.
  revert s. induction k as [|c k IH]; intros s Hs H.
  - exact H.
  - destruct (escape_head c k) as [[Hc E]|[_ [t E]]]; rewrite E in H; subst s.
    + cbn [plain] in Hs. apply andb_true_iff in Hs as [_ Hs].
      f_equal. apply IH; [exact Hs | reflexivity].
    + rewrite plain_no_backslash in Hs. discriminate.
Qed.

Lemma member_singleton k v key :
  Json.member {[ k := v ]} key =
  if bool_decide (Json.escape k = key) then Some v else None.
Proof.
  unfold Json.member. rewrite map_to_list_singleton. simpl.
  destruct (bool_decide (Json.escape k = key)); reflexivity.
Qed.

(** Under a plain key the path step is the lookup of the dict. *)
Lemma member_plain obj key :
  plain key = true -> Json.member obj key = obj !! key.
Proof.
  intros Hkey. unfold Json.member.
  destruct (head _) as [[k v]|] eqn:H; simpl.
  - apply head_Some_elem_of, list_elem_of_In, List.filter_In in H as [Hin Hk].
    apply list_elem_of_In, elem_of_map_to_list in Hin.
    apply bool_decide_eq_true in Hk. simpl in Hk.
    apply (escape_eq_plain _ _ Hkey) in Hk. subst k. symmetry. exact Hin.
  - destruct (obj !! key) as [v|] eqn:E; [|reflexivity].
    apply elem_of_map_to_list, list_elem_of_In in E.
    assert (Hin : In (key, v)
                    (List.filter (fun kv => bool_decide (Json.escape kv.1 = key))
                                 (map_to_list obj))).
    { apply List.filter_In. split; [exact E|].
      apply bool_decide_eq_true. simpl. apply escape_plain, Hkey. }
    destruct (List.filter _ _); [destruct Hin | discriminate].
Qed.

(** The identifier types of the vocabulary are plain keys, and the path made
    of one is that key alone. *)
Lemma vocabulary_path it :
  it ∈ VALID_IDENTIFIER_TYPES ->
  plain it = true /\ Json.path_key (Json.cut_at_nul it) = inr (it, EmptyString).
Proof.
  unfold VALID_IDENTIFIER_TYPES. intros H.
  repeat (apply elem_of_union in H as [H|H]);
    apply elem_of_singleton in H; subst it; split; reflexivity.
Qed.

Lemma json_extract_vocabulary obj it :
  it ∈ VALID_IDENTIFIER_TYPES ->
  Sql.json_extract obj it = inr (Json.cut_at_nul <$> obj !! it).
Proof.
  intros [Hplain Hpath]%vocabulary_path.
  unfold Sql.json_extract, Json.lookup. rewrite Hpath, (member_plain _ _ Hplain).
  destruct (obj !! it); reflexivity.
Qed.

Lemma has_identity_vocabulary ty it iv r :
  it ∈ VALID_IDENTIFIER_TYPES ->
  Sql.has_identity ty it iv r =
  bool_decide (src_type r = ty) &&
  bool_decide (Json.cut_at_nul <$> src_identifiers r !! it = Some iv).
Proof.
  intros Hit. unfold Sql.has_identity. rewrite (json_extract_vocabulary _ _ Hit).
  f_equal. destruct (src_identifiers r !! it) as [v|]; cbn [fmap option_fmap option_map].
  - apply bool_decide_ext. split; congruence.
  - symmetry. apply bool_decide_eq_false_2. discriminate.
Qed.

(** The text [json_extract] gives never contains U+0000. *)
Lemma json_extract_text_nul_free obj key text :
  Sql.json_extract obj key = inr (Some text) -> nul_free text.
Proof.
  unfold Sql.json_extract. destruct (Json.lookup obj key); intros [= <-].
  apply cut_at_nul_idemp.
Qed.

Lemma has_identity_value_nul_free ty key iv r :
  Sql.has_identity ty key iv r = true -> nul_free iv.
Proof.
  unfold Sql.has_identity. intros [_ H]%andb_true_iff.
  destruct (Sql.json_extract _ key) as [|[text|]] eqn:E; try discriminate.
  apply bool_decide_eq_true in H. subst. eapply json_extract_text_nul_free, E.
Qed.

(** The statement run to its first row: what it gives when it does not fail,
    and why it fails when it does. *)
Lemma first_with_identity_Ok ty key iv rows res :
  Sql.first_with_identity ty key iv rows = inr res ->
  res = head (List.filter (Sql.has_identity ty key iv) rows).
Proof.
  induction rows as [|r rows IH]; simpl; [intros [= <-]; reflexivity|].
  unfold Sql.has_identity at 1.
  destruct (bool_decide (src_type r = ty)); simpl; [|exact IH].
  destruct (Sql.json_extract _ key) as [e|[text|]]; [discriminate| |exact IH].
  destruct (bool_decide (text = iv)); [intros [= <-]; reflexivity | exact IH].
Qed.

Lemma first_with_identity_error ty key iv rows e :
  Sql.first_with_identity ty key iv rows = inl e ->
  exists r, r ∈ rows /\ src_type r = ty /\
            Sql.json_extract (src_identifiers r) key = inl e.
Proof.
  induction rows as [|r rows IH]; simpl; [discriminate|].
  assert (Hrest : Sql.first_with_identity ty key iv rows = inl e ->
                  exists r0, r0 ∈ r :: rows /\ src_type r0 = ty /\
                             Sql.json_extract (src_identifiers r0) key = inl e).
  { intros (r0 & Hin & H)%IH. exists r0. split; [right; exact Hin | exact H]. }
  case_bool_decide as Hty; [|exact Hrest].
  destruct (Sql.json_extract _ key) as [e'|[text|]] eqn:E; [| |exact Hrest].
  - intros [= ->]. exists r. split; [left|split; assumption].
  - destruct (bool_decide (text = iv)); [discriminate | exact Hrest].
Qed.

Lemma first_with_identity_vocabulary ty it iv rows :
  it ∈ VALID_IDENTIFIER_TYPES ->
  Sql.first_with_identity ty it iv rows =
  inr (head (List.filter (Sql.has_identity ty it iv) rows)).
Proof.
  intros Hit.
  destruct (Sql.first_with_identity ty it iv rows) as [e|res] eqn:E.
  - apply first_with_identity_error in E as (r & _ & _ & H).
    rewrite (json_extract_vocabulary _ _ Hit) in H. discriminate.
  - f_equal. eapply first_with_identity_Ok, E.
Qed.

Lemma validate_identifier_type_in it :
  validate_identifier_type it = true -> it ∈ VALID_IDENTIFIER_TYPES.
Proof. apply bool_decide_eq_true. Qed.

Lemma add_source_eq title ty it iv uuid now db :
  add_source title ty it iv uuid now db =
  if negb (validate_source_type ty)
  then (Raise (DbError (Invalid_source_type ty)), db)
  else if negb (validate_identifier_type it)
  then (Raise (DbError (Invalid_identifier_type it)), db)
  else match head (Sql.select_sources_by_identifier ty it iv db) with
       | Some row => (Raise (DbError (Source_already_exists (src_id row))), db)
       | None =>
           match Sql.insert_into_sources uuid title ty {[ it := iv ]} now db with
           | inl e => (Raise (DbError (Failed_to_add_source e)), db)
           | inr db' => (Ok uuid, db')
           end
       end.
Proof.
  unfold add_source, find_source_by_identifier.
  destruct (negb (validate_source_type ty)); [reflexivity|].
  destruct (validate_identifier_type it) eqn:Hit; [|reflexivity].
  apply validate_identifier_type_in in Hit.
  unfold_db. unfold Sql.select_first_source_by_identifier.
  rewrite (first_with_identity_vocabulary _ _ _ _ Hit).
  fold (Sql.select_sources_by_identifier ty it iv db).
  destruct (head _); [reflexivity|].
  destruct (Sql.insert_into_sources _ _ _ _ _ _); reflexivity.
Qed.

Lemma add_note_eq id title content now db :
  add_note id title content now db =
  match head (Sql.select_sources_by_id id db) with
  | None => (Raise (DbError (Source_not_found id)), db)
  | Some _ =>
      match head (Sql.select_notes_by_key id title db) with
      | Some _ => (Raise (DbError (Note_already_exists title)), db)
      | None =>
          match Sql.insert_into_source_notes id title content now db with
          | inl e => (Raise (DbError (Failed_to_add_note e)), db)
          | inr db' => (Ok true, db')
          end
      end
  end.
Proof.
  unfold add_note. unfold_db.
  destruct (head (Sql.select_sources_by_id _ _)); [|reflexivity].
  destruct (head (Sql.select_notes_by_key _ _ _)); [reflexivity|].
  destruct (Sql.insert_into_source_notes _ _ _ _ _); reflexivity.
Qed.

Lemma update_status_eq id st db :
  update_status id st db =
  if negb (validate_status st)
  then (Raise (DbError (Invalid_status st)), db)
  else match Sql.update_sources_status st id db with
       | inl e => (Raise (DbError (Failed_to_update_status e)), db)
       | inr (rowcount, db') =>
           if (rowcount =? 0)%nat
           then (Raise (DbError (Source_not_found id)), db)
           else (Ok true, db')
       end.
Proof.
  unfold update_status.
  destruct (negb (validate_status st)); [reflexivity|].
  unfold_db.
  destruct (Sql.update_sources_status _ _ _) as [e|[n db']]; [reflexivity|].
  simpl. destruct (n =? 0)%nat; reflexivity.
Qed.

Lemma link_to_entity_eq id name rel notes now db :
  link_to_entity id name rel notes now db =
  if negb (validate_relation_type rel)
  then (Raise (DbError (Invalid_relation_type rel)), db)
  else match head (Sql.select_sources_by_id id db) with
       | None => (Raise (DbError (Source_not_found id)), db)
       | Some _ =>
           match head (Sql.select_links_by_key id name db) with
           | Some _ => (Raise (DbError (Link_already_exists name)), db)
           | None =>
               match Sql.insert_into_source_entity_links id name rel notes now db with
               | inl e => (Raise (DbError (Failed_to_create_entity_link e)), db)
               | inr db' => (Ok true, db')
               end
           end
       end.
Proof.
  unfold link_to_entity.
  destruct (negb (validate_relation_type rel)); [reflexivity|].
  unfold_db.
  destruct (head (Sql.select_sources_by_id _ _)); [|reflexivity].
  destruct (head (Sql.select_links_by_key _ _ _)); [reflexivity|].
  destruct (Sql.insert_into_source_entity_links _ _ _ _ _ _); reflexivity.
Qed.

(** Engine facts *)

Lemma CHECK_sources_type_validate t :
  Sql.CHECK_sources_type t = validate_source_type t.
Proof.
  unfold Sql.CHECK_sources_type, validate_source_type, VALID_SOURCE_TYPES.
  apply bool_decide_ext. set_unfold. tauto.
Qed.

Lemma CHECK_sources_status_validate s :
  Sql.CHECK_sources_status s = validate_status s.
Proof.
  unfold Sql.CHECK_sources_status, validate_status, VALID_STATUS_VALUES.
  apply bool_decide_ext. set_unfold. tauto.
Qed.

Lemma CHECK_links_relation_type_validate r :
  Sql.CHECK_links_relation_type r = validate_relation_type r.
Proof.
  unfold Sql.CHECK_links_relation_type, validate_relation_type,
    VALID_RELATION_TYPES.
  apply bool_decide_ext. set_unfold. tauto.
Qed.

Lemma head_filter_None {A} (f : A -> bool) (l : list A) :
  head (List.filter f l) = None <-> Forall (fun x => f x = false) l.
Proof.
  induction l as [|x l IH]; simpl.
  - split; [constructor | reflexivity].
  - destruct (f x) eqn:E; simpl.
    + split; [discriminate | intros H; inversion H; congruence].
    + rewrite IH. split; [intros H; constructor; assumption
                         | intros H; inversion H; assumption].
Qed.

Lemma filter_all_false {A} (f : A -> bool) (l : list A) :
  Forall (fun x => f x = false) l -> List.filter f l = [].
Proof.
  induction 1 as [|x l Hx _ IH]; simpl; [reflexivity|].
  rewrite Hx. exact IH.
Qed.

Lemma source_exists_select id db :
  source_exists id db = true <->
  exists r, head (Sql.select_sources_by_id id db) = Some r.
Proof.
  unfold source_exists, Sql.select_sources_by_id.
  induction (sources db) as [|x l IH]; simpl.
  - split; [discriminate | intros [r H]; discriminate].
  - destruct (bool_decide (src_id x = id)); simpl.
    + split; [eauto | reflexivity].
    + exact IH.
Qed.

Lemma source_exists_false id db :
  source_exists id db = false <-> Sql.select_sources_by_id id db = [].
Proof.
  unfold source_exists, Sql.select_sources_by_id.
  induction (sources db) as [|x l IH]; simpl.
  - split; reflexivity.
  - destruct (bool_decide (src_id x = id)); simpl.
    + split; discriminate.
    + exact IH.
Qed.

Lemma insert_into_sources_eq id title ty ids now db :
  Sql.insert_into_sources id title ty ids now db =
  if negb (validate_source_type ty) then inl (CHECK_constraint_failed "type")
  else if source_exists id db then inl (UNIQUE_constraint_failed "sources.id")
  else inr (with_source db (mkSourceRow id title ty ids "unread" now)).
Proof.
  unfold Sql.insert_into_sources. rewrite CHECK_sources_type_validate.
  destruct (negb (validate_source_type ty)); [reflexivity|].
  destruct (source_exists id db) eqn:E.
  - apply source_exists_select in E as [r E].
    destruct (Sql.select_sources_by_id id db); [discriminate | reflexivity].
  - apply source_exists_false in E. rewrite E. reflexivity.
Qed.

Lemma update_sources_status_eq st id db :
  Sql.update_sources_status st id db =
  if source_exists id db
  then if negb (validate_status st) then inl (CHECK_constraint_failed "status")
       else inr (List.length (Sql.select_sources_by_id id db), with_status db id st)
  else inr (0%nat, db).
Proof.
  unfold Sql.update_sources_status. rewrite CHECK_sources_status_validate.
  destruct (source_exists id db) eqn:E.
  - apply source_exists_select in E as [r E].
    destruct (Sql.select_sources_by_id id db); [discriminate | reflexivity].
  - apply source_exists_false in E. rewrite E. reflexivity.
Qed.

Lemma rowcount_positive id db :
  source_exists id db = true ->
  (List.length (Sql.select_sources_by_id id db) =? 0)%nat = false.
Proof.
  intros E. apply source_exists_select in E as [r E].
  destruct (Sql.select_sources_by_id id db); [discriminate | reflexivity].
Qed.

Lemma add_source_all_or_nothing title ty it iv uuid now db :
  match add_source title ty it iv uuid now db with
  | (Ok id, db') =>
      id = uuid /\
      db' = with_source db (mkSourceRow uuid title ty {[ it := iv ]} "unread" now)
  | (Raise _, db') => db' = db
  end.
Proof.
  rewrite add_source_eq, insert_into_sources_eq.
  destruct (negb (validate_source_type ty)); [reflexivity|].
  destruct (negb (validate_identifier_type it)); [reflexivity|].
  destruct (head _); [reflexivity|].
  destruct (source_exists uuid db); [reflexivity | split; reflexivity].
Qed.

Lemma add_note_all_or_nothing id title content now db :
  match add_note id title content now db with
  | (Ok _, db') =>
      db' = with_note db (mkNoteRow id title content now) /\
      source_exists id db = true
  | (Raise _, db') => db' = db
  end.
Proof.
  rewrite add_note_eq. unfold Sql.insert_into_source_notes.
  destruct (head (Sql.select_sources_by_id _ _)) eqn:E; [|reflexivity].
  assert (source_exists id db = true) by (apply source_exists_select; eauto).
  destruct (Sql.select_notes_by_key _ _ _); simpl; auto.
Qed.

Lemma update_status_all_or_nothing id st db :
  match update_status id st db with
  | (Ok _, db') => db' = with_status db id st
  | (Raise _, db') => db' = db
  end.
Proof.
  rewrite update_status_eq, update_sources_status_eq.
  destruct (negb (validate_status st)); [reflexivity|].
  destruct (source_exists id db) eqn:E; [|reflexivity].
  rewrite (rowcount_positive _ _ E). reflexivity.
Qed.

Lemma link_to_entity_all_or_nothing id name rel notes now db :
  match link_to_entity id name rel notes now db with
  | (Ok _, db') =>
      db' = with_link db (mkLinkRow id name rel notes now) /\
      source_exists id db = true
  | (Raise _, db') => db' = db
  end.
Proof.
  rewrite link_to_entity_eq. unfold Sql.insert_into_source_entity_links.
  destruct (negb (validate_relation_type rel)); [reflexivity|].
  destruct (head (Sql.select_sources_by_id _ _)) eqn:E; [|reflexivity].
  assert (source_exists id db = true) by (apply source_exists_select; eauto).
  destruct (Sql.select_links_by_key _ _ _); [|reflexivity].
  simpl. destruct (negb (Sql.CHECK_links_relation_type rel)); simpl; auto.
Qed.

(** C3.  Each of the four mutating operations either succeeds, and then the
    store is the old one with the complete new row (or, for update_status,
    with the status of the addressed source replaced), or raises, and then
    the store is exactly the one before the call. *)
Theorem mutations_all_or_nothing :
  (forall title ty it iv uuid now db,
      match add_source title ty it iv uuid now db with
      | (Ok id, db') =>
          id = uuid /\
          db' = with_source db (mkSourceRow uuid title ty {[ it := iv ]} "unread" now)
      | (Raise _, db') => db' = db
      end) /\
  (forall id title content now db,
      match add_note id title content now db with
      | (Ok _, db') => db' = with_note db (mkNoteRow id title content now)
      | (Raise _, db') => db' = db
      end) /\
  (forall id st db,
      match update_status id st db with
      | (Ok _, db') => db' = with_status db id st
      | (Raise _, db') => db' = db
      end) /\
  (forall id name rel notes now db,
      match link_to_entity id name rel notes now db with
      | (Ok _, db') => db' = with_link db (mkLinkRow id name rel notes now)
      | (Raise _, db') => db' = db
      end).
Proof.
  split; [|split; [|split]]; intros.
  - apply add_source_all_or_nothing.
  - pose proof (add_note_all_or_nothing id title content now db) as H.
    destruct (add_note id title content now db) as [[b|e] db']; tauto.
  - apply update_status_all_or_nothing.
  - pose proof (link_to_entity_all_or_nothing id name rel notes now db) as H.
    destruct (link_to_entity id name rel notes now db) as [[b|e] db']; tauto.
Qed.

Lemma select_sources_by_id_src_id id db r :
  head (Sql.select_sources_by_id id db) = Some r -> src_id r = id.
Proof.
  unfold Sql.select_sources_by_id.
  induction (sources db) as [|x l IH]; simpl; [discriminate|].
  destruct (bool_decide (src_id x = id)) eqn:E; simpl; [|exact IH].
  intros [= <-]. apply bool_decide_eq_true in E. exact E.
Qed.

Lemma get_source_by_id_eq id db :
  get_source_by_id id db =
  (Ok (match head (Sql.select_sources_by_id id db) with
       | None => None
       | Some row => Some (detail_of row db)
       end), db).
Proof.
  unfold get_source_by_id. unfold_db.
  destruct (head (Sql.select_sources_by_id id db)) as [r|] eqn:E; [|reflexivity].
  unfold detail_of. rewrite (select_sources_by_id_src_id _ _ _ E). reflexivity.
Qed.

Lemma add_source_succeeds title ty it iv uuid now db :
  validate_source_type ty = true ->
  validate_identifier_type it = true ->
  Sql.select_sources_by_identifier ty it iv db = [] ->
  source_exists uuid db = false ->
  add_source title ty it iv uuid now db =
  (Ok uuid, with_source db (mkSourceRow uuid title ty {[ it := iv ]} "unread" now)).
Proof.
  intros Hty Hit Hnew Hfresh.
  rewrite add_source_eq, insert_into_sources_eq, Hty, Hit, Hnew, Hfresh.
  reflexivity.
Qed.

Lemma add_source_Ok_inv title ty it iv uuid now db id db' :
  add_source title ty it iv uuid now db = (Ok id, db') ->
  id = uuid /\
  db' = with_source db (mkSourceRow uuid title ty {[ it := iv ]} "unread" now) /\
  validate_source_type ty = true /\ validate_identifier_type it = true /\
  head (Sql.select_sources_by_identifier ty it iv db) = None /\
  source_exists uuid db = false.
Proof.
  rewrite add_source_eq, insert_into_sources_eq.
  destruct (validate_source_type ty); simpl; [|discriminate].
  destruct (validate_identifier_type it); simpl; [|discriminate].
  destruct (head _); [discriminate|].
  destruct (source_exists uuid db); [discriminate|].
  intros [= <- <-]. repeat split; reflexivity.
Qed.

Lemma has_identity_new_row uuid title ty it iv st now :
  it ∈ VALID_IDENTIFIER_TYPES ->
  Sql.has_identity ty it iv (mkSourceRow uuid title ty {[ it := iv ]} st now) =
  bool_decide (nul_free iv).
Proof.
  intros Hit. rewrite (has_identity_vocabulary _ _ _ _ Hit). simpl.
  rewrite lookup_singleton_eq, bool_decide_eq_true_2 by reflexivity.
  apply bool_decide_ext. unfold nul_free. simpl. split; congruence.
Qed.

(** A value with U+0000 inside is never found. *)
Lemma select_value_with_nul ty key iv db :
  ~ nul_free iv -> Sql.select_sources_by_identifier ty key iv db = [].
Proof.
  intros Hnul. unfold Sql.select_sources_by_identifier.
  apply filter_all_false, List.Forall_forall. intros r _.
  destruct (Sql.has_identity ty key iv r) eqn:E; [|reflexivity].
  apply has_identity_value_nul_free in E. contradiction.
Qed.

Lemma select_with_source ty key iv db row :
  Sql.select_sources_by_identifier ty key iv (with_source db row) =
  (Sql.select_sources_by_identifier ty key iv db ++
   if Sql.has_identity ty key iv row then [row] else [])%list.
Proof.
  unfold Sql.select_sources_by_identifier. simpl.
  rewrite List.filter_app. simpl.
  destruct (Sql.has_identity ty key iv row); reflexivity.
Qed.

Lemma select_by_id_with_source_fresh db row id :
  src_id row = id ->
  source_exists id db = false ->
  Sql.select_sources_by_id id (with_source db row) = [row].
Proof.
  intros Hid H. apply source_exists_false in H.
  unfold Sql.select_sources_by_id in *. simpl.
  rewrite List.filter_app, H. simpl.
  rewrite bool_decide_eq_true_2; [reflexivity | exact Hid].
Qed.

(** C1.  The duplicate check of add_source misses identifier values that
    contain U+0000.  On the empty store, add_source with type paper,
    identifier type doi and the value a, U+0000, b succeeds, and a second
    add_source with the same identity succeeds as well instead of raising
    the conflict error: the store then holds two sources with that identity,
    and find_source_by_identifier finds neither of them. *)
Theorem add_source_twice_misses_value_with_nul :
  exists db1 db2,
    add_source "BERT" "paper" "doi" value_with_nul "id-1" 10 empty_store =
      (Ok "id-1", db1) /\
    add_source "BERT" "paper" "doi" value_with_nul "id-2" 20 db1 =
      (Ok "id-2", db2) /\
    map (fun r => (src_id r, src_type r, src_identifiers r)) (sources db2) =
      [("id-1", "paper", {[ "doi" := value_with_nul ]});
       ("id-2", "paper", {[ "doi" := value_with_nul ]})] /\
    find_source_by_identifier "doi" value_with_nul "paper" db2 = (Ok None, db2).
Proof.
  do 2 eexists. split; [|split; [|split]].
  - vm_compute. reflexivity.
  - vm_compute. reflexivity.
  - vm_compute. reflexivity.
  - vm_compute. reflexivity.
Qed.

Lemma no_rows_of_absent_source {A} (owner : A -> string) (rows : list A) id db :
  forallb (fun x => source_exists (owner x) db) rows = true ->
  source_exists id db = false ->
  List.filter (fun x => bool_decide (owner x = id)) rows = [].
Proof.
  intros Hall Hid. induction rows as [|x rows IH]; simpl in *; [reflexivity|].
  apply andb_true_iff in Hall as [Hx Hall].
  destruct (bool_decide (owner x = id)) eqn:E.
  - apply bool_decide_eq_true in E. congruence.
  - apply IH. exact Hall.
Qed.

(** C2.  In a store whose notes and links all belong to sources, if
    add_source succeeds with an id then get_source_by_id of that id finds a
    source with the title and type given, the identifiers
    {identifier_type: identifier_value}, the status "unread", no note and no
    entity link. *)
Theorem get_after_add_round_trip title ty it iv uuid now db id db1 :
  store_inv db ->
  add_source title ty it iv uuid now db = (Ok id, db1) ->
  exists d,
    get_source_by_id id db1 = (Ok (Some d), db1) /\
    sd_id d = id /\
    sd_title d = title /\
    sd_type d = ty /\
    sd_identifiers d = {[ it := iv ]} /\
    sd_status d = "unread" /\
    sd_notes d = [] /\
    sd_entity_links d = [].
Proof.
  intros [Hnotes Hlinks] Hadd.
  apply add_source_Ok_inv in Hadd as (-> & -> & _ & _ & _ & Hfresh).
  set (row := mkSourceRow uuid title ty {[ it := iv ]} "unread" now).
  exists (detail_of row (with_source db row)).
  rewrite get_source_by_id_eq.
  rewrite (select_by_id_with_source_fresh db row uuid eq_refl Hfresh). simpl.
  repeat split; unfold detail_of; simpl.
  - unfold Sql.select_notes_by_source. simpl.
    rewrite (no_rows_of_absent_source note_source_id _ uuid db Hnotes Hfresh).
    reflexivity.
  - unfold Sql.select_links_by_source. simpl.
    rewrite (no_rows_of_absent_source link_source_id _ uuid db Hlinks Hfresh).
    reflexivity.
Qed.

Lemma add_note_succeeds id title content now db :
  source_exists id db = true ->
  Sql.select_notes_by_key id title db = [] ->
  add_note id title content now db =
  (Ok true, with_note db (mkNoteRow id title content now)).
Proof.
  intros Hex Hnew. apply source_exists_select in Hex as [r Hr].
  rewrite add_note_eq, Hr. unfold Sql.insert_into_source_notes.
  rewrite Hnew. reflexivity.
Qed.

Lemma select_notes_by_key_with_note id title db n :
  Sql.select_notes_by_key id title (with_note db n) =
  (Sql.select_notes_by_key id title db ++
   if bool_decide (note_source_id n = id) && bool_decide (note_title n = title)
   then [n] else [])%list.
Proof.
  unfold Sql.select_notes_by_key. simpl. rewrite List.filter_app. simpl.
  destruct (_ && _); reflexivity.
Qed.

(** C4.  For two distinct existing sources A and B without a note titled T:
    add_note on A succeeds, then add_note with the same title on B succeeds,
    and a further add_note with that title on A raises the conflict error. *)
Theorem note_titles_unique_per_source
    A B T content1 content2 content3 now1 now2 now3 db :
  A <> B ->
  source_exists A db = true ->
  source_exists B db = true ->
  Sql.select_notes_by_key A T db = [] ->
  Sql.select_notes_by_key B T db = [] ->
  exists db1 db2,
    add_note A T content1 now1 db = (Ok true, db1) /\
    add_note B T content2 now2 db1 = (Ok true, db2) /\
    add_note A T content3 now3 db2 =
      (Raise (DbError (Note_already_exists T)), db2) /\
    error_kind (Note_already_exists T) = ConflictError.
Proof.
  intros HAB HA HB HnA HnB.
  exists (with_note db (mkNoteRow A T content1 now1)).
  exists (with_note (with_note db (mkNoteRow A T content1 now1))
                    (mkNoteRow B T content2 now2)).
  split; [apply add_note_succeeds; assumption|].
  split; [apply add_note_succeeds; [exact HB|]|].
  - rewrite select_notes_by_key_with_note, HnB. simpl.
    rewrite (bool_decide_eq_false_2 (A = B) HAB). reflexivity.
  - split; [|reflexivity].
    rewrite add_note_eq. simpl.
    apply source_exists_select in HA as [r Hr].
    change (Sql.select_sources_by_id A (with_note (with_note db _) _))
      with (Sql.select_sources_by_id A db).
    rewrite Hr, !select_notes_by_key_with_note, HnA. simpl.
    rewrite !bool_decide_eq_true_2 by reflexivity. reflexivity.
Qed.

Lemma select_by_id_with_status id id' st db :
  Sql.select_sources_by_id id (with_status db id' st) =
  map (Sql.set_status st id') (Sql.select_sources_by_id id db).
Proof.
  unfold Sql.select_sources_by_id. simpl.
  induction (sources db) as [|x l IH]; simpl; [reflexivity|].
  assert (E : src_id (Sql.set_status st id' x) = src_id x).
  { unfold Sql.set_status. destruct (bool_decide _); reflexivity. }
  rewrite E. destruct (bool_decide (src_id x = id)); simpl; rewrite IH; reflexivity.
Qed.

Lemma source_exists_with_status id id' st db :
  source_exists id (with_status db id' st) = source_exists id db.
Proof.
  destruct (source_exists id db) eqn:E.
  - apply source_exists_select in E as [r E]. apply source_exists_select.
    rewrite select_by_id_with_status.
    destruct (Sql.select_sources_by_id id db); [discriminate|]. simpl. eauto.
  - apply source_exists_false in E. apply source_exists_false.
    rewrite select_by_id_with_status, E. reflexivity.
Qed.

Lemma update_status_succeeds id st db :
  validate_status st = true ->
  source_exists id db = true ->
  update_status id st db = (Ok true, with_status db id st).
Proof.
  intros Hst Hex.
  rewrite update_status_eq, update_sources_status_eq, Hst, Hex. simpl.
  rewrite (rowcount_positive _ _ Hex). reflexivity.
Qed.

(** C5.  update_status raises a validation error exactly when the new status
    is outside the status vocabulary; with a status of the vocabulary it
    raises "Source not found" exactly when the UPDATE statement reports a
    rowcount of zero and succeeds otherwise; and on an existing source two
    updates in a row, to any s1 and then any s2 of the vocabulary, both
    succeed and get_source_by_id then reads the status s2. *)
Theorem update_status_contract :
  (forall id st db,
      (exists e, fst (update_status id st db) = Raise (DbError e) /\
                 error_kind e = ValidationError)
      <-> st ∉ VALID_STATUS_VALUES) /\
  (forall id st db,
      st ∈ VALID_STATUS_VALUES ->
      exists rowcount db',
        Sql.update_sources_status st id db = inr (rowcount, db') /\
        update_status id st db =
          if (rowcount =? 0)%nat
          then (Raise (DbError (Source_not_found id)), db)
          else (Ok true, db')) /\
  (forall id s1 s2 db,
      source_exists id db = true ->
      s1 ∈ VALID_STATUS_VALUES ->
      s2 ∈ VALID_STATUS_VALUES ->
      exists db1 db2 d,
        update_status id s1 db = (Ok true, db1) /\
        update_status id s2 db1 = (Ok true, db2) /\
        get_source_by_id id db2 = (Ok (Some d), db2) /\
        sd_status d = s2).
Proof.
  split; [|split].
  - intros id st db. rewrite update_status_eq, update_sources_status_eq.
    unfold validate_status. case_bool_decide as Hst; simpl.
    + split; [|intros H; contradiction].
      intros [e [He Hk]]. exfalso.
      destruct (source_exists id db) eqn:E; simpl in He.
      * rewrite (rowcount_positive _ _ E) in He. discriminate.
      * injection He as <-. discriminate.
    + split; [intros _; exact Hst|].
      intros _. eexists. split; reflexivity.
  - intros id st db Hst.
    rewrite update_status_eq, update_sources_status_eq.
    unfold validate_status. rewrite bool_decide_eq_true_2 by exact Hst. simpl.
    destruct (source_exists id db); eexists _, _; split; reflexivity.
  - intros id s1 s2 db Hex H1 H2.
    assert (V1 : validate_status s1 = true) by (apply bool_decide_eq_true_2, H1).
    assert (V2 : validate_status s2 = true) by (apply bool_decide_eq_true_2, H2).
    assert (Hex1 : source_exists id (with_status db id s1) = true)
      by (rewrite source_exists_with_status; exact Hex).
    assert (Hex2 : source_exists id (with_status (with_status db id s1) id s2) = true)
      by (rewrite source_exists_with_status; exact Hex1).
    apply source_exists_select in Hex2 as Hsel. destruct Hsel as [r Hr].
    exists (with_status db id s1), (with_status (with_status db id s1) id s2).
    exists (detail_of r (with_status (with_status db id s1) id s2)).
    split; [apply update_status_succeeds; assumption|].
    split; [apply update_status_succeeds; assumption|].
    split; [rewrite get_source_by_id_eq, Hr; reflexivity|].
    simpl. pose proof (select_sources_by_id_src_id _ _ _ Hr) as Hid.
    rewrite select_by_id_with_status in Hr.
    destruct (Sql.select_sources_by_id id (with_status db id s1)) as [|x l] eqn:Hx;
      [discriminate|].
    simpl in Hr. injection Hr as <-.
    assert (Hxid : src_id x = id).
    { apply (select_sources_by_id_src_id id (with_status db id s1)).
      rewrite Hx. reflexivity. }
    unfold Sql.set_status. rewrite bool_decide_eq_true_2 by exact Hxid.
    reflexivity.
Qed.

(** ** Sorting by decreasing key *)

Section SortDesc.
Context {A : Type} (key : A -> Z).

Lemma insert_desc_le_all x l :
  Forall (fun y => key y <= key x) l -> Order.insert_desc key x l = x :: l.
Proof.
  intros H. destruct H as [|y l Hy _]; simpl; [reflexivity|].
  destruct (Z.ltb_spec (key x) (key y)); [lia | reflexivity].
Qed.

Lemma insert_desc_skip x l1 l2 :
  Forall (fun y => key x < key y) l1 ->
  Order.insert_desc key x (l1 ++ l2) = (l1 ++ Order.insert_desc key x l2)%list.
Proof.
  induction 1 as [|y l1 Hy _ IH]; simpl; [reflexivity|].
  destruct (Z.ltb_spec (key x) (key y)); [|lia].
  rewrite IH. reflexivity.
Qed.

Lemma insert_desc_perm x l : Permutation (Order.insert_desc key x l) (x :: l).
Proof.
  induction l as [|y l IH]; simpl; [reflexivity|].
  destruct (key x <? key y); [|reflexivity].
  rewrite IH. apply perm_swap.
Qed.

Lemma sort_desc_perm l : Permutation (Order.sort_desc key l) l.
Proof.
  induction l as [|x l IH]; simpl; [reflexivity|].
  rewrite insert_desc_perm. constructor. exact IH.
Qed.

Lemma insert_desc_sorted x l :
  Sorted (key_ge key) l -> Sorted (key_ge key) (Order.insert_desc key x l).
Proof.
  induction 1 as [|y l Hs IH Hhd]; simpl.
  - repeat constructor.
  - destruct (Z.ltb_spec (key x) (key y)).
    + constructor; [exact IH|].
      destruct Hhd as [|z l Hz]; simpl.
      * constructor. unfold key_ge. lia.
      * destruct (key x <? key z); constructor; unfold key_ge in *; lia.
    + constructor; [constructor; assumption|].
      constructor. unfold key_ge. lia.
Qed.

Lemma sort_desc_sorted l : Sorted (key_ge key) (Order.sort_desc key l).
Proof.
  induction l as [|x l IH]; simpl; [constructor|].
  apply insert_desc_sorted, IH.
Qed.

Lemma filter_has_key_forall k l : Forall (fun y => key y = k) (List.filter (has_key key k) l).
Proof.
  apply List.Forall_forall. intros y Hy. apply List.filter_In in Hy as [_ Hy].
  apply bool_decide_eq_true in Hy. exact Hy.
Qed.

(** With three possible keys the sort is the concatenation of the three
    classes, each in its original order. *)
Lemma sort_desc_three_keys a b c l :
  c < b -> b < a ->
  Forall (fun x => key x = a \/ key x = b \/ key x = c) l ->
  Order.sort_desc key l =
  (List.filter (has_key key a) l ++ List.filter (has_key key b) l ++
   List.filter (has_key key c) l)%list.
Proof.
  intros Hcb Hba. induction 1 as [|x l Hx _ IH]; [reflexivity|].
  cbn [Order.sort_desc foldr]. fold (Order.sort_desc key l). rewrite IH.
  pose proof (filter_has_key_forall a l) as Fa.
  pose proof (filter_has_key_forall b l) as Fb.
  pose proof (filter_has_key_forall c l) as Fc.
  cbn [List.filter].
  assert (Hyes : forall k, key x = k -> has_key key k x = true)
    by (intros; apply bool_decide_eq_true_2; assumption).
  assert (Hno : forall k, key x <> k -> has_key key k x = false)
    by (intros; apply bool_decide_eq_false_2; assumption).
  destruct Hx as [Hx|[Hx|Hx]].
  - rewrite (Hyes a), (Hno b), (Hno c) by lia.
    apply insert_desc_le_all.
    rewrite !Forall_app. repeat split;
      eapply Forall_impl; eauto; simpl; intros; lia.
  - rewrite (Hno a), (Hyes b), (Hno c) by lia.
    rewrite insert_desc_skip
      by (eapply Forall_impl; [exact Fa|]; simpl; intros; lia).
    f_equal. apply insert_desc_le_all.
    rewrite !Forall_app. split; eapply Forall_impl; eauto; simpl; intros; lia.
  - rewrite (Hno a), (Hno b), (Hyes c) by lia.
    rewrite insert_desc_skip
      by (eapply Forall_impl; [exact Fa|]; simpl; intros; lia).
    rewrite insert_desc_skip
      by (eapply Forall_impl; [exact Fb|]; simpl; intros; lia).
    do 2 f_equal. apply insert_desc_le_all.
    eapply Forall_impl; eauto; simpl; intros; lia.
Qed.

End SortDesc.

(** ** The title search *)

Lemma score_cases q s :
  Utils.score q s =
  if exact_match q s then Some 100
  else if substring_match q s then Some 50
  else if word_match q s then Some 25
  else None.
Proof.
  unfold Utils.score, exact_match, substring_match, word_match.
  rewrite (bool_decide_ext (q = Utils.lower (sum_title s))
                           (Utils.lower (sum_title s) = q))
    by (split; intros; symmetry; assumption).
  reflexivity.
Qed.

Lemma collect_matches_weights q sources :
  Forall (fun m => snd m = 100 \/ snd m = 50 \/ snd m = 25)
         (Utils.collect_matches q sources).
Proof.
  induction sources as [|s l IH]; simpl; [constructor|].
  rewrite score_cases.
  destruct (exact_match q s); [constructor; simpl; auto|].
  destruct (substring_match q s); [constructor; simpl; auto|].
  destruct (word_match q s); [constructor; simpl; auto | exact IH].
Qed.

Lemma collect_matches_tier q w (tier : SourceSummary -> bool) sources :
  (forall s, tier s = bool_decide (Utils.score q s = Some w)) ->
  map fst (List.filter (has_key snd w) (Utils.collect_matches q sources)) =
  List.filter tier sources.
Proof.
  intros Htier. induction sources as [|s l IH]; [reflexivity|].
  cbn [Utils.collect_matches List.filter]. rewrite Htier.
  destruct (Utils.score q s) as [w'|] eqn:E.
  - cbn [List.filter]. unfold has_key at 1. cbn [snd].
    destruct (decide (w' = w)) as [->|Hne].
    + rewrite !bool_decide_eq_true_2 by reflexivity.
      cbn [map fst]. rewrite IH. reflexivity.
    + rewrite (bool_decide_eq_false_2 (w' = w)) by exact Hne.
      rewrite (bool_decide_eq_false_2 (Some w' = Some w)) by congruence.
      exact IH.
  - rewrite bool_decide_eq_false_2 by discriminate. exact IH.
Qed.

Lemma search_sources_by_title_tiers sources query :
  Utils.search_sources_by_title sources query =
  (List.filter (exact_match (Utils.lower query)) sources ++
   List.filter (fun s => negb (exact_match (Utils.lower query) s) &&
                         substring_match (Utils.lower query) s) sources ++
   List.filter (fun s => negb (exact_match (Utils.lower query) s) &&
                         negb (substring_match (Utils.lower query) s) &&
                         word_match (Utils.lower query) s) sources)%list.
Proof.
  unfold Utils.search_sources_by_title.
  rewrite (sort_desc_three_keys snd 100 50 25) by
    (try lia; apply collect_matches_weights).
  rewrite !map_app.
  set (q := Utils.lower query).
  rewrite (collect_matches_tier q 100
             (fun s => bool_decide (Utils.score q s = Some 100)) sources),
          (collect_matches_tier q 50
             (fun s => bool_decide (Utils.score q s = Some 50)) sources),
          (collect_matches_tier q 25
             (fun s => bool_decide (Utils.score q s = Some 25)) sources)
    by (intros; reflexivity).
  f_equal; [|f_equal]; apply List.filter_ext; intros s; rewrite score_cases;
    destruct (exact_match q s), (substring_match q s), (word_match q s);
    reflexivity.
Qed.

(** C7.  The title search returns the sources whose lowercased title equals
    the lowercased query, then those that only contain it, then those that
    only contain one of its words, each group in input order; a source is in
    the result exactly when it is in the input and falls in one of the three
    tiers. *)
Theorem search_ranks_by_three_tiers sources query :
  let q := Utils.lower query in
  Utils.search_sources_by_title sources query =
    (List.filter (exact_match q) sources ++
     List.filter (fun s => negb (exact_match q s) && substring_match q s) sources ++
     List.filter (fun s => negb (exact_match q s) && negb (substring_match q s) &&
                           word_match q s) sources)%list /\
  (forall s, In s (Utils.search_sources_by_title sources query) <->
             In s sources /\
             (exact_match q s || substring_match q s || word_match q s) = true).
Proof.
  intros q. split; [apply search_sources_by_title_tiers|].
  intros s. rewrite search_sources_by_title_tiers. fold q.
  rewrite !List.in_app_iff, !List.filter_In.
  destruct (exact_match q s), (substring_match q s), (word_match q s);
    simpl; intuition discriminate.
Qed.

Lemma lower_empty_iff t : Utils.lower t = "" <-> t = "".
Proof. destruct t; simpl; split; intros; (reflexivity || discriminate). Qed.

Lemma contains_empty hay : Utils.contains "" hay = true.
Proof. destruct hay; reflexivity. Qed.

Lemma filter_split_perm {A} (f : A -> bool) (l : list A) :
  Permutation (List.filter f l ++ List.filter (fun x => negb (f x)) l) l.
Proof.
  induction l as [|x l IH]; simpl; [reflexivity|].
  destruct (f x); simpl.
  - constructor. exact IH.
  - rewrite <- Permutation_middle. constructor. exact IH.
Qed.

Lemma search_empty_query_eq sources :
  Utils.search_sources_by_title sources "" =
  (List.filter has_empty_title sources ++
   List.filter (fun s => negb (has_empty_title s)) sources)%list.
Proof.
  assert (Hexact : forall s, exact_match "" s = has_empty_title s).
  { intros s. apply bool_decide_ext, lower_empty_iff. }
  rewrite search_sources_by_title_tiers. simpl Utils.lower.
  rewrite (List.filter_ext _ _ Hexact).
  rewrite (List.filter_ext
             (fun s => negb (exact_match "" s) && substring_match "" s)
             (fun s => negb (has_empty_title s))).
  2:{ intros s. unfold substring_match.
      rewrite Hexact, contains_empty. apply andb_true_r. }
  rewrite (filter_all_false
             (fun s => negb (exact_match "" s) && negb (substring_match "" s) &&
                       word_match "" s)).
  2:{ apply List.Forall_forall. intros s _. unfold substring_match.
      rewrite contains_empty. simpl. rewrite andb_false_r. reflexivity. }
  rewrite app_nil_r. reflexivity.
Qed.

(** C10.  With the empty query a source scores 100 when its title is empty
    and 50 otherwise, so the search returns the sources with an empty title
    first and then all the others, each group in input order: the whole
    input, rearranged at most by that. *)
Theorem search_with_empty_query sources :
  (forall s, Utils.score (Utils.lower "") s =
             Some (if has_empty_title s then 100 else 50)) /\
  Utils.search_sources_by_title sources "" =
    (List.filter has_empty_title sources ++
     List.filter (fun s => negb (has_empty_title s)) sources)%list /\
  Permutation (Utils.search_sources_by_title sources "") sources.
Proof.
  split; [|split].
  - intros s. simpl Utils.lower. rewrite score_cases.
    unfold exact_match, substring_match.
    rewrite (bool_decide_ext _ _ (lower_empty_iff (sum_title s))).
    fold (has_empty_title s). rewrite contains_empty.
    destruct (has_empty_title s); reflexivity.
  - apply search_empty_query_eq.
  - rewrite search_empty_query_eq. apply filter_split_perm.
Qed.

Lemma filter_all_true {A} (f : A -> bool) (l : list A) :
  forallb f l = true -> List.filter f l = l.
Proof.
  induction l as [|x l IH]; simpl; [reflexivity|].
  intros H. apply andb_true_iff in H as [Hx Hl]. rewrite Hx, IH; auto.
Qed.

(** When no title is empty the empty query gives back the input list. *)
Lemma search_empty_query_nonempty_titles sources :
  forallb (fun s => negb (has_empty_title s)) sources = true ->
  Utils.search_sources_by_title sources "" = sources.
Proof.
  intros Hall. rewrite search_empty_query_eq, (filter_all_true _ _ Hall).
  rewrite filter_all_false; [reflexivity|].
  apply List.Forall_forall. intros s Hs.
  apply (proj1 (List.forallb_forall _ _) Hall) in Hs.
  apply negb_true_iff. exact Hs.
Qed.

(** ** Listing *)

Lemma conditions_match ty st r :
  forallb (holds r)
    ((if truthy ty then [Type_eq (default "" ty)] else []) ++
     (if truthy st then [Status_eq (default "" st)] else [])) =
  matches_filters ty st r.
Proof.
  unfold matches_filters, passes.
  destruct ty as [t|], st as [s|]; simpl;
    repeat (destruct (negb _); simpl); rewrite ?andb_true_r; reflexivity.
Qed.

Lemma list_sources_eq ty st limit db :
  list_sources ty st limit db =
  if truthy ty && negb (validate_source_type (default "" ty))
  then (Raise (DbError (Invalid_source_type (default "" ty))), db)
  else if truthy st && negb (validate_status (default "" st))
  then (Raise (DbError (Invalid_status (default "" st))), db)
  else if (limit <? - 2 ^ 63) || (2 ^ 63 <=? limit)
  then (Raise OverflowError, db)
  else (Ok (map to_summary
              (Order.sql_limit limit
                 (Order.sort_desc src_created_at
                    (List.filter (matches_filters ty st) (sources db))))), db).
Proof.
  unfold list_sources, select_sources_where.
  rewrite <- (List.filter_ext _ _ (conditions_match ty st)).
  unfold type_conditions, status_conditions, bind_int.
  destruct ty as [t|], st as [s|]; cbn [default from_option]; unfold id;
    try destruct (truthy (Some t)); try destruct (validate_source_type t);
    try destruct (truthy (Some s)); try destruct (validate_status s);
    try (change (truthy None) with false);
    destruct ((limit <? - 2 ^ 63) || (2 ^ 63 <=? limit)); reflexivity.
Qed.

Lemma truthy_Some s : truthy (Some s) = true <-> s <> "".
Proof.
  simpl. rewrite negb_true_iff, bool_decide_eq_false. reflexivity.
Qed.

Lemma Sorted_take {A} (R : A -> A -> Prop) n (l : list A) :
  Sorted R l -> Sorted R (take n l).
Proof.
  intros H. revert n. induction H as [|x l Hs IH Hhd]; intros [|n]; simpl;
    try constructor.
  - apply IH.
  - destruct Hhd; destruct n; simpl; constructor. assumption.
Qed.

(** C6, amended.  For a limit between 0 and 2^63 - 1: list_sources raises
    only for a non-empty filter value outside its vocabulary (the source type
    is looked at first) and leaves the store alone; otherwise every filter
    given is empty or in its vocabulary and the result is the first [limit]
    entries of the rows that satisfy the non-empty filters, taken in
    decreasing order of created_at. *)
Theorem list_sources_contract ty st limit db :
  0 <= limit < 2 ^ 63 ->
  match list_sources ty st limit db with
  | (Raise e, db') =>
      db' = db /\
      ((exists t, ty = Some t /\ t <> "" /\ (t ∉ VALID_SOURCE_TYPES) /\
                  e = DbError (Invalid_source_type t)) \/
       (exists s, st = Some s /\ s <> "" /\ (s ∉ VALID_STATUS_VALUES) /\
                  e = DbError (Invalid_status s) /\
                  forall t, ty = Some t -> t = "" \/ t ∈ VALID_SOURCE_TYPES))
  | (Ok l, db') =>
      db' = db /\
      (forall t, ty = Some t -> t = "" \/ t ∈ VALID_SOURCE_TYPES) /\
      (forall s, st = Some s -> s = "" \/ s ∈ VALID_STATUS_VALUES) /\
      exists ordered,
        Permutation ordered (List.filter (matches_filters ty st) (sources db)) /\
        Sorted (key_ge src_created_at) ordered /\
        l = map to_summary (take (Z.to_nat limit) ordered) /\
        (List.length l <= Z.to_nat limit)%nat
  end.
Proof.
  intros Hlimit. rewrite list_sources_eq.
  destruct (truthy ty && negb (validate_source_type (default "" ty))) eqn:Ety.
  { split; [reflexivity|]. left.
    apply andb_true_iff in Ety as [Ht Hv].
    destruct ty as [t|]; [|discriminate]. exists t.
    apply truthy_Some in Ht. apply negb_true_iff, bool_decide_eq_false in Hv.
    auto. }
  assert (Htype : forall t, ty = Some t -> t = "" \/ t ∈ VALID_SOURCE_TYPES).
  { intros t ->. simpl in Ety. apply andb_false_iff in Ety as [E|E].
    - left. apply negb_false_iff, bool_decide_eq_true in E. exact E.
    - right. apply negb_false_iff, bool_decide_eq_true in E. exact E. }
  destruct (truthy st && negb (validate_status (default "" st))) eqn:Est.
  { split; [reflexivity|]. right.
    apply andb_true_iff in Est as [Ht Hv].
    destruct st as [s|]; [|discriminate]. exists s.
    apply truthy_Some in Ht. apply negb_true_iff, bool_decide_eq_false in Hv.
    auto. }
  assert (Hrange : ((limit <? - 2 ^ 63) || (2 ^ 63 <=? limit)) = false).
  { apply orb_false_iff. split; [apply Z.ltb_ge | apply Z.leb_gt]; lia. }
  rewrite Hrange. split; [reflexivity|]. split; [|split].
  - exact Htype.
  - intros s ->. simpl in Est. apply andb_false_iff in Est as [E|E].
    + left. apply negb_false_iff, bool_decide_eq_true in E. exact E.
    + right. apply negb_false_iff, bool_decide_eq_true in E. exact E.
  - eexists. split; [apply sort_desc_perm|]. split; [apply sort_desc_sorted|].
    unfold Order.sql_limit.
    destruct (Z.ltb_spec limit 0) as [|_]; [lia|]. split; [reflexivity|].
    rewrite length_map, length_take. lia.
Qed.

(** ** Statistics *)

Lemma get_database_stats_eq db :
  get_database_stats db =
  (Ok (mkStats (list_to_map (Order.group_count (map src_type (sources db))))
               (list_to_map (Order.group_count (map src_status (sources db))))
               (List.length (sources db)) (List.length (source_notes db))
               (List.length (source_entity_links db))), db).
Proof. reflexivity. Qed.

Lemma group_count_keys ks : map fst (Order.group_count ks) = remove_dups ks.
Proof.
  unfold Order.group_count. rewrite List.map_map. simpl. apply List.map_id.
Qed.

Lemma group_count_NoDup ks : NoDup (map fst (Order.group_count ks)).
Proof. rewrite group_count_keys. apply NoDup_remove_dups. Qed.

Lemma sum_count_occ_cons x (ks keys : list string) :
  NoDup keys -> In x keys ->
  sum_list (map (count_occ string_dec (x :: ks)) keys) =
  S (sum_list (map (count_occ string_dec ks) keys)).
Proof.
  induction 1 as [|k keys Hk Hnd IH]; intros Hx; [destruct Hx|].
  cbn [map sum_list sum_list_with].
  change (count_occ string_dec (x :: ks) k)
    with (if string_dec x k then S (count_occ string_dec ks k)
          else count_occ string_dec ks k).
  destruct (string_dec x k) as [->|Hne].
  - assert (Hrest : map (count_occ string_dec (k :: ks)) keys =
                    map (count_occ string_dec ks) keys).
    { apply List.map_ext_in. intros k' Hk'. simpl.
      destruct (string_dec k k') as [->|_]; [|reflexivity].
      exfalso. apply Hk. apply list_elem_of_In. exact Hk'. }
    rewrite Hrest. reflexivity.
  - destruct Hx as [->|Hx]; [congruence|].
    rewrite (IH Hx). lia.
Qed.

(** Summing, over distinct keys that cover the list, how often each key
    occurs counts every element once. *)
Lemma sum_count_occ (keys ks : list string) :
  NoDup keys -> (forall k, In k ks -> In k keys) ->
  sum_list (map (count_occ string_dec ks) keys) = List.length ks.
Proof.
  intros Hnd. induction ks as [|x ks IH]; intros Hcov.
  - clear. induction keys; simpl; auto.
  - rewrite sum_count_occ_cons by (auto; apply Hcov; left; reflexivity).
    rewrite IH by (intros k Hk; apply Hcov; right; exact Hk). reflexivity.
Qed.

Lemma dict_sum_group_count ks :
  dict_sum (list_to_map (Order.group_count ks)) = List.length ks.
Proof.
  unfold dict_sum.
  pose proof (map_to_list_to_map (M := gmap string) (Order.group_count ks)
                (group_count_NoDup ks)) as Hperm.
  assert (Hsum : forall (l1 l2 : list (string * nat)),
             Permutation l1 l2 -> sum_list (map snd l1) = sum_list (map snd l2)).
  { induction 1; simpl; lia. }
  rewrite (Hsum _ _ Hperm). unfold Order.group_count.
  rewrite List.map_map. simpl.
  apply sum_count_occ.
  - apply NoDup_remove_dups.
  - intros k Hk. apply list_elem_of_In, elem_of_remove_dups, list_elem_of_In, Hk.
Qed.

Lemma group_count_lookup ks k :
  (list_to_map (Order.group_count ks) : gmap string nat) !! k =
  if bool_decide (k ∈ ks) then Some (count_occ string_dec ks k) else None.
Proof.
  case_bool_decide as Hk.
  - apply elem_of_list_to_map; [apply group_count_NoDup|].
    unfold Order.group_count. apply list_elem_of_In, List.in_map_iff.
    exists k. split; [reflexivity|].
    apply list_elem_of_In, elem_of_remove_dups, Hk.
  - apply not_elem_of_list_to_map. rewrite group_count_keys.
    intros H. apply Hk. rewrite elem_of_remove_dups in H. exact H.
Qed.

Lemma group_count_is_Some {A} (f : A -> string) (rows : list A) k :
  is_Some ((list_to_map (Order.group_count (map f rows)) : gmap string nat) !! k)
  <-> exists r, In r rows /\ f r = k.
Proof.
  rewrite group_count_lookup. case_bool_decide as Hk.
  - split; [intros _ | intros _; eauto].
    apply list_elem_of_In, List.in_map_iff in Hk as [r [Hr Hin]]. eauto.
  - split; [intros [x Hx]; discriminate|].
    intros [r [Hin Hr]]. exfalso. apply Hk.
    apply list_elem_of_In, List.in_map_iff. eauto.
Qed.

(** ** Sequences of calls *)

Lemma run_outcome c db :
  match run c db with
  | (Ok _, db') => db' = effect c db
  | (Raise _, db') => db' = db
  end.
Proof.
  destruct c as [title ty it iv uuid now | id title content now | id st
                | id name rel notes now]; unfold run, void, bind, ret.
  - pose proof (add_source_all_or_nothing title ty it iv uuid now db) as H.
    destruct (add_source _ _ _ _ _ _ _) as [[v|e] db']; simpl; tauto.
  - pose proof (add_note_all_or_nothing id title content now db) as H.
    destruct (add_note _ _ _ _ _) as [[v|e] db']; simpl; tauto.
  - pose proof (update_status_all_or_nothing id st db) as H.
    destruct (update_status _ _ _) as [[v|e] db']; simpl; tauto.
  - pose proof (link_to_entity_all_or_nothing id name rel notes now db) as H.
    destruct (link_to_entity _ _ _ _ _ _) as [[v|e] db']; simpl; tauto.
Qed.

Lemma replay_counts cs db :
  List.length (sources (replay cs db)) =
    (List.length (sources db) + count_ok is_add_source cs db)%nat /\
  List.length (source_notes (replay cs db)) =
    (List.length (source_notes db) + count_ok is_add_note cs db)%nat /\
  List.length (source_entity_links (replay cs db)) =
    (List.length (source_entity_links db) + count_ok is_link_to_entity cs db)%nat.
Proof.
  revert db. induction cs as [|c cs IH]; intros db; simpl; [lia|].
  specialize (IH (snd (run c db))). destruct IH as (IH1 & IH2 & IH3).
  rewrite IH1, IH2, IH3. clear IH1 IH2 IH3.
  pose proof (run_outcome c db) as H.
  destruct (run c db) as [[v|e] db']; simpl; subst db'.
  - rewrite !andb_true_r.
    destruct c; simpl; rewrite ?length_app, ?length_map; simpl; lia.
  - rewrite !andb_false_r. lia.
Qed.

(** C8.  After any sequence of calls from the empty store, get_database_stats
    reports as totals the numbers of add_source, add_note and link_to_entity
    calls that succeeded; the counts per type and per status each sum to the
    number of sources; and the keys of the two mappings are exactly the
    types and the statuses of the sources held. *)
Theorem stats_count_what_was_added cs :
  let db := replay cs empty_store in
  exists stats,
    get_database_stats db = (Ok stats, db) /\
    total_sources stats = count_ok is_add_source cs empty_store /\
    total_notes stats = count_ok is_add_note cs empty_store /\
    total_entity_links stats = count_ok is_link_to_entity cs empty_store /\
    dict_sum (sources_by_type stats) = count_ok is_add_source cs empty_store /\
    dict_sum (sources_by_status stats) = count_ok is_add_source cs empty_store /\
    (forall k, is_Some (sources_by_type stats !! k) <->
               exists r, In r (sources db) /\ src_type r = k) /\
    (forall k, is_Some (sources_by_status stats !! k) <->
               exists r, In r (sources db) /\ src_status r = k).
Proof.
  intros db. eexists. split; [apply get_database_stats_eq|]. simpl.
  destruct (replay_counts cs empty_store) as (H1 & H2 & H3). simpl in *.
  fold db in H1, H2, H3.
  rewrite !dict_sum_group_count, !length_map.
  repeat split; try assumption; try apply group_count_is_Some;
    intros; apply group_count_is_Some; assumption.
Qed.

(** ** Referential integrity of the stores the operations produce *)

Lemma source_exists_with_source id db r :
  source_exists id db = true -> source_exists id (with_source db r) = true.
Proof.
  unfold source_exists. simpl. rewrite existsb_app. intros ->. reflexivity.
Qed.

Lemma forallb_impl {A} (f g : A -> bool) (l : list A) :
  (forall x, f x = true -> g x = true) ->
  forallb f l = true -> forallb g l = true.
Proof.
  intros Hfg. induction l as [|x l IH]; simpl; [reflexivity|].
  intros H. apply andb_true_iff in H as [Hx Hl].
  rewrite (Hfg x Hx), (IH Hl). reflexivity.
Qed.

Lemma run_preserves_store_inv c db :
  store_inv db -> store_inv (snd (run c db)).
Proof.
  intros [Hn Hl].
  destruct c as [title ty it iv uuid now | id title content now | id st
                | id name rel notes now]; unfold run, void, bind, ret.
  - pose proof (add_source_all_or_nothing title ty it iv uuid now db) as H.
    destruct (add_source _ _ _ _ _ _ _) as [[v|e] db']; simpl;
      [destruct H as [_ ->] | subst db'; split; assumption].
    split; simpl.
    + eapply forallb_impl; [|exact Hn]. intros n. apply source_exists_with_source.
    + eapply forallb_impl; [|exact Hl]. intros l. apply source_exists_with_source.
  - pose proof (add_note_all_or_nothing id title content now db) as H.
    destruct (add_note _ _ _ _ _) as [[v|e] db']; simpl;
      [destruct H as [-> Hex] | subst db'; split; assumption].
    split; simpl; [|exact Hl].
    rewrite forallb_app. simpl.
    change (source_exists id (with_note db _)) with (source_exists id db).
    rewrite Hex, andb_true_r. exact Hn.
  - pose proof (update_status_all_or_nothing id st db) as H.
    destruct (update_status _ _ _) as [[v|e] db']; simpl; subst db';
      [|split; assumption].
    split; simpl.
    + eapply forallb_impl; [|exact Hn]. intros n.
      rewrite source_exists_with_status. auto.
    + eapply forallb_impl; [|exact Hl]. intros l.
      rewrite source_exists_with_status. auto.
  - pose proof (link_to_entity_all_or_nothing id name rel notes now db) as H.
    destruct (link_to_entity _ _ _ _ _ _) as [[v|e] db']; simpl;
      [destruct H as [-> Hex] | subst db'; split; assumption].
    split; simpl; [exact Hn|].
    rewrite forallb_app. simpl.
    change (source_exists id (with_link db _)) with (source_exists id db).
    rewrite Hex, andb_true_r. exact Hl.
Qed.

Lemma reachable_store_inv db : reachable db -> store_inv db.
Proof.
  intros [cs ->].
  assert (H : forall db0, store_inv db0 -> store_inv (replay cs db0)).
  { induction cs as [|c cs IH]; intros db0 H0; simpl; [exact H0|].
    apply IH, run_preserves_store_inv, H0. }
  apply H. split; reflexivity.
Qed.

(** ** The title given to add_source *)

(** C9, amended.  add_source checks the source type and the identifier type
    only: with values of the vocabularies, a new identity and a fresh id it
    succeeds for every title, the empty one included, and the source stored
    and read back carries that title. *)
Theorem add_source_stores_any_title title ty it iv uuid now db :
  validate_source_type ty = true ->
  validate_identifier_type it = true ->
  Sql.select_sources_by_identifier ty it iv db = [] ->
  source_exists uuid db = false ->
  exists db',
    add_source title ty it iv uuid now db = (Ok uuid, db') /\
    sources db' =
      (sources db ++ [mkSourceRow uuid title ty {[ it := iv ]} "unread" now])%list /\
    exists d, get_source_by_id uuid db' = (Ok (Some d), db') /\ sd_title d = title.
Proof.
  intros Hty Hit Hnew Hfresh.
  set (row := mkSourceRow uuid title ty {[ it := iv ]} "unread" now).
  exists (with_source db row).
  split; [apply add_source_succeeds; assumption|].
  split; [reflexivity|].
  exists (detail_of row (with_source db row)). rewrite get_source_by_id_eq.
  rewrite (select_by_id_with_source_fresh db row uuid eq_refl Hfresh).
  split; reflexivity.
Qed.

(** ** Concrete runs *)

Lemma example_store_reachable : reachable example_store.
Proof. eexists. reflexivity. Qed.

Lemma get_after_add_round_trip_witness :
  exists d,
    get_source_by_id "id-3"
      (snd (add_source "BERT" "paper" "doi" "10.1000/xyz123" "id-3" 50 example_store)) =
      (Ok (Some d),
       snd (add_source "BERT" "paper" "doi" "10.1000/xyz123" "id-3" 50 example_store)) /\
    sd_id d = "id-3" /\
    sd_title d = "BERT" /\
    sd_type d = "paper" /\
    sd_identifiers d = {[ "doi" := "10.1000/xyz123" ]} /\
    sd_status d = "unread" /\
    sd_notes d = [] /\
    sd_entity_links d = [].
Proof.
  apply (get_after_add_round_trip "BERT" "paper" "doi" "10.1000/xyz123" "id-3" 50
           example_store).
  - apply reachable_store_inv, example_store_reachable.
  - vm_compute; reflexivity.
Defined.

Lemma note_titles_unique_per_source_witness :
  exists db1 db2,
    add_note "id-1" "Key Insights" "first" 50 example_store = (Ok true, db1) /\
    add_note "id-2" "Key Insights" "second" 60 db1 = (Ok true, db2) /\
    add_note "id-1" "Key Insights" "third" 70 db2 =
      (Raise (DbError (Note_already_exists "Key Insights")), db2) /\
    error_kind (Note_already_exists "Key Insights") = ConflictError.
Proof.
  apply (note_titles_unique_per_source
           "id-1" "id-2" "Key Insights" "first" "second" "third" 50 60 70
           example_store); try (vm_compute; reflexivity).
  discriminate.
Defined.

Lemma update_status_contract_witness :
  exists db1 db2 d,
    update_status "id-1" "reading" example_store = (Ok true, db1) /\
    update_status "id-1" "archived" db1 = (Ok true, db2) /\
    get_source_by_id "id-1" db2 = (Ok (Some d), db2) /\
    sd_status d = "archived".
Proof.
  destruct update_status_contract as (_ & _ & H).
  apply (H "id-1" "reading" "archived" example_store).
  - vm_compute; reflexivity.
  - vm_compute; reflexivity.
  - vm_compute; reflexivity.
Defined.

Lemma list_sources_contract_witness :
  0 <= DEFAULT_LIMIT < 2 ^ 63 /\
  match list_sources (Some "paper") (Some "unread") DEFAULT_LIMIT example_store with
  | (Raise e, db') =>
      db' = example_store /\
      ((exists t, Some "paper" = Some t /\ t <> "" /\ (t ∉ VALID_SOURCE_TYPES) /\
                  e = DbError (Invalid_source_type t)) \/
       (exists s, Some "unread" = Some s /\ s <> "" /\ (s ∉ VALID_STATUS_VALUES) /\
                  e = DbError (Invalid_status s) /\
                  forall t, Some "paper" = Some t -> t = "" \/ t ∈ VALID_SOURCE_TYPES))
  | (Ok l, db') =>
      db' = example_store /\
      (forall t, Some "paper" = Some t -> t = "" \/ t ∈ VALID_SOURCE_TYPES) /\
      (forall s, Some "unread" = Some s -> s = "" \/ s ∈ VALID_STATUS_VALUES) /\
      exists ordered,
        Permutation ordered
          (List.filter (matches_filters (Some "paper") (Some "unread"))
                       (sources example_store)) /\
        Sorted (key_ge src_created_at) ordered /\
        l = map to_summary (take (Z.to_nat DEFAULT_LIMIT) ordered) /\
        (List.length l <= Z.to_nat DEFAULT_LIMIT)%nat
  end.
Proof.
  assert (H : 0 <= DEFAULT_LIMIT < 2 ^ 63) by (unfold DEFAULT_LIMIT; lia).
  split; [exact H|].
  exact (list_sources_contract (Some "paper") (Some "unread") DEFAULT_LIMIT
           example_store H).
Defined.

(** The empty string is outside the source-type vocabulary, yet as a filter
    it is taken as "no filter"; a negative limit lifts the cap; a limit that
    does not fit 64 bits is refused by the binding, not by validation. *)
Lemma list_sources_unchecked_arguments :
  validate_source_type "" = false /\
  (exists l, list_sources (Some "") None DEFAULT_LIMIT example_store =
               (Ok l, example_store) /\
             map sum_id l = ["id-2"; "id-1"]) /\
  (exists l, list_sources None None (-1) example_store = (Ok l, example_store) /\
             List.length l = 2%nat) /\
  list_sources None None (2 ^ 63) example_store = (Raise OverflowError, example_store).
Proof.
  split; [reflexivity|]. split; [|split].
  - eexists. split; vm_compute; reflexivity.
  - eexists. split; vm_compute; reflexivity.
  - vm_compute; reflexivity.
Qed.

(** add_source stores a source whose title is the empty string. *)
Lemma add_source_accepts_empty_title :
  exists db',
    add_source "" "paper" "doi" "10.1000/xyz123" "id-3" 50 example_store =
      (Ok "id-3", db') /\
    map src_title (sources db') =
      ["Attention Is All You Need"; "Deep Learning"; ""].
Proof. eexists. split; vm_compute; reflexivity. Qed.

Lemma add_source_stores_any_title_witness :
  exists db',
    add_source "" "paper" "doi" "10.1000/xyz123" "id-3" 50 example_store =
      (Ok "id-3", db') /\
    sources db' =
      (sources example_store ++
       [mkSourceRow "id-3" "" "paper" {[ "doi" := "10.1000/xyz123" ]} "unread" 50])%list /\
    exists d, get_source_by_id "id-3" db' = (Ok (Some d), db') /\ sd_title d = "".
Proof.
  apply (add_source_stores_any_title "" "paper" "doi" "10.1000/xyz123" "id-3" 50
           example_store); vm_compute; reflexivity.
Defined.

(** The example of the specification: "Transformer" ranks the two titles
    that contain it and leaves the third out. *)
Example search_transformer :
  map sum_title
    (Utils.search_sources_by_title
       [ mkSourceSummary "a" "Transformer Networks" "paper" "unread" 1;
         mkSourceSummary "b" "A Study of Transformers" "paper" "unread" 2;
         mkSourceSummary "c" "Unrelated Topic" "paper" "unread" 3 ]
       "Transformer") =
  ["Transformer Networks"; "A Study of Transformers"].
Proof. reflexivity. Qed.

(** The filtering example of the specification. *)
Example list_sources_filters :
  let db := replay [ Add_source "P1" "paper" "arxiv" "1" "p1" 10;
                     Add_source "P2" "paper" "arxiv" "2" "p2" 20;
                     Add_source "B1" "book" "isbn" "3" "b1" 30;
                     Update_status "p2" "completed" ] empty_store in
  listed_ids (list_sources (Some "paper") None DEFAULT_LIMIT db) = Some ["p2"; "p1"] /\
  listed_ids (list_sources None (Some "unread") DEFAULT_LIMIT db) = Some ["b1"; "p1"] /\
  listed_ids (list_sources (Some "paper") (Some "completed") DEFAULT_LIMIT db)
    = Some ["p2"].
Proof. repeat split; vm_compute; reflexivity. Qed.

(** * Further properties of the access layer *)

(** ** What a successful call went through *)

Lemma head_None_nil {A} (l : list A) : head l = None -> l = [].
Proof. destruct l; [reflexivity | discriminate]. Qed.

Lemma add_source_Ok_full title ty it iv uuid now db id db' :
  add_source title ty it iv uuid now db = (Ok id, db') ->
  id = uuid /\
  db' = with_source db (mkSourceRow uuid title ty {[ it := iv ]} "unread" now) /\
  validate_source_type ty = true /\ validate_identifier_type it = true /\
  Sql.select_sources_by_identifier ty it iv db = [] /\
  source_exists uuid db = false.
Proof.
  intros H. apply add_source_Ok_inv in H as (? & ? & ? & ? & Hh & ?).
  apply head_None_nil in Hh. auto 10.
Qed.

Lemma add_note_Ok_full id title content now db v db' :
  add_note id title content now db = (Ok v, db') ->
  v = true /\
  db' = with_note db (mkNoteRow id title content now) /\
  source_exists id db = true /\
  Sql.select_notes_by_key id title db = [].
Proof.
  rewrite add_note_eq. unfold Sql.insert_into_source_notes.
  destruct (head (Sql.select_sources_by_id id db)) eqn:E; [|discriminate].
  assert (source_exists id db = true) by (apply source_exists_select; eauto).
  destruct (Sql.select_notes_by_key id title db); simpl; [|discriminate].
  intros [= <- <-]. auto.
Qed.

Lemma update_status_Ok_full id st db v db' :
  update_status id st db = (Ok v, db') ->
  v = true /\ db' = with_status db id st /\
  validate_status st = true /\ source_exists id db = true.
Proof.
  rewrite update_status_eq, update_sources_status_eq.
  destruct (validate_status st); simpl; [|discriminate].
  destruct (source_exists id db) eqn:E; [|discriminate].
  rewrite (rowcount_positive _ _ E). intros [= <- <-]. auto.
Qed.

Lemma link_to_entity_Ok_full id name rel notes now db v db' :
  link_to_entity id name rel notes now db = (Ok v, db') ->
  v = true /\
  db' = with_link db (mkLinkRow id name rel notes now) /\
  validate_relation_type rel = true /\
  source_exists id db = true /\
  Sql.select_links_by_key id name db = [].
Proof.
  rewrite link_to_entity_eq. unfold Sql.insert_into_source_entity_links.
  rewrite CHECK_links_relation_type_validate.
  destruct (validate_relation_type rel); simpl; [|discriminate].
  destruct (head (Sql.select_sources_by_id id db)) eqn:E; [|discriminate].
  assert (source_exists id db = true) by (apply source_exists_select; eauto).
  destruct (Sql.select_links_by_key id name db); simpl; [|discriminate].
  intros [= <- <-]. auto.
Qed.

(** What a call does to the store, by cases. *)
Lemma run_cases c db :
  snd (run c db) = db \/
  (snd (run c db) = effect c db /\
   match c with
   | Add_source title ty it iv uuid now =>
       validate_source_type ty = true /\ validate_identifier_type it = true /\
       Sql.select_sources_by_identifier ty it iv db = [] /\
       source_exists uuid db = false
   | Add_note id title content now =>
       source_exists id db = true /\ Sql.select_notes_by_key id title db = []
   | Update_status id st =>
       validate_status st = true /\ source_exists id db = true
   | Link_to_entity id name rel notes now =>
       validate_relation_type rel = true /\ source_exists id db = true /\
       Sql.select_links_by_key id name db = []
   end).
Proof.
  pose proof (run_outcome c db) as Hout.
  destruct c as [title ty it iv uuid now | id title content now | id st
                | id name rel notes now]; unfold run, void, bind, ret in *.
  - destruct (add_source _ _ _ _ _ _ _) as [[v|e] db'] eqn:E; simpl in *;
      [right | left; assumption].
    apply add_source_Ok_full in E. split; [assumption | tauto].
  - destruct (add_note _ _ _ _ _) as [[v|e] db'] eqn:E; simpl in *;
      [right | left; assumption].
    apply add_note_Ok_full in E. split; [assumption | tauto].
  - destruct (update_status _ _ _) as [[v|e] db'] eqn:E; simpl in *;
      [right | left; assumption].
    apply update_status_Ok_full in E. split; [assumption | tauto].
  - destruct (link_to_entity _ _ _ _ _ _) as [[v|e] db'] eqn:E; simpl in *;
      [right | left; assumption].
    apply link_to_entity_Ok_full in E. split; [assumption | tauto].
Qed.

(** ** Invariants of the stores the operations produce *)

Lemma reachable_ind (P : Store -> Prop) :
  P empty_store ->
  (forall c db, P db -> P (snd (run c db))) ->
  forall db, reachable db -> P db.
Proof.
  intros H0 Hstep db [cs ->].
  assert (H : forall db0, P db0 -> P (replay cs db0)).
  { induction cs as [|c cs IH]; intros db0 Hdb0; simpl; [exact Hdb0|].
    apply IH, Hstep, Hdb0. }
  apply H, H0.
Qed.

Lemma source_exists_false_notin id db :
  source_exists id db = false <-> id ∉ map src_id (sources db).
Proof.
  unfold source_exists. induction (sources db) as [|r l IH]; simpl.
  - split; [intros _; apply not_elem_of_nil | reflexivity].
  - rewrite not_elem_of_cons, orb_false_iff, IH, bool_decide_eq_false.
    split; intros [H1 H2]; split; auto.
Qed.

Lemma set_status_fixed st id r :
  fixed_columns (Sql.set_status st id r) = fixed_columns r.
Proof. unfold Sql.set_status. destruct (bool_decide _); reflexivity. Qed.

Lemma set_status_src_id st id r : src_id (Sql.set_status st id r) = src_id r.
Proof. unfold Sql.set_status. destruct (bool_decide _); reflexivity. Qed.

Lemma set_status_has_identity ty it iv st id r :
  Sql.has_identity ty it iv (Sql.set_status st id r) = Sql.has_identity ty it iv r.
Proof. unfold Sql.set_status. destruct (bool_decide _); reflexivity. Qed.

Lemma map_src_id_set_status st id l :
  map src_id (map (Sql.set_status st id) l) = map src_id l.
Proof.
  rewrite List.map_map. apply List.map_ext. intros r. apply set_status_src_id.
Qed.

Lemma select_by_identifier_with_status ty it iv id st db :
  Sql.select_sources_by_identifier ty it iv (with_status db id st) =
  map (Sql.set_status st id) (Sql.select_sources_by_identifier ty it iv db).
Proof.
  unfold Sql.select_sources_by_identifier. simpl.
  induction (sources db) as [|r l IH]; simpl; [reflexivity|].
  rewrite set_status_has_identity.
  destruct (Sql.has_identity ty it iv r); simpl; rewrite IH; reflexivity.
Qed.

Lemma below_string_Value text rest v :
  Json.below_string text rest = Json.Value v -> rest = EmptyString /\ v = text.
Proof.
  destruct rest as [|c r]; simpl; [intros [= <-]; auto|].
  destruct (bool_decide (c = "."%char)); [discriminate|].
  destruct (bool_decide (c = "["%char)); [|discriminate].
  destruct (Json.span _ r) as [[|? ?] [|c' ?]];
    repeat match goal with
           | |- context [bool_decide ?P] => destruct (bool_decide P)
           | |- context [match r with _ => _ end] => destruct r
           end; discriminate.
Qed.

(** A row that add_source wrote is matched only through the path of its
    own identifier type, and by the text of its value up to the first
    U+0000. *)
Lemma has_identity_singleton ty it iv ty' it' iv' id title st now :
  it ∈ VALID_IDENTIFIER_TYPES ->
  Sql.has_identity ty' it' iv' (mkSourceRow id title ty {[ it := iv ]} st now) = true ->
  ty = ty' /\ Json.cut_at_nul iv = iv' /\
  forall obj, Sql.json_extract obj it' = Sql.json_extract obj it.
Proof.
  intros [Hplain Hpath]%vocabulary_path.
  unfold Sql.has_identity. simpl. intros [Hty H]%andb_true_iff.
  apply bool_decide_eq_true in Hty.
  unfold Sql.json_extract, Json.lookup in *. rewrite Hpath.
  destruct (Json.path_key (Json.cut_at_nul it')) as [near|[key rest]];
    [discriminate|].
  rewrite member_singleton in H.
  case_bool_decide as Hkey; [|discriminate].
  rewrite (escape_plain _ Hplain) in Hkey. subst key.
  destruct (Json.below_string iv rest) as [v| |] eqn:Hb; try discriminate.
  apply below_string_Value in Hb as [-> ->].
  apply bool_decide_eq_true in H. auto.
Qed.

Lemma has_identity_same_path ty key key' iv r :
  (forall obj, Sql.json_extract obj key' = Sql.json_extract obj key) ->
  Sql.has_identity ty key' iv r = Sql.has_identity ty key iv r.
Proof. intros H. unfold Sql.has_identity. rewrite H. reflexivity. Qed.

Lemma nul_free_row_singleton id title ty it iv st now :
  nul_free_row (mkSourceRow id title ty {[ it := iv ]} st now) =
  bool_decide (nul_free iv).
Proof.
  unfold nul_free_row. simpl. apply bool_decide_ext.
  rewrite map_Forall_singleton. reflexivity.
Qed.

Lemma nul_free_row_set_status st id r :
  nul_free_row (Sql.set_status st id r) = nul_free_row r.
Proof. unfold Sql.set_status. destruct (bool_decide _); reflexivity. Qed.

Lemma filter_map_commute {A} (p : A -> bool) (f : A -> A) l :
  (forall x, p (f x) = p x) ->
  List.filter p (map f l) = map f (List.filter p l).
Proof.
  intros H. induction l as [|x l IH]; simpl; [reflexivity|].
  rewrite H. destruct (p x); simpl; rewrite IH; reflexivity.
Qed.

Lemma ids_unique_step c db :
  NoDup (map src_id (sources db)) ->
  NoDup (map src_id (sources (snd (run c db)))).
Proof.
  intros Hnd. destruct (run_cases c db) as [-> | [-> Hc]]; [exact Hnd|].
  destruct c; simpl; try exact Hnd.
  - destruct Hc as (_ & _ & _ & Hfresh).
    rewrite map_app. simpl. apply NoDup_app. split; [exact Hnd|]. split.
    + intros x Hx Hin. apply list_elem_of_singleton in Hin as ->.
      apply source_exists_false_notin in Hfresh. contradiction.
    + apply NoDup_singleton.
  - rewrite map_src_id_set_status. exact Hnd.
Qed.

Lemma identities_unique_step c db :
  (forall ty it iv,
      (List.length (List.filter nul_free_row
                      (Sql.select_sources_by_identifier ty it iv db)) <= 1)%nat) ->
  forall ty it iv,
    (List.length (List.filter nul_free_row
                    (Sql.select_sources_by_identifier ty it iv (snd (run c db))))
     <= 1)%nat.
Proof.
  intros Hinv ty' it' iv'.
  destruct (run_cases c db) as [-> | [-> Hc]]; [apply Hinv|].
  destruct c as [title ty it iv uuid now | | id st |]; simpl;
    try apply Hinv.
  - destruct Hc as (_ & Hit & Hnew & _).
    apply validate_identifier_type_in in Hit.
    change (mkStore _ _ _)
      with (with_source db (mkSourceRow uuid title ty {[ it := iv ]} "unread" now)).
    rewrite select_with_source, List.filter_app, length_app.
    destruct (Sql.has_identity ty' it' iv' _) eqn:E; simpl;
      [|specialize (Hinv ty' it' iv'); lia].
    rewrite nul_free_row_singleton.
    case_bool_decide as Hfree; simpl; [|specialize (Hinv ty' it' iv'); lia].
    apply (has_identity_singleton _ _ _ _ _ _ _ _ _ _ Hit) in E
      as (<- & Hcut & Hpath).
    rewrite Hfree in Hcut. subst iv'.
    assert (Hsel : Sql.select_sources_by_identifier ty it' iv db = []).
    { rewrite <- Hnew. unfold Sql.select_sources_by_identifier.
      apply List.filter_ext. intros r. apply has_identity_same_path, Hpath. }
    rewrite Hsel. simpl. lia.
  - change (mkStore _ _ _) with (with_status db id st).
    rewrite select_by_identifier_with_status.
    rewrite filter_map_commute by apply nul_free_row_set_status.
    rewrite length_map. apply Hinv.
Qed.

Lemma filter_nul_free_rows ty it iv db :
  Forall (fun r => nul_free_row r = true) (sources db) ->
  List.filter nul_free_row (Sql.select_sources_by_identifier ty it iv db) =
  Sql.select_sources_by_identifier ty it iv db.
Proof.
  intros Hall. apply filter_all_true, List.forallb_forall. intros r Hr.
  apply List.filter_In in Hr as [Hr _].
  rewrite List.Forall_forall in Hall. apply Hall, Hr.
Qed.

Lemma reachable_identities_unique db :
  reachable db ->
  forall ty it iv,
    (List.length (List.filter nul_free_row
                    (Sql.select_sources_by_identifier ty it iv db)) <= 1)%nat.
Proof.
  revert db.
  apply (reachable_ind (fun db => forall ty it iv,
    (List.length (List.filter nul_free_row
       (Sql.select_sources_by_identifier ty it iv db)) <= 1)%nat));
    [intros; simpl; lia|].
  apply identities_unique_step.
Qed.

(** X1.  In every store the four mutating operations can produce from the
    empty one, source ids are pairwise distinct, and the identity query
    (type, identifier type, identifier value) never returns more than one
    source whose identifier value is free of U+0000; so it returns at most
    one source when no stored identifier value contains U+0000. *)
Theorem reachable_sources_have_unique_identity db :
  reachable db ->
  NoDup (map src_id (sources db)) /\
  (forall ty it iv,
      (List.length (List.filter nul_free_row
                      (Sql.select_sources_by_identifier ty it iv db)) <= 1)%nat) /\
  (Forall (fun r => nul_free_row r = true) (sources db) ->
   forall ty it iv,
     (List.length (Sql.select_sources_by_identifier ty it iv db) <= 1)%nat).
Proof.
  intros Hr.
  pose proof (reachable_identities_unique db Hr) as Hone.
  split; [|split; [exact Hone|]].
  - clear Hone. revert db Hr.
    apply (reachable_ind (fun db => NoDup (map src_id (sources db))));
      [constructor|].
    apply ids_unique_step.
  - intros Hall ty it iv. rewrite <- (filter_nul_free_rows _ _ _ _ Hall).
    apply Hone.
Qed.

Lemma reachable_sources_have_unique_identity_witness :
  NoDup (map src_id (sources example_store)) /\
  (forall ty it iv,
      (List.length (List.filter nul_free_row
         (Sql.select_sources_by_identifier ty it iv example_store)) <= 1)%nat) /\
  (Forall (fun r => nul_free_row r = true) (sources example_store) ->
   forall ty it iv,
     (List.length (Sql.select_sources_by_identifier ty it iv example_store)
      <= 1)%nat).
Proof.
  exact (reachable_sources_have_unique_identity example_store
           example_store_reachable).
Defined.

Lemma set_status_row_ok st id r :
  validate_status st = true -> source_row_ok r ->
  source_row_ok (Sql.set_status st id r).
Proof.
  intros Hst (Ht & Hs & Hi). unfold Sql.set_status.
  destruct (bool_decide _); [|repeat split; assumption].
  repeat split; assumption.
Qed.

Lemma rows_ok_step c db :
  Forall source_row_ok (sources db) /\
  Forall (fun l => validate_relation_type (link_relation_type l) = true)
         (source_entity_links db) ->
  Forall source_row_ok (sources (snd (run c db))) /\
  Forall (fun l => validate_relation_type (link_relation_type l) = true)
         (source_entity_links (snd (run c db))).
Proof.
  intros [Hs Hl]. destruct (run_cases c db) as [-> | [-> Hc]]; [auto|].
  destruct c as [title ty it iv uuid now | | id st | id name rel notes now];
    simpl; split; try assumption.
  - destruct Hc as (Hty & Hit & _ & _).
    apply Forall_app. split; [exact Hs|]. repeat constructor; simpl; eauto.
  - destruct Hc as (Hst & _). apply Forall_fmap.
    eapply Forall_impl; [exact Hs|]. intros r. apply set_status_row_ok, Hst.
  - destruct Hc as (Hrel & _). apply Forall_app. split; [exact Hl|].
    repeat constructor. exact Hrel.
Qed.

(** X2.  In every such store each source has a type and a status of the
    vocabularies and exactly one identifier, under a key of the
    identifier-type vocabulary; each link has a relation type of the
    vocabulary. *)
Theorem reachable_rows_hold_vocabulary_values db :
  reachable db ->
  Forall source_row_ok (sources db) /\
  Forall (fun l => validate_relation_type (link_relation_type l) = true)
         (source_entity_links db).
Proof.
  revert db.
  apply (reachable_ind (fun db =>
    Forall source_row_ok (sources db) /\
    Forall (fun l => validate_relation_type (link_relation_type l) = true)
           (source_entity_links db))); [split; constructor|].
  apply rows_ok_step.
Qed.

Lemma reachable_rows_hold_vocabulary_values_witness :
  Forall source_row_ok (sources example_store) /\
  Forall (fun l => validate_relation_type (link_relation_type l) = true)
         (source_entity_links example_store).
Proof.
  exact (reachable_rows_hold_vocabulary_values example_store
           example_store_reachable).
Defined.

Lemma select_notes_by_key_nil id title db :
  Sql.select_notes_by_key id title db = [] ->
  (id, title) ∉ map note_key (source_notes db).
Proof.
  unfold Sql.select_notes_by_key. induction (source_notes db) as [|n l IH]; simpl.
  - intros _. apply not_elem_of_nil.
  - destruct (bool_decide (note_source_id n = id)
              && bool_decide (note_title n = title)) eqn:E; [discriminate|].
    intros H. apply not_elem_of_cons. split; [|apply IH, H].
    unfold note_key. intros [= -> ->].
    rewrite !bool_decide_eq_true_2 in E by reflexivity. discriminate.
Qed.

Lemma select_links_by_key_nil id name db :
  Sql.select_links_by_key id name db = [] ->
  (id, name) ∉ map link_key (source_entity_links db).
Proof.
  unfold Sql.select_links_by_key.
  induction (source_entity_links db) as [|n l IH]; simpl.
  - intros _. apply not_elem_of_nil.
  - destruct (bool_decide (link_source_id n = id)
              && bool_decide (link_entity_name n = name)) eqn:E; [discriminate|].
    intros H. apply not_elem_of_cons. split; [|apply IH, H].
    unfold link_key. intros [= -> ->].
    rewrite !bool_decide_eq_true_2 in E by reflexivity. discriminate.
Qed.

Lemma NoDup_snoc_fresh {A} (l : list A) (x : A) :
  NoDup l -> x ∉ l -> NoDup (l ++ [x]).
Proof.
  intros Hnd Hx. apply NoDup_app. split; [exact Hnd|]. split.
  - intros y Hy Hin. apply list_elem_of_singleton in Hin as ->. contradiction.
  - apply NoDup_singleton.
Qed.

Lemma keys_unique_step c db :
  NoDup (map note_key (source_notes db)) /\
  NoDup (map link_key (source_entity_links db)) ->
  NoDup (map note_key (source_notes (snd (run c db)))) /\
  NoDup (map link_key (source_entity_links (snd (run c db)))).
Proof.
  intros [Hn Hl]. destruct (run_cases c db) as [-> | [-> Hc]]; [auto|].
  destruct c as [| id title content now | | id name rel notes now];
    simpl; split; try assumption.
  - destruct Hc as (_ & Hnew). rewrite map_app. simpl.
    apply NoDup_snoc_fresh; [exact Hn|]. apply select_notes_by_key_nil, Hnew.
  - destruct Hc as (_ & _ & Hnew). rewrite map_app. simpl.
    apply NoDup_snoc_fresh; [exact Hl|]. apply select_links_by_key_nil, Hnew.
Qed.

(** X3.  In every such store no two notes share (source id, note title), no
    two links share (source id, entity name), and every note and link
    carries the id of a stored source. *)
Theorem reachable_notes_and_links_are_keyed db :
  reachable db ->
  NoDup (map note_key (source_notes db)) /\
  NoDup (map link_key (source_entity_links db)) /\
  Forall (fun n => note_source_id n ∈ map src_id (sources db)) (source_notes db) /\
  Forall (fun l => link_source_id l ∈ map src_id (sources db))
         (source_entity_links db).
Proof.
  intros Hr.
  assert (Hk : NoDup (map note_key (source_notes db)) /\
               NoDup (map link_key (source_entity_links db))).
  { revert db Hr.
    apply (reachable_ind (fun db =>
      NoDup (map note_key (source_notes db)) /\
      NoDup (map link_key (source_entity_links db)))); [split; constructor|].
    apply keys_unique_step. }
  destruct Hk as [Hn Hl]. split; [exact Hn|]. split; [exact Hl|].
  destruct (reachable_store_inv db Hr) as [Hin Hil].
  assert (Hex : forall id, source_exists id db = true ->
                           id ∈ map src_id (sources db)).
  { intros id H. destruct (decide (id ∈ map src_id (sources db))); [assumption|].
    apply source_exists_false_notin in n. congruence. }
  split; apply List.Forall_forall; intros x Hx; apply Hex.
  - apply (proj1 (List.forallb_forall _ _) Hin x Hx).
  - apply (proj1 (List.forallb_forall _ _) Hil x Hx).
Qed.

Lemma reachable_notes_and_links_are_keyed_witness :
  NoDup (map note_key (source_notes example_store)) /\
  NoDup (map link_key (source_entity_links example_store)) /\
  Forall (fun n => note_source_id n ∈ map src_id (sources example_store))
         (source_notes example_store) /\
  Forall (fun l => link_source_id l ∈ map src_id (sources example_store))
         (source_entity_links example_store).
Proof.
  exact (reachable_notes_and_links_are_keyed example_store
           example_store_reachable).
Defined.

(** ** Append-only tables *)

Lemma run_grows c db :
  map fixed_columns (sources db)
    `prefix_of` map fixed_columns (sources (snd (run c db))) /\
  source_notes db `prefix_of` source_notes (snd (run c db)) /\
  source_entity_links db `prefix_of` source_entity_links (snd (run c db)).
Proof.
  destruct (run_cases c db) as [-> | [-> _]]; [repeat split; reflexivity|].
  destruct c as [| | id st |]; simpl; repeat split; try reflexivity.
  - rewrite map_app. apply prefix_app_r. reflexivity.
  - apply prefix_app_r. reflexivity.
  - rewrite List.map_map.
    rewrite (List.map_ext _ _ (set_status_fixed st id)).
    reflexivity.
  - apply prefix_app_r. reflexivity.
Qed.

(** X4.  Whatever sequence of calls is made, on any store: no source, note
    or link row is removed or reordered, notes and links are never changed,
    and of a source only the status ever changes (id, title, type,
    identifiers and created_at stay as inserted). *)
Theorem tables_only_grow cs db :
  map fixed_columns (sources db)
    `prefix_of` map fixed_columns (sources (replay cs db)) /\
  source_notes db `prefix_of` source_notes (replay cs db) /\
  source_entity_links db `prefix_of` source_entity_links (replay cs db).
Proof.
  revert db. induction cs as [|c cs IH]; intros db; simpl.
  - repeat split; reflexivity.
  - destruct (run_grows c db) as (H1 & H2 & H3).
    destruct (IH (snd (run c db))) as (I1 & I2 & I3).
    repeat split; etrans; eassumption.
Qed.

(** ** Outcomes of the mutating operations, by cases *)

Lemma source_exists_true_in id db :
  source_exists id db = true <-> id ∈ map src_id (sources db).
Proof.
  destruct (source_exists id db) eqn:E.
  - split; [intros _ | reflexivity].
    destruct (decide (id ∈ map src_id (sources db))) as [|n]; [assumption|].
    apply source_exists_false_notin in n. congruence.
  - apply source_exists_false_notin in E. split; [discriminate | contradiction].
Qed.

Lemma select_notes_by_key_in id title db :
  Sql.select_notes_by_key id title db <> [] <->
  (id, title) ∈ map note_key (source_notes db).
Proof.
  split.
  - intros H. destruct (decide ((id, title) ∈ map note_key (source_notes db)))
      as [|n]; [assumption|]. exfalso. apply H. clear H.
    unfold Sql.select_notes_by_key.
    induction (source_notes db) as [|x l IH]; simpl in *; [reflexivity|].
    apply not_elem_of_cons in n as [Hx Hl].
    destruct (bool_decide (note_source_id x = id)
              && bool_decide (note_title x = title)) eqn:E; [|apply IH, Hl].
    apply andb_true_iff in E as [E1 E2].
    apply bool_decide_eq_true in E1, E2. exfalso. apply Hx.
    unfold note_key. congruence.
  - intros Hin Hnil. apply select_notes_by_key_nil in Hnil. contradiction.
Qed.

Lemma select_links_by_key_in id name db :
  Sql.select_links_by_key id name db <> [] <->
  (id, name) ∈ map link_key (source_entity_links db).
Proof.
  split.
  - intros H.
    destruct (decide ((id, name) ∈ map link_key (source_entity_links db)))
      as [|n]; [assumption|]. exfalso. apply H. clear H.
    unfold Sql.select_links_by_key.
    induction (source_entity_links db) as [|x l IH]; simpl in *; [reflexivity|].
    apply not_elem_of_cons in n as [Hx Hl].
    destruct (bool_decide (link_source_id x = id)
              && bool_decide (link_entity_name x = name)) eqn:E; [|apply IH, Hl].
    apply andb_true_iff in E as [E1 E2].
    apply bool_decide_eq_true in E1, E2. exfalso. apply Hx.
    unfold link_key. congruence.
  - intros Hin Hnil. apply select_links_by_key_nil in Hnil. contradiction.
Qed.

Lemma validate_relation_type_in rel :
  validate_relation_type rel = true <-> rel ∈ VALID_RELATION_TYPES.
Proof. apply bool_decide_eq_true. Qed.

(** X5.  link_to_entity, on every input and store: it succeeds exactly when
    the relation type is in the vocabulary, the source exists and the pair
    (source, entity) has no link, and then appends the link; otherwise the
    store is unchanged and the error is, in this order of precedence,
    "Invalid relation type", "Source not found" or "Link already exists".
    Its handler for sqlite3.Error is never reached. *)
Theorem link_to_entity_outcomes id name rel notes now db :
  match link_to_entity id name rel notes now db with
  | (Ok v, db') =>
      v = true /\
      db' = with_link db (mkLinkRow id name rel notes now) /\
      rel ∈ VALID_RELATION_TYPES /\
      id ∈ map src_id (sources db) /\
      (id, name) ∉ map link_key (source_entity_links db)
  | (Raise e, db') =>
      db' = db /\
      ((e = DbError (Invalid_relation_type rel) /\ rel ∉ VALID_RELATION_TYPES) \/
       (e = DbError (Source_not_found id) /\ rel ∈ VALID_RELATION_TYPES /\
        id ∉ map src_id (sources db)) \/
       (e = DbError (Link_already_exists name) /\ rel ∈ VALID_RELATION_TYPES /\
        id ∈ map src_id (sources db) /\
        (id, name) ∈ map link_key (source_entity_links db)))
  end.
Proof.
  rewrite link_to_entity_eq. unfold Sql.insert_into_source_entity_links.
  rewrite CHECK_links_relation_type_validate.
  destruct (validate_relation_type rel) eqn:Hrel; simpl.
  2:{ split; [reflexivity|]. left. split; [reflexivity|].
      rewrite <- validate_relation_type_in. congruence. }
  apply validate_relation_type_in in Hrel.
  destruct (head (Sql.select_sources_by_id id db)) eqn:Hsrc.
  2:{ split; [reflexivity|]. right. left. repeat split; try assumption.
      apply source_exists_false_notin, source_exists_false.
      apply head_None_nil, Hsrc. }
  assert (Hin : id ∈ map src_id (sources db))
    by (apply source_exists_true_in, source_exists_select; eauto).
  destruct (Sql.select_links_by_key id name db) eqn:Hkey; simpl.
  - repeat split; try assumption. apply select_links_by_key_nil, Hkey.
  - split; [reflexivity|]. right. right. repeat split; try assumption.
    apply select_links_by_key_in. rewrite Hkey. discriminate.
Qed.

(** X6.  add_note, on every input and store: it succeeds exactly when the
    source exists and has no note of that title, and then appends the note;
    otherwise the store is unchanged and the error is "Source not found"
    (missing source) or "Note ... already exists".  Its handler for
    sqlite3.Error is never reached. *)
Theorem add_note_outcomes id title content now db :
  match add_note id title content now db with
  | (Ok v, db') =>
      v = true /\
      db' = with_note db (mkNoteRow id title content now) /\
      id ∈ map src_id (sources db) /\
      (id, title) ∉ map note_key (source_notes db)
  | (Raise e, db') =>
      db' = db /\
      ((e = DbError (Source_not_found id) /\ id ∉ map src_id (sources db)) \/
       (e = DbError (Note_already_exists title) /\
        id ∈ map src_id (sources db) /\
        (id, title) ∈ map note_key (source_notes db)))
  end.
Proof.
  rewrite add_note_eq. unfold Sql.insert_into_source_notes.
  destruct (head (Sql.select_sources_by_id id db)) eqn:Hsrc.
  2:{ split; [reflexivity|]. left. split; [reflexivity|].
      apply source_exists_false_notin, source_exists_false.
      apply head_None_nil, Hsrc. }
  assert (Hin : id ∈ map src_id (sources db))
    by (apply source_exists_true_in, source_exists_select; eauto).
  destruct (Sql.select_notes_by_key id title db) eqn:Hkey; simpl.
  - repeat split; try assumption. apply select_notes_by_key_nil, Hkey.
  - split; [reflexivity|]. right. repeat split; try assumption.
    apply select_notes_by_key_in. rewrite Hkey. discriminate.
Qed.

Lemma has_identity_vocabulary_iff ty it iv r :
  it ∈ VALID_IDENTIFIER_TYPES ->
  Sql.has_identity ty it iv r = true <->
  src_type r = ty /\
  exists v, src_identifiers r !! it = Some v /\ Json.cut_at_nul v = iv.
Proof.
  intros Hit. rewrite (has_identity_vocabulary _ _ _ _ Hit), andb_true_iff,
    !bool_decide_eq_true.
  destruct (src_identifiers r !! it) as [v|]; cbn [fmap option_fmap option_map].
  - split; intros [Hty H]; (split; [exact Hty|]).
    + exists v. split; congruence.
    + destruct H as (v' & [= <-] & <-). reflexivity.
  - split; intros [Hty H]; [discriminate | destruct H as (? & ? & _); discriminate].
Qed.

Lemma select_nil_vocabulary ty it iv db :
  it ∈ VALID_IDENTIFIER_TYPES ->
  Sql.select_sources_by_identifier ty it iv db = [] <->
  forall row v, row ∈ sources db -> src_type row = ty ->
                src_identifiers row !! it = Some v -> Json.cut_at_nul v <> iv.
Proof.
  intros Hit. unfold Sql.select_sources_by_identifier. split.
  - intros Hnil row v Hin Hty Hv Hcut.
    assert (H : In row (List.filter (Sql.has_identity ty it iv) (sources db))).
    { apply List.filter_In. split; [apply list_elem_of_In, Hin|].
      apply (has_identity_vocabulary_iff _ _ _ _ Hit). eauto. }
    rewrite Hnil in H. destruct H.
  - intros Hnone. apply filter_all_false, List.Forall_forall. intros row Hin.
    destruct (Sql.has_identity ty it iv row) eqn:E; [|reflexivity].
    apply (has_identity_vocabulary_iff _ _ _ _ Hit) in E as (Hty & v & Hv & Hcut).
    destruct (Hnone row v); auto. apply list_elem_of_In, Hin.
Qed.

Lemma head_Some_In {A} (l : list A) x : head l = Some x -> In x l.
Proof. destruct l; [discriminate|]. intros [= ->]. left. reflexivity. Qed.

(** X7.  add_source, on every input and store: the error is "Invalid source
    type", else "Invalid identifier type", else "Source already exists" with
    the id of a stored source of the type whose value under the identifier
    type, read up to its first U+0000, is the given value, else "Failed to
    add source" exactly when the generated id is already the id of a stored
    source; in all these cases the store is unchanged.  Otherwise no stored
    source matches in that way, and it succeeds and appends the row. *)
Theorem add_source_outcomes title ty it iv uuid now db :
  match add_source title ty it iv uuid now db with
  | (Ok id, db') =>
      id = uuid /\
      db' = with_source db (mkSourceRow uuid title ty {[ it := iv ]} "unread" now) /\
      ty ∈ VALID_SOURCE_TYPES /\ it ∈ VALID_IDENTIFIER_TYPES /\
      (forall row v, row ∈ sources db -> src_type row = ty ->
                     src_identifiers row !! it = Some v ->
                     Json.cut_at_nul v <> iv) /\
      uuid ∉ map src_id (sources db)
  | (Raise e, db') =>
      db' = db /\
      ((e = DbError (Invalid_source_type ty) /\ ty ∉ VALID_SOURCE_TYPES) \/
       (e = DbError (Invalid_identifier_type it) /\ ty ∈ VALID_SOURCE_TYPES /\
        it ∉ VALID_IDENTIFIER_TYPES) \/
       (exists row v,
           e = DbError (Source_already_exists (src_id row)) /\
           ty ∈ VALID_SOURCE_TYPES /\ it ∈ VALID_IDENTIFIER_TYPES /\
           row ∈ sources db /\ src_type row = ty /\
           src_identifiers row !! it = Some v /\ Json.cut_at_nul v = iv) \/
       (e = DbError (Failed_to_add_source
                       (UNIQUE_constraint_failed "sources.id")) /\
        ty ∈ VALID_SOURCE_TYPES /\ it ∈ VALID_IDENTIFIER_TYPES /\
        (forall row v, row ∈ sources db -> src_type row = ty ->
                       src_identifiers row !! it = Some v ->
                       Json.cut_at_nul v <> iv) /\
        uuid ∈ map src_id (sources db)))
  end.
Proof.
  rewrite add_source_eq, insert_into_sources_eq.
  unfold validate_source_type, validate_identifier_type.
  case_bool_decide as Hty; simpl; [|auto].
  case_bool_decide as Hit; simpl; [|auto 6].
  destruct (head (Sql.select_sources_by_identifier ty it iv db)) as [row|] eqn:Hsel.
  - split; [reflexivity|]. right. right. left.
    apply head_Some_In, List.filter_In in Hsel as [Hin Hid].
    apply (has_identity_vocabulary_iff _ _ _ _ Hit) in Hid as (Hrty & v & Hv & Hcut).
    exists row, v. repeat split; try assumption. apply list_elem_of_In, Hin.
  - apply head_None_nil in Hsel.
    pose proof (proj1 (select_nil_vocabulary ty it iv db Hit) Hsel) as Hnone.
    clear Hsel. rename Hnone into Hsel.
    destruct (source_exists uuid db) eqn:Hex.
    + split; [reflexivity|]. right. right. right.
      split; [reflexivity|]. split; [exact Hty|]. split; [exact Hit|].
      split; [exact Hsel|]. apply source_exists_true_in, Hex.
    + split; [reflexivity|]. split; [reflexivity|]. split; [exact Hty|].
      split; [exact Hit|]. split; [exact Hsel|].
      apply source_exists_false_notin, Hex.
Qed.

(** X8.  Entity links are unique per source, not globally: for two distinct
    existing sources A and B without a link to entity E, linking A to E
    succeeds, linking B to E succeeds, and linking A to E again raises
    "Link already exists", whatever the relation types and notes. *)
Theorem entity_links_unique_per_source
    A B E rel1 rel2 rel3 notes1 notes2 notes3 now1 now2 now3 db :
  A <> B ->
  source_exists A db = true ->
  source_exists B db = true ->
  validate_relation_type rel1 = true ->
  validate_relation_type rel2 = true ->
  validate_relation_type rel3 = true ->
  Sql.select_links_by_key A E db = [] ->
  Sql.select_links_by_key B E db = [] ->
  exists db1 db2,
    link_to_entity A E rel1 notes1 now1 db = (Ok true, db1) /\
    link_to_entity B E rel2 notes2 now2 db1 = (Ok true, db2) /\
    link_to_entity A E rel3 notes3 now3 db2 =
      (Raise (DbError (Link_already_exists E)), db2).
Proof.
  intros HAB HA HB H1 H2 H3 HnA HnB.
  set (l1 := mkLinkRow A E rel1 notes1 now1).
  set (l2 := mkLinkRow B E rel2 notes2 now2).
  assert (Hsel : forall id db0 l,
    Sql.select_links_by_key id E (with_link db0 l) =
    (Sql.select_links_by_key id E db0 ++
     if bool_decide (link_source_id l = id) && bool_decide (link_entity_name l = E)
     then [l] else [])%list).
  { intros id db0 l. unfold Sql.select_links_by_key. simpl.
    rewrite List.filter_app. simpl. destruct (_ && _); reflexivity. }
  assert (Hok : forall id rel notes now db0,
    validate_relation_type rel = true -> source_exists id db0 = true ->
    Sql.select_links_by_key id E db0 = [] ->
    link_to_entity id E rel notes now db0 =
    (Ok true, with_link db0 (mkLinkRow id E rel notes now))).
  { intros id rel notes now db0 Hrel Hex Hnew.
    apply source_exists_select in Hex as [r Hr].
    rewrite link_to_entity_eq, Hrel, Hr. simpl.
    unfold Sql.insert_into_source_entity_links.
    rewrite CHECK_links_relation_type_validate, Hrel, Hnew. reflexivity. }
  exists (with_link db l1), (with_link (with_link db l1) l2).
  split; [apply Hok; assumption|]. split.
  - apply Hok; [assumption | exact HB |].
    rewrite Hsel, HnB. simpl.
    rewrite (bool_decide_eq_false_2 (A = B) HAB). reflexivity.
  - rewrite link_to_entity_eq, H3. simpl.
    apply source_exists_select in HA as [r Hr].
    change (Sql.select_sources_by_id A (with_link (with_link db l1) l2))
      with (Sql.select_sources_by_id A db).
    rewrite Hr, !Hsel, HnA. simpl.
    rewrite !bool_decide_eq_true_2 by reflexivity. reflexivity.
Qed.

Lemma entity_links_unique_per_source_witness :
  exists db1 db2,
    link_to_entity "id-1" "attention" "discusses" None 50 example_store =
      (Ok true, db1) /\
    link_to_entity "id-2" "attention" "evaluates" (Some "chapter 12") 60 db1 =
      (Ok true, db2) /\
    link_to_entity "id-1" "attention" "extends" None 70 db2 =
      (Raise (DbError (Link_already_exists "attention")), db2).
Proof.
  apply (entity_links_unique_per_source
           "id-1" "id-2" "attention" "discusses" "evaluates" "extends"
           None (Some "chapter 12") None 50 60 70 example_store);
    try (vm_compute; reflexivity).
  discriminate.
Defined.

(** ** Reading back what was written *)

Lemma Sorted_map_key {A B} (f : A -> B) (ka : A -> Z) (kb : B -> Z) (l : list A) :
  (forall x, kb (f x) = ka x) ->
  Sorted (key_ge ka) l -> Sorted (key_ge kb) (map f l).
Proof.
  intros Hk. induction 1 as [|x l Hs IH Hhd]; simpl; constructor; [exact IH|].
  destruct Hhd as [|y l Hy]; simpl; constructor.
  unfold key_ge in *. rewrite !Hk. exact Hy.
Qed.

Lemma sort_desc_snoc_perm {A} (key : A -> Z) (l : list A) (x : A) :
  Permutation (Order.sort_desc key (l ++ [x])) (x :: Order.sort_desc key l).
Proof.
  rewrite !sort_desc_perm. rewrite Permutation_app_comm. reflexivity.
Qed.

(** X9.  After a successful add_note, get_source_by_id of that source shows
    the notes it showed before plus the new note (title, content, time),
    newest first, with the links and all other fields unchanged. *)
Theorem added_note_is_read_back id title content now db v db' :
  add_note id title content now db = (Ok v, db') ->
  exists d d',
    get_source_by_id id db = (Ok (Some d), db) /\
    get_source_by_id id db' = (Ok (Some d'), db') /\
    Permutation (sd_notes d') (mkNoteView title content now :: sd_notes d) /\
    Sorted (key_ge nv_created_at) (sd_notes d') /\
    sd_entity_links d' = sd_entity_links d /\
    (sd_id d', sd_title d', sd_type d', sd_identifiers d', sd_status d',
     sd_created_at d') =
    (sd_id d, sd_title d, sd_type d, sd_identifiers d, sd_status d,
     sd_created_at d).
Proof.
  intros H. apply add_note_Ok_full in H as (-> & -> & Hex & _).
  apply source_exists_select in Hex as [row Hrow].
  pose proof (select_sources_by_id_src_id _ _ _ Hrow) as Hid.
  set (n := mkNoteRow id title content now).
  exists (detail_of row db), (detail_of row (with_note db n)).
  rewrite !get_source_by_id_eq.
  change (Sql.select_sources_by_id id (with_note db n))
    with (Sql.select_sources_by_id id db).
  rewrite Hrow. split; [reflexivity|]. split; [reflexivity|].
  unfold detail_of. simpl. rewrite Hid.
  assert (Hsel : Sql.select_notes_by_source id (with_note db n) =
                 (Sql.select_notes_by_source id db ++ [n])%list).
  { unfold Sql.select_notes_by_source. simpl. rewrite List.filter_app. simpl.
    rewrite bool_decide_eq_true_2 by reflexivity. reflexivity. }
  rewrite Hsel. repeat split.
  - rewrite sort_desc_snoc_perm. reflexivity.
  - apply (Sorted_map_key _ note_created_at); [reflexivity|].
    apply sort_desc_sorted.
Qed.

Lemma added_note_is_read_back_witness :
  exists d d',
    get_source_by_id "id-1" example_store = (Ok (Some d), example_store) /\
    get_source_by_id "id-1"
      (snd (add_note "id-1" "Method" "Self-attention" 50 example_store)) =
      (Ok (Some d'),
       snd (add_note "id-1" "Method" "Self-attention" 50 example_store)) /\
    Permutation (sd_notes d')
                (mkNoteView "Method" "Self-attention" 50 :: sd_notes d) /\
    Sorted (key_ge nv_created_at) (sd_notes d') /\
    sd_entity_links d' = sd_entity_links d /\
    (sd_id d', sd_title d', sd_type d', sd_identifiers d', sd_status d',
     sd_created_at d') =
    (sd_id d, sd_title d, sd_type d, sd_identifiers d, sd_status d,
     sd_created_at d).
Proof.
  apply (added_note_is_read_back "id-1" "Method" "Self-attention" 50
           example_store true).
  vm_compute; reflexivity.
Defined.

(** X10.  After a successful link_to_entity, get_source_by_id of that source
    shows the links it showed before plus the new one (entity, relation
    type, notes, time), with the notes and all other fields unchanged. *)
Theorem added_link_is_read_back id name rel notes now db v db' :
  link_to_entity id name rel notes now db = (Ok v, db') ->
  exists d d',
    get_source_by_id id db = (Ok (Some d), db) /\
    get_source_by_id id db' = (Ok (Some d'), db') /\
    Permutation (sd_entity_links d')
                (mkLinkView name rel notes now :: sd_entity_links d) /\
    sd_notes d' = sd_notes d /\
    (sd_id d', sd_title d', sd_type d', sd_identifiers d', sd_status d',
     sd_created_at d') =
    (sd_id d, sd_title d, sd_type d, sd_identifiers d, sd_status d,
     sd_created_at d).
Proof.
  intros H. apply link_to_entity_Ok_full in H as (-> & -> & _ & Hex & _).
  apply source_exists_select in Hex as [row Hrow].
  pose proof (select_sources_by_id_src_id _ _ _ Hrow) as Hid.
  set (l := mkLinkRow id name rel notes now).
  exists (detail_of row db), (detail_of row (with_link db l)).
  rewrite !get_source_by_id_eq.
  change (Sql.select_sources_by_id id (with_link db l))
    with (Sql.select_sources_by_id id db).
  rewrite Hrow. split; [reflexivity|]. split; [reflexivity|].
  unfold detail_of. simpl. rewrite Hid.
  assert (Hsel : Sql.select_links_by_source id (with_link db l) =
                 (Sql.select_links_by_source id db ++ [l])%list).
  { unfold Sql.select_links_by_source. simpl. rewrite List.filter_app. simpl.
    rewrite bool_decide_eq_true_2 by reflexivity. reflexivity. }
  rewrite Hsel, map_app. simpl. repeat split.
  rewrite Permutation_app_comm. reflexivity.
Qed.

Lemma added_link_is_read_back_witness :
  exists d d',
    get_source_by_id "id-2" example_store = (Ok (Some d), example_store) /\
    get_source_by_id "id-2"
      (snd (link_to_entity "id-2" "backpropagation" "discusses" None 50
              example_store)) =
      (Ok (Some d'),
       snd (link_to_entity "id-2" "backpropagation" "discusses" None 50
              example_store)) /\
    Permutation (sd_entity_links d')
                (mkLinkView "backpropagation" "discusses" None 50
                 :: sd_entity_links d) /\
    sd_notes d' = sd_notes d /\
    (sd_id d', sd_title d', sd_type d', sd_identifiers d', sd_status d',
     sd_created_at d') =
    (sd_id d, sd_title d, sd_type d, sd_identifiers d, sd_status d,
     sd_created_at d).
Proof.
  apply (added_link_is_read_back "id-2" "backpropagation" "discusses" None 50
           example_store true).
  vm_compute; reflexivity.
Defined.

(** ** Lookup by identifier *)

Lemma find_source_by_identifier_eq it iv ty db :
  find_source_by_identifier it iv ty db =
  (match Sql.select_first_source_by_identifier ty it iv db with
   | inl e => Raise (SqlError e)
   | inr row => Ok (option_map info_of row)
   end, db).
Proof.
  unfold find_source_by_identifier. unfold_db.
  destruct (Sql.select_first_source_by_identifier ty it iv db) as [e|[row|]];
    reflexivity.
Qed.

Lemma find_source_by_identifier_vocabulary it iv ty db :
  it ∈ VALID_IDENTIFIER_TYPES ->
  find_source_by_identifier it iv ty db =
  (Ok (option_map info_of (head (Sql.select_sources_by_identifier ty it iv db))),
   db).
Proof.
  intros Hit. rewrite find_source_by_identifier_eq.
  unfold Sql.select_first_source_by_identifier.
  rewrite (first_with_identity_vocabulary _ _ _ _ Hit). reflexivity.
Qed.

Lemma first_with_identity_None ty key iv rows :
  Sql.first_with_identity ty key iv rows = inr None ->
  forall r, r ∈ rows -> src_type r = ty ->
            exists x, Sql.json_extract (src_identifiers r) key = inr x /\
                      x <> Some iv.
Proof.
  induction rows as [|r rows IH]; simpl; intros H r0 Hin Hty.
  - apply elem_of_nil in Hin. destruct Hin.
  - apply elem_of_cons in Hin as [-> | Hin].
    + rewrite bool_decide_eq_true_2 in H by exact Hty.
      destruct (Sql.json_extract _ key) as [e|[text|]]; [discriminate| |].
      * case_bool_decide as Ht; [discriminate|].
        exists (Some text). split; [reflexivity | congruence].
      * exists None. split; [reflexivity | discriminate].
    + apply IH; try assumption.
      destruct (bool_decide (src_type r = ty)); [|exact H].
      destruct (Sql.json_extract _ key) as [e|[text|]]; [discriminate| |exact H].
      destruct (bool_decide (text = iv)); [discriminate | exact H].
Qed.

Lemma json_extract_error obj key e :
  Sql.json_extract obj key = inl e -> exists near, e = JSON_path_error near.
Proof.
  unfold Sql.json_extract. destruct (Json.lookup obj key); intros [= <-].
  eexists. reflexivity.
Qed.

(** A source the lookup returns is a stored source. *)
Lemma find_source_by_identifier_Some it iv ty db info db' :
  find_source_by_identifier it iv ty db = (Ok (Some info), db') ->
  exists row, In row (sources db) /\ info = info_of row.
Proof.
  rewrite find_source_by_identifier_eq.
  unfold Sql.select_first_source_by_identifier.
  destruct (Sql.first_with_identity ty it iv (sources db)) as [e|[row|]] eqn:E;
    intros [= <- <-].
  apply first_with_identity_Ok in E. symmetry in E.
  apply head_Some_In, List.filter_In in E as [Hin _]. eauto.
Qed.

(** X11.  find_source_by_identifier never changes the store.  A source it
    returns is a stored source of the type asked for in which the path made
    of the identifier type names the value asked for, and that value has no
    U+0000.  It returns None when the path names the value in no stored
    source of the type and is well-formed for all of them.  It raises only
    sqlite3's JSON path error, only for an identifier type outside the
    vocabulary, and only when a source of the type is stored.  For an
    identifier type of the vocabulary the path names the dict's value under
    that key, read up to its first U+0000. *)
Theorem find_source_by_identifier_contract it iv ty db :
  match find_source_by_identifier it iv ty db with
  | (Ok (Some info), db') =>
      db' = db /\ nul_free iv /\
      exists row, row ∈ sources db /\ info = info_of row /\ src_type row = ty /\
                  Sql.json_extract (src_identifiers row) it = inr (Some iv)
  | (Ok None, db') =>
      db' = db /\
      forall row, row ∈ sources db -> src_type row = ty ->
                  exists x, Sql.json_extract (src_identifiers row) it = inr x /\
                            x <> Some iv
  | (Raise e, db') =>
      db' = db /\ (it ∉ VALID_IDENTIFIER_TYPES) /\
      exists row near,
        e = SqlError (JSON_path_error near) /\
        row ∈ sources db /\ src_type row = ty /\
        Sql.json_extract (src_identifiers row) it = inl (JSON_path_error near)
  end /\
  (it ∈ VALID_IDENTIFIER_TYPES ->
   forall obj : gmap string string,
     Sql.json_extract obj it = inr (Json.cut_at_nul <$> obj !! it)).
Proof.
  split; [|intros Hit obj; apply json_extract_vocabulary, Hit].
  rewrite find_source_by_identifier_eq.
  unfold Sql.select_first_source_by_identifier.
  destruct (Sql.first_with_identity ty it iv (sources db)) as [e|[row|]] eqn:E.
  - split; [reflexivity|].
    apply first_with_identity_error in E as (row & Hin & Hty & Herr).
    split.
    + intros Hit. rewrite (json_extract_vocabulary _ _ Hit) in Herr. discriminate.
    + destruct (json_extract_error _ _ _ Herr) as [near ->]. eauto 6.
  - apply first_with_identity_Ok in E. symmetry in E.
    apply head_Some_In, List.filter_In in E as [Hin Hid].
    split; [reflexivity|]. split; [eapply has_identity_value_nul_free, Hid|].
    exists row. split; [apply list_elem_of_In, Hin|]. split; [reflexivity|].
    unfold Sql.has_identity in Hid. apply andb_true_iff in Hid as [Hty Hx].
    apply bool_decide_eq_true in Hty. split; [exact Hty|].
    destruct (Sql.json_extract _ it) as [|[text|]]; try discriminate.
    apply bool_decide_eq_true in Hx. subst. reflexivity.
  - split; [reflexivity|]. apply first_with_identity_None, E.
Qed.

(** X12.  Before a successful add_source, find_source_by_identifier with the
    same identifier type, value and source type returned None.  After it,
    the same lookup returns the new source (the id returned, the title
    given, status "unread") when the identifier value has no U+0000, and
    still None when it has one. *)
Theorem added_source_is_found title ty it iv uuid now db id db' :
  add_source title ty it iv uuid now db = (Ok id, db') ->
  find_source_by_identifier it iv ty db = (Ok None, db) /\
  (nul_free iv ->
   find_source_by_identifier it iv ty db' =
     (Ok (Some (mkSourceInfo id title ty {[ it := iv ]} "unread")), db')) /\
  (~ nul_free iv -> find_source_by_identifier it iv ty db' = (Ok None, db')).
Proof.
  intros H. apply add_source_Ok_full in H as (-> & -> & _ & Hit & Hnew & _).
  apply validate_identifier_type_in in Hit.
  rewrite !(find_source_by_identifier_vocabulary _ _ _ _ Hit), Hnew.
  split; [reflexivity|].
  rewrite select_with_source, Hnew, (has_identity_new_row _ _ _ _ _ _ _ Hit).
  split; intros Hfree.
  - rewrite bool_decide_eq_true_2 by exact Hfree. reflexivity.
  - rewrite bool_decide_eq_false_2 by exact Hfree. reflexivity.
Qed.

Lemma added_source_is_found_witness :
  find_source_by_identifier "doi" "10.1000/xyz123" "paper" example_store =
    (Ok None, example_store) /\
  find_source_by_identifier "doi" "10.1000/xyz123" "paper"
    (snd (add_source "BERT" "paper" "doi" "10.1000/xyz123" "id-3" 50 example_store)) =
    (Ok (Some (mkSourceInfo "id-3" "BERT" "paper" {[ "doi" := "10.1000/xyz123" ]}
                            "unread")),
     snd (add_source "BERT" "paper" "doi" "10.1000/xyz123" "id-3" 50 example_store)).
Proof.
  destruct (added_source_is_found "BERT" "paper" "doi" "10.1000/xyz123" "id-3" 50
              example_store "id-3"
              (snd (add_source "BERT" "paper" "doi" "10.1000/xyz123" "id-3" 50
                               example_store)))
    as (Hbefore & Hafter & _).
  - vm_compute. reflexivity.
  - split; [exact Hbefore|]. apply Hafter. vm_compute. reflexivity.
Defined.

(** X26.  For an identifier value without U+0000: with a source type and
    an identifier type of the vocabularies, an identity the store does not
    hold yet and a fresh id, the first add_source succeeds, a second one
    with the same identity raises the conflict error that carries the id of
    the source just stored and leaves the store as it is, and the identity
    query then returns exactly one source. *)
Theorem duplicate_without_nul_conflicts
    title1 title2 ty it iv uuid1 uuid2 now1 now2 db :
  nul_free iv ->
  validate_source_type ty = true ->
  validate_identifier_type it = true ->
  Sql.select_sources_by_identifier ty it iv db = [] ->
  source_exists uuid1 db = false ->
  exists db1,
    add_source title1 ty it iv uuid1 now1 db = (Ok uuid1, db1) /\
    add_source title2 ty it iv uuid2 now2 db1 =
      (Raise (DbError (Source_already_exists uuid1)), db1) /\
    error_kind (Source_already_exists uuid1) = ConflictError /\
    message (Source_already_exists uuid1) =
      "Source already exists with ID: " ++ uuid1 /\
    List.length (Sql.select_sources_by_identifier ty it iv db1) = 1%nat.
Proof.
  intros Hfree Hty Hit Hnew Hfresh.
  eexists. split; [apply add_source_succeeds; assumption|].
  assert (Hsel : Sql.select_sources_by_identifier ty it iv
            (with_source db (mkSourceRow uuid1 title1 ty {[ it := iv ]} "unread" now1))
          = [mkSourceRow uuid1 title1 ty {[ it := iv ]} "unread" now1]).
  { rewrite select_with_source, Hnew,
      (has_identity_new_row _ _ _ _ _ _ _ (validate_identifier_type_in _ Hit)).
    rewrite bool_decide_eq_true_2 by exact Hfree. reflexivity. }
  split; [|split; [reflexivity|split; [reflexivity|]]].
  - rewrite add_source_eq, Hty, Hit, Hsel. reflexivity.
  - rewrite Hsel. reflexivity.
Qed.

Lemma duplicate_without_nul_conflicts_witness :
  exists db1,
    add_source "BERT" "paper" "doi" "10.1000/xyz123" "id-3" 50 example_store =
      (Ok "id-3", db1) /\
    add_source "BERT again" "paper" "doi" "10.1000/xyz123" "id-4" 60 db1 =
      (Raise (DbError (Source_already_exists "id-3")), db1) /\
    error_kind (Source_already_exists "id-3") = ConflictError /\
    message (Source_already_exists "id-3") = "Source already exists with ID: id-3" /\
    List.length (Sql.select_sources_by_identifier "paper" "doi" "10.1000/xyz123" db1)
      = 1%nat.
Proof.
  apply (duplicate_without_nul_conflicts
           "BERT" "BERT again" "paper" "doi" "10.1000/xyz123" "id-3" "id-4" 50 60
           example_store); vm_compute; reflexivity.
Defined.

(** X27.  For an identifier value with U+0000 inside the duplicate check
    finds nothing: with a source type and an identifier type of the
    vocabularies and two fresh, distinct ids, two add_source calls with the
    same identity both succeed on any store, and the store ends with the
    two new sources. *)
Theorem duplicate_with_nul_is_stored_twice
    title1 title2 ty it iv uuid1 uuid2 now1 now2 db :
  ~ nul_free iv ->
  validate_source_type ty = true ->
  validate_identifier_type it = true ->
  source_exists uuid1 db = false ->
  source_exists uuid2 db = false ->
  uuid1 <> uuid2 ->
  exists db1 db2,
    add_source title1 ty it iv uuid1 now1 db = (Ok uuid1, db1) /\
    add_source title2 ty it iv uuid2 now2 db1 = (Ok uuid2, db2) /\
    sources db2 =
      (sources db ++ [mkSourceRow uuid1 title1 ty {[ it := iv ]} "unread" now1;
                      mkSourceRow uuid2 title2 ty {[ it := iv ]} "unread" now2])%list.
Proof.
  intros Hnul Hty Hit Hf1 Hf2 Hid.
  do 2 eexists. split; [|split].
  - apply add_source_succeeds; try assumption. apply select_value_with_nul, Hnul.
  - apply add_source_succeeds; try assumption.
    + apply select_value_with_nul, Hnul.
    + unfold source_exists in *. simpl. rewrite existsb_app, Hf2. simpl.
      rewrite bool_decide_eq_false_2 by exact Hid. reflexivity.
  - simpl. rewrite <- app_assoc. reflexivity.
Qed.

Lemma duplicate_with_nul_is_stored_twice_witness :
  exists db1 db2,
    add_source "BERT" "paper" "doi" value_with_nul "id-3" 50 example_store =
      (Ok "id-3", db1) /\
    add_source "BERT again" "paper" "doi" value_with_nul "id-4" 60 db1 =
      (Ok "id-4", db2) /\
    sources db2 =
      (sources example_store ++
         [mkSourceRow "id-3" "BERT" "paper" {[ "doi" := value_with_nul ]}
                      "unread" 50;
          mkSourceRow "id-4" "BERT again" "paper" {[ "doi" := value_with_nul ]}
                      "unread" 60])%list.
Proof.
  apply (duplicate_with_nul_is_stored_twice
           "BERT" "BERT again" "paper" "doi" value_with_nul "id-3" "id-4" 50 60
           example_store);
    try (vm_compute; reflexivity);
    intros H; vm_compute in H; discriminate H.
Defined.

Lemma first_with_identity_ext ty key key' iv rows :
  (forall obj, Sql.json_extract obj key' = Sql.json_extract obj key) ->
  Sql.first_with_identity ty key' iv rows = Sql.first_with_identity ty key iv rows.
Proof.
  intros H. induction rows as [|r rows IH]; simpl; [reflexivity|].
  rewrite H, IH. reflexivity.
Qed.

Lemma first_with_identity_no_node ty key iv rows :
  (forall obj, Sql.json_extract obj key = inr None) ->
  Sql.first_with_identity ty key iv rows = inr None.
Proof.
  intros H. induction rows as [|r rows IH]; simpl; [reflexivity|].
  rewrite H, IH. destruct (bool_decide _); reflexivity.
Qed.

Lemma first_with_identity_always_error ty key iv rows e :
  (forall obj, Sql.json_extract obj key = inl e) ->
  Sql.first_with_identity ty key iv rows =
  if existsb (fun r => bool_decide (src_type r = ty)) rows then inl e
  else inr None.
Proof.
  intros H. induction rows as [|r rows IH]; simpl; [reflexivity|].
  rewrite H, IH. destruct (bool_decide _); reflexivity.
Qed.

Lemma cut_at_nul_app_plain a b :
  plain a = true ->
  Json.cut_at_nul (a ++ b) = (a ++ Json.cut_at_nul b)%string.
Proof.
  induction a as [|c a IH]; [reflexivity|].
  cbn [plain]. intros [Hc Ha]%andb_true_iff. simpl.
  rewrite bool_decide_eq_false_2, IH by (exact Ha || (intros ->; discriminate Hc)).
  reflexivity.
Qed.

(** The paths of the vocabulary's keys in double quotes, and followed by a
    further member step. *)
Lemma vocabulary_path_variants it :
  it ∈ VALID_IDENTIFIER_TYPES ->
  Json.path_key (Json.cut_at_nul (String Json.quote (it ++ String Json.quote "")))
    = inr (it, EmptyString) /\
  forall rest,
    Json.path_key (it ++ String "."%char rest) = inr (it, String "."%char rest).
Proof.
  unfold VALID_IDENTIFIER_TYPES. intros H.
  repeat (apply elem_of_union in H as [H|H]);
    apply elem_of_singleton in H; subst it; split; try reflexivity;
    intros rest; vm_compute; reflexivity.
Qed.

(** X28.  The identifier type is not validated by the lookup, it is read as
    a JSON path.  With the empty identifier type find_source_by_identifier
    raises sqlite3's JSON path error as soon as a source of the type is
    stored, and returns None otherwise.  An identifier type of the
    vocabulary written in double quotes finds what the bare one finds.  An
    identifier type of the vocabulary followed by a dot and anything finds
    nothing, in every store. *)
Theorem lookup_reads_the_identifier_type_as_a_path iv ty db :
  find_source_by_identifier "" iv ty db =
    (if existsb (fun r => bool_decide (src_type r = ty)) (sources db)
     then Raise (SqlError (JSON_path_error ""))
     else Ok None, db) /\
  (forall it, it ∈ VALID_IDENTIFIER_TYPES ->
     find_source_by_identifier (String Json.quote (it ++ String Json.quote ""))
                               iv ty db =
     find_source_by_identifier it iv ty db) /\
  (forall it rest, it ∈ VALID_IDENTIFIER_TYPES ->
     find_source_by_identifier (it ++ String "."%char rest) iv ty db =
     (Ok None, db)).
Proof.
  split; [|split].
  - rewrite find_source_by_identifier_eq.
    unfold Sql.select_first_source_by_identifier.
    rewrite (first_with_identity_always_error _ _ _ _ (JSON_path_error ""))
      by reflexivity.
    destruct (existsb _ _); reflexivity.
  - intros it Hit. rewrite !find_source_by_identifier_eq.
    unfold Sql.select_first_source_by_identifier.
    rewrite (first_with_identity_ext ty it); [reflexivity|].
    intros obj. unfold Sql.json_extract, Json.lookup.
    destruct (vocabulary_path_variants it Hit) as [-> _].
    destruct (vocabulary_path it Hit) as [_ ->]. reflexivity.
  - intros it rest Hit. rewrite find_source_by_identifier_eq.
    unfold Sql.select_first_source_by_identifier.
    rewrite first_with_identity_no_node; [reflexivity|].
    intros obj. unfold Sql.json_extract, Json.lookup.
    destruct (vocabulary_path it Hit) as [Hplain _].
    change (String "."%char rest) with ("." ++ rest)%string.
    rewrite (cut_at_nul_app_plain _ _ Hplain),
      (cut_at_nul_app_plain "." rest eq_refl).
    change ("." ++ Json.cut_at_nul rest)%string
      with (String "."%char (Json.cut_at_nul rest)).
    destruct (vocabulary_path_variants it Hit) as [_ ->].
    destruct (Json.member obj it); reflexivity.
Qed.

(** X13.  Deduplication looks at the identity only: two add_source calls
    with the same title succeed one after the other when the second
    identity differs from the first in the type, in the identifier type, or
    in the value, the first value being read up to its first U+0000 (both
    identities new to the store, with fresh distinct ids); the store then
    holds the title twice. *)
Theorem distinct_identities_coexist
    title ty1 it1 iv1 ty2 it2 iv2 uuid1 uuid2 now1 now2 db :
  (ty1, it1, Json.cut_at_nul iv1) <> (ty2, it2, iv2) ->
  uuid1 <> uuid2 ->
  validate_source_type ty1 = true -> validate_identifier_type it1 = true ->
  validate_source_type ty2 = true -> validate_identifier_type it2 = true ->
  Sql.select_sources_by_identifier ty1 it1 iv1 db = [] ->
  Sql.select_sources_by_identifier ty2 it2 iv2 db = [] ->
  source_exists uuid1 db = false ->
  source_exists uuid2 db = false ->
  exists db1 db2,
    add_source title ty1 it1 iv1 uuid1 now1 db = (Ok uuid1, db1) /\
    add_source title ty2 it2 iv2 uuid2 now2 db1 = (Ok uuid2, db2) /\
    map src_title (sources db2) = (map src_title (sources db) ++ [title; title])%list.
Proof.
  intros Hne Hid Hty1 Hit1 Hty2 Hit2 Hn1 Hn2 Hf1 Hf2.
  set (r1 := mkSourceRow uuid1 title ty1 {[ it1 := iv1 ]} "unread" now1).
  set (r2 := mkSourceRow uuid2 title ty2 {[ it2 := iv2 ]} "unread" now2).
  exists (with_source db r1), (with_source (with_source db r1) r2).
  split; [apply add_source_succeeds; assumption|]. split.
  - apply add_source_succeeds; try assumption.
    + rewrite select_with_source, Hn2. simpl.
      destruct (Sql.has_identity ty2 it2 iv2 r1) eqn:E; [|reflexivity].
      apply validate_identifier_type_in in Hit2.
      apply (has_identity_vocabulary_iff _ _ _ _ Hit2) in E as (Hty & v & Hv & Hcut).
      simpl in Hty, Hv. apply lookup_singleton_Some in Hv as [-> ->].
      subst. contradiction.
    + unfold source_exists in *. simpl. rewrite existsb_app, Hf2. simpl.
      rewrite bool_decide_eq_false_2 by exact Hid. reflexivity.
  - simpl. rewrite !map_app, <- app_assoc. reflexivity.
Qed.

Lemma distinct_identities_coexist_witness :
  exists db1 db2,
    add_source "Deep Learning" "paper" "isbn" "978-0262035613" "id-3" 50
               example_store = (Ok "id-3", db1) /\
    add_source "Deep Learning" "book" "url" "978-0262035613" "id-4" 60 db1 =
      (Ok "id-4", db2) /\
    map src_title (sources db2) =
      (map src_title (sources example_store) ++
       ["Deep Learning"; "Deep Learning"])%list.
Proof.
  apply (distinct_identities_coexist
           "Deep Learning" "paper" "isbn" "978-0262035613"
           "book" "url" "978-0262035613" "id-3" "id-4" 50 60 example_store);
    try (vm_compute; reflexivity); discriminate.
Defined.

(** ** Status updates compose *)

Lemma set_status_set_status s1 s2 id r :
  Sql.set_status s2 id (Sql.set_status s1 id r) = Sql.set_status s2 id r.
Proof.
  unfold Sql.set_status. destruct (bool_decide (src_id r = id)) eqn:E; simpl.
  - rewrite E. reflexivity.
  - rewrite E. reflexivity.
Qed.

Lemma set_status_commute s1 s2 id1 id2 r :
  id1 <> id2 ->
  Sql.set_status s2 id2 (Sql.set_status s1 id1 r) =
  Sql.set_status s1 id1 (Sql.set_status s2 id2 r).
Proof.
  intros Hne. unfold Sql.set_status.
  destruct (bool_decide (src_id r = id1)) eqn:E1;
    destruct (bool_decide (src_id r = id2)) eqn:E2; simpl;
    rewrite ?E1, ?E2; try reflexivity.
  apply bool_decide_eq_true in E1, E2. congruence.
Qed.

(** X14.  Status updates compose: on an existing source, updating to s1 and
    then to s2 leaves exactly the store that updating to s2 alone leaves;
    and updates of two different sources give the same store in either
    order. *)
Theorem status_updates_compose :
  (forall id s1 s2 db,
      source_exists id db = true ->
      validate_status s1 = true -> validate_status s2 = true ->
      snd (update_status id s2 (snd (update_status id s1 db))) =
      snd (update_status id s2 db)) /\
  (forall id1 id2 s1 s2 db,
      id1 <> id2 ->
      snd (update_status id2 s2 (snd (update_status id1 s1 db))) =
      snd (update_status id1 s1 (snd (update_status id2 s2 db)))).
Proof.
  assert (Hsnd : forall id st db,
    snd (update_status id st db) =
    if validate_status st && source_exists id db then with_status db id st else db).
  { intros id st db. rewrite update_status_eq, update_sources_status_eq.
    destruct (validate_status st); simpl; [|reflexivity].
    destruct (source_exists id db) eqn:E; [|reflexivity].
    rewrite (rowcount_positive _ _ E). reflexivity. }
  split.
  - intros id s1 s2 db Hex H1 H2. rewrite !Hsnd, H1, H2, Hex. simpl.
    rewrite source_exists_with_status, Hex.
    unfold with_status. simpl. f_equal. rewrite List.map_map.
    apply List.map_ext. intros r. apply set_status_set_status.
  - intros id1 id2 s1 s2 db Hne. rewrite !Hsnd.
    destruct (validate_status s1), (validate_status s2); simpl;
      try reflexivity;
      destruct (source_exists id1 db) eqn:E1, (source_exists id2 db) eqn:E2;
      simpl; rewrite ?source_exists_with_status, ?E1, ?E2; try reflexivity.
    unfold with_status. simpl. f_equal. rewrite !List.map_map.
    apply List.map_ext. intros r. apply set_status_commute, Hne.
Qed.

Lemma status_updates_compose_witness :
  snd (update_status "id-1" "archived"
         (snd (update_status "id-1" "reading" example_store))) =
  snd (update_status "id-1" "archived" example_store) /\
  snd (update_status "id-2" "unread"
         (snd (update_status "id-1" "reading" example_store))) =
  snd (update_status "id-1" "reading"
         (snd (update_status "id-2" "unread" example_store))).
Proof.
  destruct status_updates_compose as [H1 H2]. split.
  - apply H1; vm_compute; reflexivity.
  - apply H2. discriminate.
Defined.

(** ** Listing, fetching and counting agree *)

Lemma reachable_ids_unique db :
  reachable db -> NoDup (map src_id (sources db)).
Proof.
  revert db.
  apply (reachable_ind (fun db => NoDup (map src_id (sources db))));
    [constructor|].
  apply ids_unique_step.
Qed.

Lemma head_filter_unique_id (l : list SourceRow) (r : SourceRow) :
  NoDup (map src_id l) -> In r l ->
  head (List.filter (fun x => bool_decide (src_id x = src_id r)) l) = Some r.
Proof.
  induction l as [|x l IH]; intros Hnd Hin; [destruct Hin|].
  simpl in Hnd. apply NoDup_cons in Hnd as [Hx Hnd]. simpl.
  destruct Hin as [->|Hin].
  - rewrite bool_decide_eq_true_2 by reflexivity. reflexivity.
  - rewrite bool_decide_eq_false_2; [apply IH; assumption|].
    intros E. apply Hx. rewrite E.
    apply list_elem_of_In, List.in_map, Hin.
Qed.

Lemma sql_limit_subset {A} n (l : list A) x :
  In x (Order.sql_limit n l) -> In x l.
Proof.
  unfold Order.sql_limit. destruct (n <? 0); [auto|].
  intros H. apply list_elem_of_In in H. apply list_elem_of_In.
  eapply subseteq_take, H.
Qed.

(** X15.  In a store produced by the operations, every summary that
    list_sources returns can be fetched: get_source_by_id of its id returns
    a source with the same id, title, type, status and created_at. *)
Theorem listed_sources_are_fetchable ty st limit db l db' :
  reachable db ->
  list_sources ty st limit db = (Ok l, db') ->
  Forall (fun s =>
            exists d,
              get_source_by_id (sum_id s) db = (Ok (Some d), db) /\
              (sd_id d, sd_title d, sd_type d, sd_status d, sd_created_at d) =
              (sum_id s, sum_title s, sum_type s, sum_status s, sum_created_at s))
         l.
Proof.
  intros Hr. rewrite list_sources_eq.
  destruct (_ && _); [discriminate|]. destruct (_ && _); [discriminate|].
  destruct (_ || _); [discriminate|]. intros [= <- <-].
  apply List.Forall_forall. intros s Hs.
  apply List.in_map_iff in Hs as (r & <- & Hin).
  apply sql_limit_subset in Hin.
  apply (Permutation_in _ (sort_desc_perm src_created_at _)) in Hin.
  apply List.filter_In in Hin as [Hin _].
  exists (detail_of r db). rewrite get_source_by_id_eq.
  unfold Sql.select_sources_by_id. cbn [to_summary sum_id].
  rewrite (head_filter_unique_id _ r (reachable_ids_unique db Hr) Hin).
  split; reflexivity.
Qed.

Lemma listed_sources_are_fetchable_witness :
  Forall (fun s =>
            exists d,
              get_source_by_id (sum_id s) example_store =
                (Ok (Some d), example_store) /\
              (sd_id d, sd_title d, sd_type d, sd_status d, sd_created_at d) =
              (sum_id s, sum_title s, sum_type s, sum_status s, sum_created_at s))
         (map to_summary (rev (sources example_store))).
Proof.
  apply (listed_sources_are_fetchable None None DEFAULT_LIMIT example_store
           _ example_store example_store_reachable).
  vm_compute; reflexivity.
Defined.

Lemma count_occ_filter_length {A} (f : A -> string) (l : list A) k :
  count_occ string_dec (map f l) k =
  List.length (List.filter (fun x => bool_decide (f x = k)) l).
Proof.
  induction l as [|x l IH]; simpl; [reflexivity|].
  destruct (string_dec (f x) k) as [E|E].
  - rewrite bool_decide_eq_true_2 by exact E. simpl. rewrite IH. reflexivity.
  - rewrite bool_decide_eq_false_2 by exact E. exact IH.
Qed.

Lemma stats_lookup_default {A} (f : A -> string) (l : list A) k :
  default 0%nat
    ((list_to_map (Order.group_count (map f l)) : gmap string nat) !! k) =
  List.length (List.filter (fun x => bool_decide (f x = k)) l).
Proof.
  rewrite group_count_lookup. case_bool_decide as Hk; simpl.
  - apply count_occ_filter_length.
  - rewrite <- count_occ_filter_length. symmetry.
    apply count_occ_not_In. intros Hin. apply Hk, list_elem_of_In, Hin.
Qed.

(** X16.  The statistics agree with the listing: for a type and a status of
    the vocabularies and a limit that is at least the number of sources
    (and below 2^63), list_sources filtered by the type (by the status)
    returns as many sources as get_database_stats counts for it, zero when
    the key is absent from the mapping. *)
Theorem stats_agree_with_listing t s limit db :
  validate_source_type t = true ->
  validate_status s = true ->
  Z.of_nat (List.length (sources db)) <= limit < 2 ^ 63 ->
  exists stats by_type by_status,
    get_database_stats db = (Ok stats, db) /\
    list_sources (Some t) None limit db = (Ok by_type, db) /\
    list_sources None (Some s) limit db = (Ok by_status, db) /\
    List.length by_type = default 0%nat (sources_by_type stats !! t) /\
    List.length by_status = default 0%nat (sources_by_status stats !! s).
Proof.
  intros Ht Hs Hlim.
  assert (Htne : truthy (Some t) = true).
  { apply truthy_Some. intros ->. discriminate. }
  assert (Hsne : truthy (Some s) = true).
  { apply truthy_Some. intros ->. discriminate. }
  assert (Hrange : ((limit <? - 2 ^ 63) || (2 ^ 63 <=? limit)) = false).
  { apply orb_false_iff. split; [apply Z.ltb_ge | apply Z.leb_gt]; lia. }
  assert (Hall : forall (l : list SourceRow),
             (List.length l <= List.length (sources db))%nat ->
             Order.sql_limit limit l = l).
  { intros l Hl. unfold Order.sql_limit.
    destruct (limit <? 0); [reflexivity|]. apply take_ge. lia. }
  assert (Hlen : forall f, (List.length (List.filter f (sources db))
                            <= List.length (sources db))%nat).
  { intros f. apply List.filter_length_le. }
  eexists _, _, _. split; [apply get_database_stats_eq|].
  rewrite !list_sources_eq. cbn [default from_option]. unfold id.
  rewrite Htne, Hsne, Ht, Hs. change (truthy None) with false.
  cbn [negb andb]. rewrite Hrange.
  split; [reflexivity|]. split; [reflexivity|]. simpl.
  rewrite !stats_lookup_default, !length_map.
  rewrite !Hall
    by (rewrite (Permutation_length (sort_desc_perm src_created_at _));
        apply Hlen).
  rewrite !(Permutation_length (sort_desc_perm src_created_at _)).
  split; f_equal; apply List.filter_ext; intros r;
    unfold matches_filters, passes; rewrite ?Htne, ?Hsne, ?andb_true_r;
    reflexivity.
Qed.

Lemma stats_agree_with_listing_witness :
  exists stats by_type by_status,
    get_database_stats example_store = (Ok stats, example_store) /\
    list_sources (Some "paper") None DEFAULT_LIMIT example_store =
      (Ok by_type, example_store) /\
    list_sources None (Some "completed") DEFAULT_LIMIT example_store =
      (Ok by_status, example_store) /\
    List.length by_type = default 0%nat (sources_by_type stats !! "paper") /\
    List.length by_status =
      default 0%nat (sources_by_status stats !! "completed").
Proof.
  apply (stats_agree_with_listing "paper" "completed" DEFAULT_LIMIT example_store);
    try (vm_compute; reflexivity).
  vm_compute. split; [discriminate | reflexivity].
Defined.

(** X17.  The lookup-then-mutate sequence of the adapters: with the id of a
    source that find_source_by_identifier returned, update_status succeeds
    for every status of the vocabulary, and add_note and link_to_entity
    never raise "Source not found". *)
Theorem found_source_can_be_mutated it iv ty db info :
  find_source_by_identifier it iv ty db = (Ok (Some info), db) ->
  (forall st, validate_status st = true ->
              update_status (info_id info) st db =
                (Ok true, with_status db (info_id info) st)) /\
  (forall title content now,
      fst (add_note (info_id info) title content now db) <>
      Raise (DbError (Source_not_found (info_id info)))) /\
  (forall name rel notes now,
      fst (link_to_entity (info_id info) name rel notes now db) <>
      Raise (DbError (Source_not_found (info_id info)))).
Proof.
  intros (row & Hin & ->)%find_source_by_identifier_Some. simpl.
  assert (Hex : source_exists (src_id row) db = true).
  { apply source_exists_true_in, list_elem_of_In, List.in_map, Hin. }
  split; [|split].
  - intros st Hst. apply update_status_succeeds; assumption.
  - intros title content now. rewrite add_note_eq.
    apply source_exists_select in Hex as [r Hr]. rewrite Hr.
    destruct (head (Sql.select_notes_by_key _ _ _)); [discriminate|].
    destruct (Sql.insert_into_source_notes _ _ _ _ _); discriminate.
  - intros name rel notes now. rewrite link_to_entity_eq.
    destruct (negb (validate_relation_type rel)); [discriminate|].
    apply source_exists_select in Hex as [r Hr]. rewrite Hr.
    destruct (head (Sql.select_links_by_key _ _ _)); [discriminate|].
    destruct (Sql.insert_into_source_entity_links _ _ _ _ _ _); discriminate.
Qed.

Lemma found_source_can_be_mutated_witness :
  let info := mkSourceInfo "id-1" "Attention Is All You Need" "paper"
                           {[ "arxiv" := "1706.03762" ]} "unread" in
  (forall st, validate_status st = true ->
              update_status (info_id info) st example_store =
                (Ok true, with_status example_store (info_id info) st)) /\
  (forall title content now,
      fst (add_note (info_id info) title content now example_store) <>
      Raise (DbError (Source_not_found (info_id info)))) /\
  (forall name rel notes now,
      fst (link_to_entity (info_id info) name rel notes now example_store) <>
      Raise (DbError (Source_not_found (info_id info)))).
Proof.
  apply (found_source_can_be_mutated "arxiv" "1706.03762" "paper" example_store).
  vm_compute; reflexivity.
Defined.

(** * utils.py *)

(** ** guess_source_type *)

Lemma identifier_mapping_lookup it :
  Helpers.identifier_mapping !! it =
  if bool_decide (it ∈ VALID_IDENTIFIER_TYPES)
  then Some (if bool_decide (it = "isbn") then "book"
             else if bool_decide (it = "url") then "webpage" else "paper")
  else None.
Proof.
  unfold Helpers.identifier_mapping, VALID_IDENTIFIER_TYPES.
  rewrite !lookup_insert, lookup_empty.
  repeat case_decide; subst; try reflexivity;
    repeat case_bool_decide; try reflexivity; try congruence;
    exfalso; set_unfold; intuition congruence.
Qed.

Lemma guess_source_type_in_vocabulary title it iv :
  Helpers.guess_source_type title it iv ∈ VALID_SOURCE_TYPES.
Proof.
  unfold Helpers.guess_source_type. rewrite identifier_mapping_lookup.
  unfold VALID_SOURCE_TYPES.
  repeat (case_bool_decide || destruct (Helpers.any_in _ _));
    set_unfold; tauto.
Qed.

(** X18.  guess_source_type always returns a member of the source-type
    vocabulary, so add_source called with a guessed type never raises
    "Invalid source type". *)
Theorem guessed_type_passes_validation title it iv :
  Helpers.guess_source_type title it iv ∈ VALID_SOURCE_TYPES /\
  forall title' uuid now db e,
    fst (add_source title' (Helpers.guess_source_type title it iv) it iv
                    uuid now db)
    <> Raise (DbError (Invalid_source_type e)).
Proof.
  split; [apply guess_source_type_in_vocabulary|].
  intros title' uuid now db e. rewrite add_source_eq.
  unfold validate_source_type at 1.
  rewrite bool_decide_eq_true_2 by apply guess_source_type_in_vocabulary.
  simpl. destruct (negb (validate_identifier_type it)); [discriminate|].
  destruct (head _); [discriminate|].
  destruct (Sql.insert_into_sources _ _ _ _ _ _); discriminate.
Qed.

(** X19.  For an identifier type of the vocabulary guess_source_type ignores
    the title and the identifier value and answers paper, book or webpage;
    the title keywords (and the answers video and blog) only come into play
    for identifier types outside the vocabulary. *)
Theorem guess_ignores_title_for_known_identifiers title it iv :
  it ∈ VALID_IDENTIFIER_TYPES ->
  Helpers.guess_source_type title it iv ∈ ["paper"; "book"; "webpage"] /\
  forall title' iv',
    Helpers.guess_source_type title' it iv' =
    Helpers.guess_source_type title it iv.
Proof.
  intros Hit. unfold Helpers.guess_source_type.
  rewrite identifier_mapping_lookup, bool_decide_eq_true_2 by exact Hit.
  split; [|reflexivity].
  repeat case_bool_decide; set_unfold; tauto.
Qed.

Lemma guess_ignores_title_for_known_identifiers_witness :
  Helpers.guess_source_type "A video lecture" "isbn" "978-0262035613"
    ∈ ["paper"; "book"; "webpage"] /\
  forall title' iv',
    Helpers.guess_source_type title' "isbn" iv' =
    Helpers.guess_source_type "A video lecture" "isbn" "978-0262035613".
Proof.
  apply (guess_ignores_title_for_known_identifiers
           "A video lecture" "isbn" "978-0262035613").
  vm_compute; reflexivity.
Defined.

(** ** extract_isbn *)

Lemma keep_satisfies p s c :
  In c (list_ascii_of_string (Helpers.keep p s)) -> p c = true.
Proof.
  induction s as [|x s IH]; simpl; [intros []|].
  destruct (p x) eqn:E; simpl; [|exact IH].
  intros [<-|H]; [exact E | apply IH, H].
Qed.

Lemma keep_all p s :
  (forall c, In c (list_ascii_of_string s) -> p c = true) ->
  Helpers.keep p s = s.
Proof.
  induction s as [|x s IH]; simpl; [reflexivity|].
  intros H. rewrite (H x (or_introl eq_refl)), IH; [reflexivity|].
  intros c Hc. apply H. right. exact Hc.
Qed.

Lemma upper_ascii_isbn_char c :
  Helpers.isbn_char c = true -> Helpers.upper_ascii c = c.
Proof.
  destruct c as [[] [] [] [] [] [] [] []]; vm_compute; congruence.
Qed.

Lemma upper_isbn_chars s :
  (forall c, In c (list_ascii_of_string s) -> Helpers.isbn_char c = true) ->
  Helpers.upper s = s.
Proof.
  induction s as [|x s IH]; simpl; [reflexivity|].
  intros H. rewrite upper_ascii_isbn_char, IH; [reflexivity | |].
  - intros c Hc. apply H. right. exact Hc.
  - apply H. left. reflexivity.
Qed.

(** X20.  What extract_isbn returns consists of digits and X only, has
    length 10, or length 13 with the prefix 978 or 979, and is a fixed
    point: extract_isbn of the result is the result. *)
Theorem extract_isbn_shape text isbn :
  Helpers.extract_isbn text = Some isbn ->
  (forall c, In c (list_ascii_of_string isbn) ->
             Helpers.is_digit c = true \/ c = "X"%char) /\
  (String.length isbn = 10%nat \/
   (String.length isbn = 13%nat /\
    (String.prefix "978" isbn = true \/ String.prefix "979" isbn = true))) /\
  Helpers.extract_isbn isbn = Some isbn.
Proof.
  unfold Helpers.extract_isbn at 1.
  set (cleaned := Helpers.keep Helpers.isbn_char (Helpers.upper text)).
  assert (Hchars : forall c, In c (list_ascii_of_string cleaned) ->
                             Helpers.isbn_char c = true)
    by (intros c; apply keep_satisfies).
  assert (Hfix : Helpers.keep Helpers.isbn_char (Helpers.upper cleaned) = cleaned)
    by (rewrite (upper_isbn_chars _ Hchars); apply keep_all, Hchars).
  intros H.
  assert (Hshape : isbn = cleaned /\
    (String.length cleaned = 10%nat \/
     (String.length cleaned = 13%nat /\
      (String.prefix "978" cleaned = true \/ String.prefix "979" cleaned = true)))).
  { destruct (String.length cleaned =? 13)%nat eqn:E13; simpl in H.
    - apply Nat.eqb_eq in E13.
      destruct (String.prefix "978" cleaned || String.prefix "979" cleaned) eqn:Ep.
      + injection H as <-. split; [reflexivity|]. right. split; [exact E13|].
        apply orb_true_iff, Ep.
      + rewrite E13 in H. discriminate.
    - destruct (String.length cleaned =? 10)%nat eqn:E10; [|discriminate].
      injection H as <-. split; [reflexivity|]. left. apply Nat.eqb_eq, E10. }
  destruct Hshape as [-> Hshape]. split; [|split; [exact Hshape|]].
  - intros c Hc. apply Hchars in Hc. unfold Helpers.isbn_char in Hc.
    apply orb_true_iff in Hc as [Hc|Hc]; [left; exact Hc|].
    right. apply bool_decide_eq_true in Hc. exact Hc.
  - unfold Helpers.extract_isbn. rewrite Hfix.
    destruct Hshape as [H10 | [H13 Hp]].
    + rewrite H10. reflexivity.
    + rewrite H13. apply orb_true_iff in Hp. rewrite Hp. reflexivity.
Qed.

Lemma extract_isbn_shape_witness :
  (forall c, In c (list_ascii_of_string "9780262035613") ->
             Helpers.is_digit c = true \/ c = "X"%char) /\
  (String.length "9780262035613" = 10%nat \/
   (String.length "9780262035613" = 13%nat /\
    (String.prefix "978" "9780262035613" = true \/
     String.prefix "979" "9780262035613" = true))) /\
  Helpers.extract_isbn "9780262035613" = Some "9780262035613".
Proof.
  apply (extract_isbn_shape "ISBN 978-0-262-03561-3").
  vm_compute; reflexivity.
Defined.

(** ** Regular expressions: the derivative matcher decides the language *)

Module RegexFacts.
Import Regex.

Lemma nullable_lang r : nullable r = true <-> lang r [].
Proof.
  induction r as [| |p|r1 IH1 r2 IH2|r1 IH1 r2 IH2|r IH]; simpl.
  - split; [discriminate | inversion 1].
  - split; [constructor | reflexivity].
  - split; [discriminate | inversion 1].
  - rewrite andb_true_iff, IH1, IH2. split.
    + intros [H1 H2]. apply (lang_seq _ _ [] [] H1 H2).
    + inversion 1 as [| |? ? s1 s2 H1 H2 E1 E2| | | |]; subst.
      apply app_eq_nil in E2 as [-> ->]. auto.
  - rewrite orb_true_iff, IH1, IH2. split.
    + intros [H|H]; [apply lang_alt_l | apply lang_alt_r]; exact H.
    + inversion 1; subst; auto.
  - split; [constructor | reflexivity].
Qed.

Lemma lang_seq_smart r1 r2 s : lang (seq r1 r2) s <-> lang (Seq r1 r2) s.
Proof.
  destruct r1; simpl; try reflexivity.
  split; [inversion 1 | inversion 1 as [| |? ? ? ? Hv| | | |]; inversion Hv].
Qed.

Lemma lang_alt_smart r1 r2 s : lang (alt r1 r2) s <-> lang (Alt r1 r2) s.
Proof.
  assert (Hvoid : forall t, ~ lang Void t) by (intros t H; inversion H).
  destruct r1, r2; simpl; try reflexivity;
    (split; [intros H; first [apply lang_alt_l; exact H | apply lang_alt_r; exact H]
            | inversion 1; subst; first [assumption | exfalso; eapply Hvoid; eassumption]]).
Qed.

Lemma lang_star_cons_inv r c s :
  lang (Star r) (c :: s) ->
  exists s1 s2, s = (s1 ++ s2)%list /\ lang r (c :: s1) /\ lang (Star r) s2.
Proof.
  intros H. remember (Star r) as r0 eqn:Er. remember (c :: s) as t eqn:Et.
  revert r c s Er Et.
  induction H as [| | | | | |r' s1 s2 H1 _ H2 IH2]; intros rr cc ss Er Et;
    try discriminate.
  injection Er as ->. destruct s1 as [|x s1]; simpl in Et.
  - apply (IH2 rr cc ss eq_refl Et).
  - injection Et as -> <-. exists s1, s2. auto.
Qed.

Lemma deriv_lang c r s : lang (deriv c r) s <-> lang r (c :: s).
Proof.
  revert s. induction r as [| |p|r1 IH1 r2 IH2|r1 IH1 r2 IH2|r IH]; intros s; simpl.
  - split; inversion 1.
  - split; inversion 1.
  - destruct (p c) eqn:E.
    + split.
      * inversion 1; subst. constructor. exact E.
      * inversion 1; subst. constructor.
    + split; inversion 1; subst. congruence.
  - rewrite lang_alt_smart. split.
    + inversion 1 as [| | |? ? ? Hl|? ? ? Hr| |]; subst.
      * apply lang_seq_smart in Hl.
        inversion Hl as [| |? ? s1 s2 H1 H2| | | |]; subst.
        apply IH1 in H1. apply (lang_seq _ _ (c :: s1) s2 H1 H2).
      * destruct (nullable r1) eqn:En; [|inversion Hr].
        apply IH2 in Hr. apply nullable_lang in En.
        apply (lang_seq _ _ [] (c :: s) En Hr).
    + inversion 1 as [| |? ? s1 s2 H1 H2 E1 E2| | | |]; subst.
      destruct s1 as [|x s1]; simpl in E2.
      * subst s2. apply lang_alt_r.
        rewrite (proj2 (nullable_lang r1) H1). apply IH2, H2.
      * injection E2 as -> <-. apply lang_alt_l, lang_seq_smart.
        constructor; [apply IH1, H1 | exact H2].
  - rewrite lang_alt_smart. split.
    + inversion 1; subst; [apply lang_alt_l, IH1 | apply lang_alt_r, IH2];
        assumption.
    + inversion 1; subst; [apply lang_alt_l, IH1 | apply lang_alt_r, IH2];
        assumption.
  - rewrite lang_seq_smart. split.
    + inversion 1 as [| |? ? s1 s2 H1 H2| | | |]; subst.
      apply IH in H1. apply (lang_star_cons _ (c :: s1) s2 H1 H2).
    + intros H. apply lang_star_cons_inv in H as (s1 & s2 & -> & H1 & H2).
      constructor; [apply IH, H1 | exact H2].
Qed.

Lemma matches_lang r s : matches r s = true <-> lang r s.
Proof.
  revert r. induction s as [|c s IH]; intros r; simpl.
  - apply nullable_lang.
  - rewrite IH. apply deriv_lang.
Qed.

Lemma all_ascii_spec f : all_ascii f = true -> forall c, f c = true.
Proof.
  unfold all_ascii. intros H c.
  rewrite <- (ascii_nat_embedding c).
  apply (proj1 (List.forallb_forall _ _) H).
  apply List.in_seq. pose proof (nat_ascii_bounded c). lia.
Qed.

(** A string of the language only has characters that its classes allow. *)
Lemma lang_classes_within q r s :
  classes_within q r = true -> lang r s -> Forall (fun c => q c = true) s.
Proof.
  intros Hq H. induction H; simpl in Hq;
    repeat match goal with
           | H : _ && _ = true |- _ => apply andb_true_iff in H as [? ?]
           end; auto.
  - constructor; [|constructor].
    pose proof (all_ascii_spec _ Hq c) as Hc. cbv beta in Hc.
    rewrite H in Hc. exact Hc.
  - apply Forall_app. auto.
  - apply Forall_app. auto.
Qed.

Lemma lang_lit_ci w s :
  lang (lit_ci w) s ->
  map Utils.lower_ascii s = map Utils.lower_ascii (list_ascii_of_string w).
Proof.
  revert s. induction w as [|x w IH]; intros s H; simpl in *.
  - inversion H. reflexivity.
  - inversion H as [| |? ? s1 s2 H1 H2| | | |]; subst.
    inversion H1 as [|? c Hc| | | | |]; subst. simpl.
    apply bool_decide_eq_true in Hc. rewrite Hc, (IH _ H2). reflexivity.
Qed.

End RegexFacts.

(** ** validate_url *)

Lemma chop_newline_Some s body :
  Url.chop_newline s = Some body -> s = (body ++ [ascii_of_nat 10])%list.
Proof.
  unfold Url.chop_newline. destruct (rev s) as [|c r] eqn:E; [discriminate|].
  case_bool_decide as Hc; [|discriminate]. intros [= <-]. subst c.
  rewrite <- (rev_involutive s), E. reflexivity.
Qed.

Lemma chop_newline_snoc s :
  Url.chop_newline (s ++ [ascii_of_nat 10]) = Some s.
Proof.
  unfold Url.chop_newline. rewrite rev_app_distr.
  cbn [rev app]. rewrite bool_decide_eq_true_2 by reflexivity.
  rewrite rev_involutive. reflexivity.
Qed.

Lemma validate_url_body url :
  Url.validate_url url = true ->
  exists body,
    (list_ascii_of_string url = body \/
     list_ascii_of_string url = (body ++ [ascii_of_nat 10])%list) /\
    Regex.lang Url.url_pattern body.
Proof.
  unfold Url.validate_url. intros H. apply orb_true_iff in H as [H|H].
  - eexists. split; [left; reflexivity|]. apply RegexFacts.matches_lang, H.
  - destruct (Url.chop_newline _) as [body|] eqn:E; [|discriminate].
    exists body. split; [right; apply chop_newline_Some, E|].
    apply RegexFacts.matches_lang, H.
Qed.

Lemma list_ascii_of_string_app a b :
  list_ascii_of_string (a ++ b) =
  (list_ascii_of_string a ++ list_ascii_of_string b)%list.
Proof. induction a as [|c a IH]; simpl; [reflexivity|]. rewrite IH. reflexivity. Qed.

(** X21.  A string validate_url accepts starts, without regard to case,
    with http:// or https://, and has no whitespace except possibly one line
    feed at its very end; and an accepted string that does not end in a
    line feed is still accepted with a line feed appended. *)
Theorem validate_url_accepts_only_http_urls url :
  Url.validate_url url = true ->
  (exists rest,
      map Utils.lower_ascii (list_ascii_of_string url) =
        (list_ascii_of_string "http://" ++ rest)%list \/
      map Utils.lower_ascii (list_ascii_of_string url) =
        (list_ascii_of_string "https://" ++ rest)%list) /\
  (exists body,
      (list_ascii_of_string url = body \/
       list_ascii_of_string url = (body ++ [ascii_of_nat 10])%list) /\
      Forall (fun c => Utils.is_whitespace c = false) body) /\
  (Url.chop_newline (list_ascii_of_string url) = None ->
   Url.validate_url (url ++ String (ascii_of_nat 10) "") = true).
Proof.
  intros Hv. pose proof (validate_url_body url Hv) as (body & Hbody & Hlang).
  split; [|split].
  - assert (Hpre : exists rest,
        map Utils.lower_ascii body = (list_ascii_of_string "http://" ++ rest)%list \/
        map Utils.lower_ascii body = (list_ascii_of_string "https://" ++ rest)%list).
    { unfold Url.url_pattern, Url.scheme in Hlang.
      inversion Hlang as [| |? ? a b Ha Hb| | | |]; subst.
      inversion Ha as [| |? ? a1 a' H1 Ha'| | | |]; subst.
      inversion Ha' as [| |? ? a2 a3 H2 H3| | | |]; subst.
      apply (RegexFacts.lang_lit_ci "http") in H1.
      apply (RegexFacts.lang_lit_ci "://") in H3.
      exists (map Utils.lower_ascii b). rewrite !map_app, H1, H3.
      inversion H2 as [| | |? ? ? Hs|? ? ? He| |]; subst.
      - inversion Hs as [|? c Hc| | | | |]; subst.
        apply bool_decide_eq_true in Hc. right. simpl. rewrite Hc. reflexivity.
      - inversion He; subst. left. reflexivity. }
    destruct Hpre as [rest Hpre]. destruct Hbody as [->| ->].
    + exists rest. exact Hpre.
    + exists (rest ++ map Utils.lower_ascii [ascii_of_nat 10])%list.
      rewrite map_app, !app_assoc.
      destruct Hpre as [-> | ->]; [left | right]; reflexivity.
  - exists body. split; [exact Hbody|].
    assert (Hcls : Regex.classes_within Url.non_space Url.url_pattern = true)
      by (vm_compute; reflexivity).
    pose proof (RegexFacts.lang_classes_within _ _ _ Hcls Hlang) as Hall.
    eapply Forall_impl; [exact Hall|]. intros c Hc.
    unfold Url.non_space in Hc. apply negb_true_iff, Hc.
  - intros Hchop. destruct Hbody as [Hb | Hb].
    + unfold Url.validate_url. rewrite list_ascii_of_string_app. simpl.
      rewrite chop_newline_snoc, <- Hb in *.
      rewrite (proj2 (RegexFacts.matches_lang _ _) Hlang). apply orb_true_r.
    + rewrite Hb, chop_newline_snoc in Hchop. discriminate.
Qed.

Lemma validate_url_accepts_only_http_urls_witness :
  (exists rest,
      map Utils.lower_ascii (list_ascii_of_string "HTTPS://Example.com:8080/a?b=1") =
        (list_ascii_of_string "http://" ++ rest)%list \/
      map Utils.lower_ascii (list_ascii_of_string "HTTPS://Example.com:8080/a?b=1") =
        (list_ascii_of_string "https://" ++ rest)%list) /\
  (exists body,
      (list_ascii_of_string "HTTPS://Example.com:8080/a?b=1" = body \/
       list_ascii_of_string "HTTPS://Example.com:8080/a?b=1" =
         (body ++ [ascii_of_nat 10])%list) /\
      Forall (fun c => Utils.is_whitespace c = false) body) /\
  (Url.chop_newline (list_ascii_of_string "HTTPS://Example.com:8080/a?b=1") = None ->
   Url.validate_url ("HTTPS://Example.com:8080/a?b=1" ++ String (ascii_of_nat 10) "")
     = true).
Proof.
  apply (validate_url_accepts_only_http_urls "HTTPS://Example.com:8080/a?b=1").
  vm_compute; reflexivity.
Defined.

(** ** validate_input_data *)

Lemma empty_not_source_type : "" ∉ VALID_SOURCE_TYPES.
Proof. intros H. vm_compute in H. discriminate. Qed.

Lemma empty_not_identifier_type : "" ∉ VALID_IDENTIFIER_TYPES.
Proof. intros H. vm_compute in H. discriminate. Qed.

Lemma validate_input_data_nil_inv data :
  Validation.validate_input_data data = [] ->
  exists title ty it iv,
    data !! "title" = Some title /\ title <> "" /\
    data !! "source_type" = Some ty /\ ty ∈ VALID_SOURCE_TYPES /\
    data !! "identifier_type" = Some it /\ it ∈ VALID_IDENTIFIER_TYPES /\
    data !! "identifier_value" = Some iv /\ iv <> "" /\
    (it = "url" -> Url.validate_url iv = true).
Proof.
  unfold Validation.validate_input_data, Validation.required_fields,
    Validation.missing. cbn [flat_map].
  intros H.
  destruct (data !! "title") as [title|]; [|discriminate].
  case_bool_decide as Ht; [discriminate|].
  destruct (data !! "source_type") as [ty|]; [|discriminate].
  case_bool_decide as Hty0; [discriminate|].
  destruct (data !! "identifier_type") as [it|]; [|discriminate].
  case_bool_decide as Hit0; [discriminate|].
  destruct (data !! "identifier_value") as [iv|]; [|discriminate].
  case_bool_decide as Hiv; [discriminate|].
  cbn [app] in H.
  case_bool_decide as Hty; [|discriminate].
  case_bool_decide as Hit; [|discriminate].
  cbn [app negb andb default from_option] in H. unfold id in H.
  exists title, ty, it, iv. repeat split; try assumption.
  intros ->. rewrite bool_decide_eq_true_2 in H by reflexivity.
  cbn [andb] in H. destruct (Url.validate_url iv); [reflexivity|discriminate].
Qed.

(** X22.  validate_input_data returns no error exactly when the title and
    the identifier value are present and non-empty, the source type and the
    identifier type are present and in their vocabularies, and, when the
    identifier type is url, the identifier value passes validate_url. *)
Theorem validate_input_data_accepts data :
  Validation.validate_input_data data = [] <->
  exists title ty it iv,
    data !! "title" = Some title /\ title <> "" /\
    data !! "source_type" = Some ty /\ ty ∈ VALID_SOURCE_TYPES /\
    data !! "identifier_type" = Some it /\ it ∈ VALID_IDENTIFIER_TYPES /\
    data !! "identifier_value" = Some iv /\ iv <> "" /\
    (it = "url" -> Url.validate_url iv = true).
Proof.
  split; [apply validate_input_data_nil_inv|].
  unfold Validation.validate_input_data, Validation.required_fields,
    Validation.missing. cbn [flat_map].
  intros (title & ty & it & iv & -> & Ht & -> & Hty & -> & Hit & -> & Hiv & Hurl).
  rewrite !bool_decide_eq_false_2
    by (assumption || (intros ->; first [apply empty_not_source_type, Hty
                                        | apply empty_not_identifier_type, Hit])).
  rewrite (bool_decide_eq_true_2 _ Hty), (bool_decide_eq_true_2 _ Hit).
  cbn [app negb andb default from_option]. unfold id.
  case_bool_decide as E; [|reflexivity].
  injection E as ->. rewrite (Hurl eq_refl). reflexivity.
Qed.

Lemma input_data_lookups title ty it iv :
  Validation.input_data title ty it iv !! "title" = Some title /\
  Validation.input_data title ty it iv !! "source_type" = Some ty /\
  Validation.input_data title ty it iv !! "identifier_type" = Some it /\
  Validation.input_data title ty it iv !! "identifier_value" = Some iv.
Proof.
  unfold Validation.input_data. repeat split;
    repeat (rewrite lookup_insert; case_decide; try congruence); reflexivity.
Qed.

(** X23.  The check of tools.add_source before add_source: when
    validate_input_data finds no error in the four fields, the title and the
    identifier value are non-empty and add_source cannot raise a validation
    error: it stores a source that reads back with that title, or leaves the
    store unchanged with "Source already exists" or, on an id collision,
    "Failed to add source". *)
Theorem validated_input_passes_add_source title ty it iv :
  Validation.validate_input_data (Validation.input_data title ty it iv) = [] ->
  title <> "" /\ iv <> "" /\
  forall uuid now db,
    match add_source title ty it iv uuid now db with
    | (Ok id, db') =>
        exists d, get_source_by_id id db' = (Ok (Some d), db') /\
                  sd_title d = title
    | (Raise e, db') =>
        db' = db /\
        ((exists row, row ∈ sources db /\
                      e = DbError (Source_already_exists (src_id row))) \/
         (source_exists uuid db = true /\
          e = DbError (Failed_to_add_source
                         (UNIQUE_constraint_failed "sources.id"))))
    end.
Proof.
  intros H. apply validate_input_data_nil_inv in H
    as (title' & ty' & it' & iv' & H1 & Ht & H2 & Hty & H3 & Hit & H4 & Hiv & _).
  destruct (input_data_lookups title ty it iv) as (L1 & L2 & L3 & L4).
  rewrite L1 in H1. rewrite L2 in H2. rewrite L3 in H3. rewrite L4 in H4.
  injection H1 as <-. injection H2 as <-. injection H3 as <-. injection H4 as <-.
  split; [exact Ht|]. split; [exact Hiv|]. intros uuid now db.
  rewrite add_source_eq, insert_into_sources_eq.
  unfold validate_source_type, validate_identifier_type.
  rewrite (bool_decide_eq_true_2 _ Hty), (bool_decide_eq_true_2 _ Hit). simpl.
  destruct (head (Sql.select_sources_by_identifier ty it iv db)) as [row|] eqn:E.
  - split; [reflexivity|]. left. exists row. split; [|reflexivity].
    assert (Hrow : In row (Sql.select_sources_by_identifier ty it iv db)).
    { destruct (Sql.select_sources_by_identifier ty it iv db);
        [discriminate|]. injection E as ->. left. reflexivity. }
    apply List.filter_In in Hrow as [Hin _]. apply list_elem_of_In, Hin.
  - destruct (source_exists uuid db) eqn:Hex.
    + split; [reflexivity|]. right. split; reflexivity.
    + set (row := mkSourceRow uuid title ty {[ it := iv ]} "unread" now).
      exists (detail_of row (with_source db row)).
      rewrite get_source_by_id_eq.
      rewrite (select_by_id_with_source_fresh db row uuid eq_refl Hex).
      split; reflexivity.
Qed.

Lemma validated_input_passes_add_source_witness :
  "Deep Learning" <> "" /\ "978-0262035613" <> "" /\
  forall uuid now db,
    match add_source "Deep Learning" "book" "isbn" "978-0262035613" uuid now db with
    | (Ok id, db') =>
        exists d, get_source_by_id id db' = (Ok (Some d), db') /\
                  sd_title d = "Deep Learning"
    | (Raise e, db') =>
        db' = db /\
        ((exists row, row ∈ sources db /\
                      e = DbError (Source_already_exists (src_id row))) \/
         (source_exists uuid db = true /\
          e = DbError (Failed_to_add_source
                         (UNIQUE_constraint_failed "sources.id"))))
    end.
Proof.
  apply (validated_input_passes_add_source "Deep Learning" "book" "isbn"
           "978-0262035613").
  vm_compute; reflexivity.
Defined.

(** ** clean_title *)

Module TitleFacts.
Import Title.

Lemma collapse_length b s : (String.length (collapse b s) <= String.length s)%nat.
Proof.
  revert b. induction s as [|c s IH]; intros b; simpl; [lia|].
  destruct (Utils.is_whitespace c); [destruct b|]; simpl;
    try (specialize (IH true); lia); specialize (IH false); lia.
Qed.

Lemma collapse_collapse b b' s :
  (b' = true -> b = false -> leading_whitespace s = false) ->
  collapse b' (collapse b s) = collapse b s.
Proof.
  revert b b'. induction s as [|c s IH]; intros b b' H; [reflexivity|].
  simpl in *. destruct (Utils.is_whitespace c) eqn:Ec.
  - destruct b.
    + apply IH. intros _ [=].
    + destruct b'; [discriminate (H eq_refl eq_refl)|].
      simpl. change (Utils.is_whitespace " ") with true. cbn iota.
      rewrite IH; [reflexivity | intros _ [=]].
  - simpl. rewrite Ec, IH; [reflexivity | intros [=]].
Qed.

Lemma collapse_any_run b s :
  leading_whitespace s = false -> collapse b s = collapse false s.
Proof. destruct s as [|c s]; simpl; [reflexivity|]. intros ->. reflexivity. Qed.

Lemma collapse_keeps_start b s :
  leading_whitespace s = false -> leading_whitespace (collapse b s) = false.
Proof. destruct s as [|c s]; simpl; [reflexivity|]. intros E. rewrite E. exact E. Qed.

Lemma collapse_true_fixed s : collapse true s = s -> leading_whitespace s = false.
Proof.
  destruct s as [|c s]; simpl; [reflexivity|].
  destruct (Utils.is_whitespace c); [|reflexivity].
  intros H. pose proof (collapse_length true s) as Hl. rewrite H in Hl.
  simpl in Hl. lia.
Qed.

Lemma lstrip_start s : leading_whitespace (lstrip s) = false.
Proof.
  induction s as [|c s IH]; simpl; [reflexivity|].
  destruct (Utils.is_whitespace c) eqn:E; [exact IH | simpl; exact E].
Qed.

Lemma lstrip_fixed s : leading_whitespace s = false -> lstrip s = s.
Proof. destruct s as [|c s]; simpl; [reflexivity|]. intros ->. reflexivity. Qed.

Lemma rstrip_cons c s :
  rstrip (String c s) =
  if bool_decide (rstrip s = "")
  then (if Utils.is_whitespace c then "" else String c "")
  else String c (rstrip s).
Proof. simpl. destruct (rstrip s); reflexivity. Qed.

Lemma rstrip_rstrip s : rstrip (rstrip s) = rstrip s.
Proof.
  induction s as [|c s IH]; [reflexivity|].
  rewrite rstrip_cons. case_bool_decide as E.
  - destruct (Utils.is_whitespace c) eqn:Ec; [reflexivity|].
    simpl. rewrite Ec. reflexivity.
  - rewrite rstrip_cons, IH, bool_decide_eq_false_2 by exact E. reflexivity.
Qed.

Lemma rstrip_keeps_start s :
  leading_whitespace s = false -> leading_whitespace (rstrip s) = false.
Proof.
  destruct s as [|c s]; [reflexivity|]. intros H. rewrite rstrip_cons.
  simpl in H. case_bool_decide; [rewrite H|]; simpl; assumption.
Qed.

Lemma rstrip_fixed_cons c s :
  rstrip (String c s) = String c s ->
  (s = "" /\ Utils.is_whitespace c = false) \/ (s <> "" /\ rstrip s = s).
Proof.
  rewrite rstrip_cons. case_bool_decide as E.
  - destruct (Utils.is_whitespace c); [discriminate|].
    intros [= <-]. left. auto.
  - intros [= H]. right. split; [|exact H]. intros ->. apply E. reflexivity.
Qed.

Lemma collapse_nonempty b s :
  rstrip s = s -> s <> "" -> collapse b s <> "".
Proof.
  revert b. induction s as [|c s IH]; intros b H Hne; [contradiction|].
  simpl. destruct (Utils.is_whitespace c) eqn:Ec; [|discriminate].
  apply rstrip_fixed_cons in H as [[_ H]|[Hs H]]; [congruence|].
  destruct b; [apply IH; assumption | discriminate].
Qed.

Lemma rstrip_collapse b s : rstrip s = s -> rstrip (collapse b s) = collapse b s.
Proof.
  revert b. induction s as [|c s IH]; intros b H; [reflexivity|].
  apply rstrip_fixed_cons in H as [[-> Hc]|[Hs H]].
  - simpl. rewrite Hc. simpl. rewrite Hc. reflexivity.
  - simpl. destruct (Utils.is_whitespace c) eqn:Ec.
    + destruct b; [apply IH, H|].
      rewrite rstrip_cons, (IH true H).
      rewrite bool_decide_eq_false_2 by (apply collapse_nonempty; assumption).
      reflexivity.
    + rewrite rstrip_cons, (IH false H).
      case_bool_decide as E; [rewrite E, Ec|]; reflexivity.
Qed.

Lemma rstrip_app_fixed x y :
  rstrip (x ++ y) = x ++ y -> y <> "" -> rstrip y = y.
Proof.
  induction x as [|d x IH]; simpl; [auto|]. intros H Hy.
  change (rstrip (String d (x ++ y)) = String d (x ++ y)) in H.
  apply rstrip_fixed_cons in H as [[H _]|[_ H]]; [|apply IH; assumption].
  destruct x; simpl in H; [contradiction | discriminate].
Qed.

Lemma after_prefix_ci_split w s u :
  after_prefix_ci w s = Some u ->
  exists a, s = a ++ u /\ Utils.lower a = Utils.lower w.
Proof.
  revert s. induction w as [|x w IH]; intros s; simpl.
  - intros [= ->]. exists "". auto.
  - destruct s as [|c s]; [discriminate|].
    case_bool_decide as E; [|discriminate]. intros H.
    apply IH in H as (a & -> & Ha). exists (String c a). simpl.
    rewrite E, Ha. auto.
Qed.

Lemma letters_are_not_whitespace :
  Regex.all_ascii (fun c =>
    Regex.all_ascii (fun x =>
      implb (bool_decide (Utils.lower_ascii c = Utils.lower_ascii x)
             && Url.is_alpha x)
            (negb (Utils.is_whitespace c)))) = true.
Proof. vm_compute. reflexivity. Qed.

Lemma lower_letters_no_whitespace a w :
  Utils.lower a = Utils.lower w ->
  (forall x, In x (list_ascii_of_string w) -> Url.is_alpha x = true) ->
  no_whitespace a = true.
Proof.
  revert w. induction a as [|c a IH]; intros [|x w]; simpl; try discriminate;
    [reflexivity|].
  intros [= Hc Ha] Hw.
  pose proof (RegexFacts.all_ascii_spec _
                (RegexFacts.all_ascii_spec _ letters_are_not_whitespace c) x) as H.
  cbv beta in H. rewrite (bool_decide_eq_true_2 _ Hc) in H.
  rewrite (Hw x (or_introl eq_refl)) in H. simpl in H. rewrite H. simpl.
  apply (IH w Ha). intros y Hy. apply Hw. right. exact Hy.
Qed.

Lemma collapse_word b a u :
  no_whitespace a = true -> a <> "" ->
  collapse b (a ++ u) = a ++ collapse false u.
Proof.
  revert b. induction a as [|c a IH]; intros b Ha Hne; [contradiction|].
  simpl in Ha. apply andb_true_iff in Ha as [Hc Ha].
  apply negb_true_iff in Hc.
  change (collapse b (String c (a ++ u)) = String c (a ++ collapse false u)).
  simpl. rewrite Hc. f_equal.
  destruct a as [|d a]; [reflexivity|]. apply IH; [exact Ha | discriminate].
Qed.

Lemma append_cancel a u v : a ++ u = a ++ v -> u = v.
Proof. induction a as [|c a IH]; simpl; [auto|]. intros [= H]. auto. Qed.

(** A match of an article and the whitespace after it, in a stripped and
    collapsed string: one space follows the article, and what is left is
    again stripped and collapsed. *)
Lemma after_word_normal w n r :
  (forall x, In x (list_ascii_of_string w) -> Url.is_alpha x = true) ->
  w <> "" ->
  collapse false n = n -> rstrip n = n ->
  after_word w n = Some r ->
  exists a, Utils.lower a = Utils.lower w /\ n = a ++ " " ++ r /\ r <> "" /\
            leading_whitespace r = false /\ collapse false r = r /\
            rstrip r = r.
Proof.
  intros Hw Hne Hc Hr. unfold after_word.
  destruct (after_prefix_ci w n) as [[|c rest]|] eqn:E; try discriminate.
  destruct (Utils.is_whitespace c) eqn:Ec; [|discriminate]. intros [= <-].
  apply after_prefix_ci_split in E as (a & -> & Ha).
  assert (Hnw : no_whitespace a = true)
    by (eapply lower_letters_no_whitespace; eassumption).
  assert (Hane : a <> "").
  { intros ->. destruct w; [contradiction | discriminate]. }
  rewrite (collapse_word _ _ _ Hnw Hane) in Hc. apply append_cancel in Hc.
  simpl in Hc. rewrite Ec in Hc. injection Hc as <- Hrest.
  pose proof (collapse_true_fixed _ Hrest) as Hlead.
  rewrite (lstrip_fixed _ Hlead).
  assert (Hrne : rest <> "").
  { intros ->. apply rstrip_app_fixed in Hr; [|discriminate]. discriminate. }
  exists a. repeat split; try assumption.
  - rewrite <- Hrest at 2. symmetry. apply collapse_any_run, Hlead.
  - assert (H1 : rstrip (String " " rest) = String " " rest)
      by (apply (rstrip_app_fixed a); [exact Hr | discriminate]).
    apply (rstrip_app_fixed " " rest H1 Hrne).
Qed.

End TitleFacts.

(** X24.  clean_title returns a string that strip and the whitespace
    substitution leave unchanged (no whitespace at either end, single spaces
    only inside), and it is the stripped and collapsed title, either whole
    or without one leading article a, an or the (in any case) and the space
    after it, which happens only when more of the title follows. *)
Theorem clean_title_normal_form title :
  let cleaned := Title.clean_title title in
  Title.strip cleaned = cleaned /\
  Title.sub_whitespace cleaned = cleaned /\
  (cleaned = Title.sub_whitespace (Title.strip title) \/
   exists article,
     Utils.lower article ∈ ["a"; "an"; "the"] /\
     Title.sub_whitespace (Title.strip title) = article ++ " " ++ cleaned /\
     cleaned <> "").
Proof.
  unfold Title.clean_title, Title.sub_whitespace.
  set (n := Title.collapse false (Title.strip title)).
  assert (Hlead : leading_whitespace n = false).
  { apply TitleFacts.collapse_keeps_start, TitleFacts.rstrip_keeps_start,
      TitleFacts.lstrip_start. }
  assert (Hc : Title.collapse false n = n).
  { apply TitleFacts.collapse_collapse. intros [=]. }
  assert (Hr : Title.rstrip n = n).
  { apply TitleFacts.rstrip_collapse, TitleFacts.rstrip_rstrip. }
  assert (Hnormal : forall r, leading_whitespace r = false ->
                              Title.collapse false r = r -> Title.rstrip r = r ->
                              Title.strip r = r /\ Title.collapse false r = r).
  { intros r H1 H2 H3. unfold Title.strip.
    rewrite (TitleFacts.lstrip_fixed _ H1). auto. }
  assert (Hart : forall w r,
    (forall x, In x (list_ascii_of_string w) -> Url.is_alpha x = true) ->
    w <> "" -> Utils.lower w ∈ ["a"; "an"; "the"] ->
    Title.after_word w n = Some r ->
    Title.strip r = r /\ Title.collapse false r = r /\
    (r = n \/ exists article,
        Utils.lower article ∈ ["a"; "an"; "the"] /\
        n = article ++ " " ++ r /\ r <> "")).
  { intros w r Hw Hne Hin E.
    destruct (TitleFacts.after_word_normal w n r Hw Hne Hc Hr E)
      as (a & Ha & Hn & Hrne & H1 & H2 & H3).
    destruct (Hnormal r H1 H2 H3) as [S1 S2].
    split; [exact S1|]. split; [exact S2|]. right. exists a.
    rewrite Ha. auto. }
  unfold Title.sub_leading_article. cbv zeta.
  assert (Halpha : forall w, w ∈ ["A"; "An"; "The"] ->
    forall x, In x (list_ascii_of_string w) -> Url.is_alpha x = true).
  { intros w Hw x Hx. set_unfold.
    destruct Hw as [->|[->|[->|[]]]]; simpl in Hx;
      repeat (destruct Hx as [<-|Hx]; [reflexivity|]); destruct Hx. }
  destruct (Title.after_word "A" n) as [r|] eqn:EA.
  { apply (Hart "A" r); [apply Halpha; set_unfold; auto | discriminate
                         | set_unfold; auto | exact EA]. }
  destruct (Title.after_word "An" n) as [r|] eqn:EAn.
  { apply (Hart "An" r); [apply Halpha; set_unfold; auto | discriminate
                          | set_unfold; auto | exact EAn]. }
  destruct (Title.after_word "The" n) as [r|] eqn:EThe.
  { apply (Hart "The" r); [apply Halpha; set_unfold; auto | discriminate
                           | set_unfold; auto | exact EThe]. }
  destruct (Hnormal n Hlead Hc Hr) as [S1 S2]. auto.
Qed.

(** ** The two title searches *)

Lemma prefix_refl s : String.prefix s s = true.
Proof.
  induction s as [|c s IH]; simpl; [reflexivity|].
  destruct (ascii_dec c c); [exact IH | contradiction].
Qed.

Lemma contains_refl s : Utils.contains s s = true.
Proof.
  destruct s as [|c s]; [reflexivity|].
  unfold Utils.contains; fold Utils.contains. rewrite prefix_refl. reflexivity.
Qed.

Lemma exact_is_substring q s :
  exact_match q s = true -> substring_match q s = true.
Proof.
  unfold exact_match, substring_match. intros H.
  apply bool_decide_eq_true in H. rewrite H. apply contains_refl.
Qed.

Lemma filter_filter {A} (f g : A -> bool) (l : list A) :
  List.filter f (List.filter g l) = List.filter (fun x => g x && f x) l.
Proof.
  induction l as [|x l IH]; simpl; [reflexivity|].
  destruct (g x); simpl; [destruct (f x)|]; rewrite IH; reflexivity.
Qed.

(** X25.  The search of the command line finds the same sources as the exact
    and substring matches of search_sources_by_title, up to their order:
    every source it lists is also in the ranked result, and what the ranked
    result has beyond it are the sources that match by a single query word
    only. *)
Theorem command_line_search_is_the_substring_part sources query :
  let q := Utils.lower query in
  Permutation (Cli.search_matches sources query)
              (List.filter (substring_match q)
                           (Utils.search_sources_by_title sources query)) /\
  (forall s, In s (Cli.search_matches sources query) ->
             In s (Utils.search_sources_by_title sources query)) /\
  (forall s, In s (Utils.search_sources_by_title sources query) ->
             ~ In s (Cli.search_matches sources query) ->
             substring_match q s = false /\ word_match q s = true).
Proof.
  intros q. rewrite search_sources_by_title_tiers. fold q.
  unfold Cli.search_matches. fold q.
  change (fun source => Utils.contains q (Utils.lower (sum_title source)))
    with (substring_match q).
  split; [|split].
  - rewrite !List.filter_app, !filter_filter.
    rewrite (filter_all_false
               (fun x => (negb (exact_match q x) && negb (substring_match q x) &&
                          word_match q x) && substring_match q x)).
    2:{ apply List.Forall_forall. intros s _.
        destruct (exact_match q s), (substring_match q s), (word_match q s);
          reflexivity. }
    rewrite app_nil_r.
    rewrite (List.filter_ext
               (fun x => exact_match q x && substring_match q x)
               (fun x => substring_match q x && exact_match q x)).
    2:{ intros s. apply andb_comm. }
    rewrite (List.filter_ext
               (fun x => negb (exact_match q x) && substring_match q x
                         && substring_match q x)
               (fun x => substring_match q x && negb (exact_match q x))).
    2:{ intros s. destruct (exact_match q s), (substring_match q s); reflexivity. }
    rewrite <- !filter_filter. symmetry. apply filter_split_perm.
  - intros s Hs. apply List.filter_In in Hs as [Hin Hsub].
    rewrite !List.in_app_iff, !List.filter_In.
    destruct (exact_match q s); [left; auto|]. right. left. auto.
  - intros s Hs Hno. rewrite !List.in_app_iff, !List.filter_In in Hs.
    assert (Hsub : substring_match q s = false).
    { destruct (substring_match q s) eqn:E; [|reflexivity].
      exfalso. apply Hno. apply List.filter_In.
      destruct Hs as [[H _]|[[H _]|[H _]]]; auto. }
    split; [exact Hsub|].
    destruct Hs as [[_ H]|[[_ H]|[_ H]]].
    + apply exact_is_substring in H. congruence.
    + rewrite Hsub, andb_false_r in H. discriminate.
    + apply andb_true_iff in H as [_ H]. exact H.
Qed.
